(** * Talkers Cave: the dialogue game of [src/components/TalkersCaveGame.tsx]

    A shallow embedding of the React component [TalkersCaveGame] and of the
    helper functions above it ([cleanWord], [extractJson],
    [getPhoneticBreakdown], [analyzeReadingWithAI]).

    Conventions of the embedding.
    - A JavaScript string is a [string]: the list of its characters.  The
      character-level built-ins ([trim], [toLowerCase], the class [\s]) are
      modelled on the ASCII range; a character above 127 is neither white
      space nor a letter with a lower case.
    - A value produced by [JSON.parse] or read from such a value is a [value].
    - The component state is the record [State]: one field per [useState]
      and [useRef] cell of the component, plus the effects the component has
      on its surroundings ([onComplete] calls, synthesis requests, the
      pending callbacks of timers and utterances).
    - An event handler is a function [State -> State]; the setters keep the
      names they have in the source.  Handlers run one at a time, each on the
      state of the latest render, as React re-creates them after every
      render.  The two callbacks that outlive a render, [handleAiTurnEnd]
      and the timer of a successful practice attempt, carry the values they
      closed over.
    - An [async] function runs in one piece: nothing the user can do while
      it waits for the service changes what it does next.
    - The generative-AI service is an oracle ([AiService]); of a request
      the model keeps the parameters that vary in its prompt.  [JSON.parse],
      the constants of [../constants] and [../guidelines], the props and
      the capabilities of the browser are the fields of the record [Env].
    - Of what is rendered the model keeps which buttons a render offers
      and which recognition error it shows.  Time is not modelled: the
      timers (700 ms before the AI speaks, 1500 ms after a successful
      attempt, the silent timer of a line that cannot be spoken, whose delay
      is recorded) and the callbacks of the browser are events that may come
      in any order.  The console is left out.  The prop [onComplete] is
      [handleFinish] of [App], which takes the game off the screen; the
      model records its calls. *)

From Stdlib Require Import ZArith Lia Ascii.
From stdpp Require Import base list strings pretty.

Local Open Scope Z_scope.

(** ** JavaScript strings *)

Module JsString.

(** [\s] and the characters removed by [trim], on the ASCII range: tab,
    line feed, vertical tab, form feed, carriage return, space. *)
Definition isWhiteSpace (c : ascii) : bool := Ascii.is_space c.

(** [s.trimStart()] *)
Fixpoint trimStart (s : string) : string :=
  match s with
  | String c r => if isWhiteSpace c then trimStart r else s
  | EmptyString => EmptyString
  end.

(** [s.trimEnd()] *)
Definition trimEnd (s : string) : string :=
  String.rev (trimStart (String.rev s)).

(** [s.trim()] *)
Definition trim (s : string) : string := trimEnd (trimStart s).

Definition mapChars (f : ascii -> ascii) : string -> string :=
  fix go (s : string) : string :=
    match s with
    | String c r => String (f c) (go r)
    | EmptyString => EmptyString
    end.

Definition filterChars (keep : ascii -> bool) : string -> string :=
  fix go (s : string) : string :=
    match s with
    | String c r => if keep c then String c (go r) else go r
    | EmptyString => EmptyString
    end.

Definition isUpper (c : ascii) : bool :=
  (65 <=? Z.of_N (Ascii.N_of_ascii c)) && (Z.of_N (Ascii.N_of_ascii c) <=? 90).

Definition lowerChar (c : ascii) : ascii :=
  if isUpper c then Ascii.ascii_of_N (Ascii.N_of_ascii c + 32) else c.

(** [s.toLowerCase()] *)
Definition toLowerCase : string -> string := mapChars lowerChar.

(** [s.split(sep)] for a one-character separator: the pieces between the
    occurrences of [sep], empty pieces included; the empty string splits
    into one empty piece. *)
Fixpoint split (sep : ascii) (s : string) : list string :=
  match s with
  | EmptyString => [EmptyString]
  | String c r =>
      if Ascii.eqb c sep then EmptyString :: split sep r
      else match split sep r with
           | w :: ws => String c w :: ws
           | [] => [String c EmptyString]
           end
  end.

(** [Boolean(s)] for a string: the empty string is the only falsy one. *)
Definition truthy (s : string) : bool :=
  match s with EmptyString => false | String _ _ => true end.

(** [s.indexOf(c)]: the first position of [c], or [-1]. *)
Fixpoint indexOf (c : ascii) (s : string) : Z :=
  match s with
  | EmptyString => -1
  | String d r =>
      if Ascii.eqb d c then 0
      else let i := indexOf c r in if i =? -1 then -1 else i + 1
  end.

(** [s.lastIndexOf(c)]: the last position of [c], or [-1]. *)
Fixpoint lastIndexOf (c : ascii) (s : string) : Z :=
  match s with
  | EmptyString => -1
  | String d r =>
      let i := lastIndexOf c r in
      if i =? -1 then (if Ascii.eqb d c then 0 else -1) else i + 1
  end.

(** [s.substring(from, to)] for [0 <= from <= to]. *)
Definition substring (from to : Z) (s : string) : string :=
  String.substring (Z.to_nat from) (Z.to_nat (to - from)) s.

Fixpoint drop (n : nat) (s : string) : string :=
  match n, s with
  | S m, String _ r => drop m r
  | _, _ => s
  end.

End JsString.

Import JsString.

(** ** Utility functions of the source *)

(** The character class [[.,?!]] of [cleanWord]. *)
Definition isCleanedPunctuation (c : ascii) : bool :=
  match c with
  | "."%char | ","%char | "?"%char | "!"%char => true
  | _ => false
  end.

(** [const cleanWord = (word) => word.trim().toLowerCase().replace(/[.,?!]/g, '')] *)
Definition cleanWord (word : string) : string :=
  filterChars (fun c => negb (isCleanedPunctuation c)) (toLowerCase (trim word)).

(** ** Values

    What [JSON.parse] returns, and what reading a property of such a value
    gives.  The payload of a number plays no part in the component. *)

#[warnings="-register-all"]
Inductive value : Type :=
| VUndefined
| VNull
| VBool (b : bool)
| VNum (n : Z)
| VStr (s : string)
| VArr (items : list value)
| VObj (fields : list (string * value)).

(** What a [throw] carries, as far as the component looks at it:
    [e instanceof Error] and then [e.message]. *)
Inductive thrown : Type :=
| JsError (message : string)
| NotAnError.

Definition assocLookup (k : string) (fields : list (string * value)) : option value :=
  snd <$> List.find (fun kv => bool_decide (fst kv = k)) fields.

(** [k in v], for a key [k] that no prototype defines (the component asks
    for ['character'] and ['line'] only).  [None] is the [TypeError] of
    [in] applied to a primitive. *)
Definition hasProperty (k : string) (v : value) : option bool :=
  match v with
  | VObj fields => Some (bool_decide (is_Some (assocLookup k fields)))
  | VArr _ => Some false
  | _ => None
  end.

(** [v.k] for such a key.  [None] is the [TypeError] of reading a property
    of [undefined] or [null]; a missing property reads as [undefined]. *)
Definition getProperty (k : string) (v : value) : option value :=
  match v with
  | VUndefined | VNull => None
  | VObj fields => Some (default VUndefined (assocLookup k fields))
  | _ => Some VUndefined
  end.

(** [typeof v === 'string'] *)
Definition isString (v : value) : bool :=
  match v with VStr _ => true | _ => false end.

(** [Array.isArray(v) && v.every(item => typeof item === 'string') ? v : null],
    with the strings taken out of their [VStr]. *)
Fixpoint allStrings (items : list value) : option (list string) :=
  match items with
  | [] => Some []
  | VStr s :: rest => cons s <$> allStrings rest
  | _ :: _ => None
  end.

Definition arrayOfStrings (v : value) : option (list string) :=
  match v with
  | VArr items => allStrings items
  | _ => None
  end.

(** ** [extractJson] *)

Module Fence.

(** The regular expression
    [/```(?:json)?\s*([\s\S]*?)\s*```/] of [extractJson], as the
    backtracking matcher runs it. *)

Definition backticks : string := "```".

(** The tail [\s*```]: does it match at the head of [s]? *)
Fixpoint closes (s : string) : bool :=
  String.prefix backticks s ||
  match s with
  | String c r => isWhiteSpace c && closes r
  | EmptyString => false
  end.

(** The lazy group [([\s\S]*?)] followed by the tail: the shortest capture
    after which the tail matches. *)
Fixpoint capture (s : string) : option string :=
  if closes s then Some EmptyString
  else match s with
       | String c r => String c <$> capture r
       | EmptyString => None
       end.

(** The greedy [\s*] before the group: as much white space as possible,
    giving one character back at a time when the rest fails. *)
Fixpoint afterSpaces (s : string) : option string :=
  match s with
  | String c r =>
      if isWhiteSpace c
      then match afterSpaces r with
           | Some g => Some g
           | None => capture s
           end
      else capture s
  | EmptyString => capture s
  end.

(** The whole expression anchored at the head of [s]; the optional group
    [(?:json)?] is tried first with ["json"], then without. *)
Definition matchHere (s : string) : option string :=
  if String.prefix backticks s then
    let r := drop 3 s in
    match (if String.prefix "json" r then afterSpaces (drop 4 r) else None) with
    | Some g => Some g
    | None => afterSpaces r
    end
  else None.

(** [jsonStr.match(fenceRegex)]: the leftmost position with a match; the
    result is the captured group 1. *)
Fixpoint search (s : string) : option string :=
  match matchHere s with
  | Some g => Some g
  | None =>
      match s with
      | String _ r => search r
      | EmptyString => None
      end
  end.

End Fence.

(** The text [extractJson] hands to [JSON.parse]. *)
Definition jsonCandidate (text : string) : string :=
  let jsonStr := trim text in
  match Fence.search jsonStr with
  | Some (String c g) => trim (String c g)
  | _ =>
      let firstBracket := indexOf "[" jsonStr in
      let lastBracket := lastIndexOf "]" jsonStr in
      let firstBrace := indexOf "{" jsonStr in
      let lastBrace := lastIndexOf "}" jsonStr in
      let start :=
        if negb (firstBracket =? -1) && negb (firstBrace =? -1)
        then Z.min firstBracket firstBrace
        else if negb (firstBracket =? -1) then firstBracket
        else firstBrace in
      let end_ :=
        if negb (lastBracket =? -1) && negb (lastBrace =? -1)
        then Z.max lastBracket lastBrace
        else if negb (lastBracket =? -1) then lastBracket
        else lastBrace in
      if negb (start =? -1) && (start <? end_)
      then substring start (end_ + 1) jsonStr
      else jsonStr
  end.

(** [extractJson(text)].  [JSON_parse] is the built-in, [None] when it throws
    a [SyntaxError]; [text] is [response.text], [None] when the response has
    no text (then [text.trim()] throws inside the [try]).  The [null] of the
    [catch] branch is [VNull]. *)
Definition extractJson (JSON_parse : string -> option value)
    (text : option string) : value :=
  match text with
  | None => VNull
  | Some text => default VNull (JSON_parse (jsonCandidate text))
  end.

(** ** The generative-AI service

    [ai.models.generateContent] is a black box.  A request is recorded by the
    parameters that vary in its prompt; the reply to the [n]-th call of a
    session is [replyOf n], whatever was asked. *)

Inductive ai_request : Type :=
| ScriptRequest (scene character aiCharacter : string) (grade level : Z)
| AnalysisRequest (spokenText : string) (targetText : value)
| PhoneticRequest (word : string).

Inductive ai_reply : Type :=
| AiThrows (e : thrown)
| AiResponds (text : option string).

Record AiService : Type := {
  replyOf : nat -> ai_reply;
  calls : list ai_request
}.

(** An [async] function that talks to the service: it ends with a value or
    with a rejection, and leaves the service with its calls recorded. *)
Definition Async (A : Type) : Type := AiService -> (thrown + A) * AiService.

Definition ret {A : Type} (a : A) : Async A := fun ai => (inr a, ai).

Definition throw {A : Type} (e : thrown) : Async A := fun ai => (inl e, ai).

Definition bind {A B : Type} (m : Async A) (k : A -> Async B) : Async B :=
  fun ai =>
    match m ai with
    | (inr a, ai') => k a ai'
    | (inl e, ai') => (inl e, ai')
    end.

(** [try { m } catch (e) { handler(e) }] *)
Definition tryCatch {A : Type} (m : Async A) (handler : thrown -> Async A) : Async A :=
  fun ai =>
    match m ai with
    | (inr a, ai') => (inr a, ai')
    | (inl e, ai') => handler e ai'
    end.

Notation "x <- m ;; k" := (bind m (fun x => k))
  (at level 100, m at next level, right associativity).

(** [await ai.models.generateContent(...)], giving [response.text]. *)
Definition generateContent (req : ai_request) : Async (option string) :=
  fun ai =>
    let ai' := {| replyOf := replyOf ai; calls := calls ai ++ [req] |} in
    match replyOf ai (length (calls ai)) with
    | AiThrows e => (inl e, ai')
    | AiResponds text => (inr text, ai')
    end.

(** ** What the component is given: props, imported constants, the browser *)

(** A level hint and a grade of [../guidelines]; of a grade, the fields
    that the control flow of [generateScript] reads (the others are only
    printed into the prompt). *)
Record LevelHint : Type := {
  level : Z;
  target_word_count : Z;
  sentence_types_hint : list string
}.

Record Grade : Type := {
  grade : Z;
  level_progression_hint : list LevelHint
}.

Record Env : Type := {
  (** the built-in [JSON.parse]; [None] when it throws *)
  JSON_parse : string -> option value;
  (** the message of a [TypeError] raised by the engine *)
  typeErrorMessage : string;
  (** [TALKERS_CAVE_SCENES] of [../constants]: the characters of a scene *)
  TALKERS_CAVE_SCENES : string -> list string;
  (** [guidelines.grades] of [../guidelines] *)
  grades : list Grade;
  (** the props [userGrade], [currentLevel], [language] *)
  userGrade : Z;
  currentLevel : Z;
  language : string;
  (** [window.speechSynthesis] is defined *)
  hasSpeechSynthesis : bool;
  (** [window.SpeechRecognition || window.webkitSpeechRecognition] is defined *)
  hasSpeechRecognition : bool
}.

(** ** [getPhoneticBreakdown] and [analyzeReadingWithAI] *)

Definition getPhoneticBreakdown (env : Env) (word : string) : Async (list string) :=
  tryCatch
    (text <- generateContent (PhoneticRequest word) ;;
     let result := extractJson (JSON_parse env) text in
     ret (default [word] (arrayOfStrings result)))
    (fun _ => ret [word]).

Definition analyzeReadingWithAI (env : Env) (spokenText : string) (targetText : value)
    : Async (list string) :=
  if negb (truthy (trim spokenText)) then
    match targetText with
    | VStr t => ret (filter truthy (split " " t))
    | _ => throw (JsError (typeErrorMessage env))
    end
  else
    tryCatch
      (text <- generateContent (AnalysisRequest spokenText targetText) ;;
       let result := extractJson (JSON_parse env) text in
       ret (default [] (arrayOfStrings result)))
      (fun _ => ret []).

(** ** The state of the component *)

Inductive Step : Type :=
| SCENE | CHARACTER | LOADING_SCRIPT | GAME
| ANALYZING_PERFORMANCE | PRACTICE_PREP | PRACTICE | COMPLETE.

Inductive PracticeStatus : Type := IDLE | LISTENING | SUCCESS | TRY_AGAIN.

(** The values of the ref [practiceAttemptResult] other than [null]. *)
Module Attempt.
Inductive t : Type := SUCCESS | TRY_AGAIN | NO_RESULT.
End Attempt.

(** [type Mistake = { said: string; expected: string }] *)
Record Mistake : Type := { mistake_said : string; expected : string }.

(** [type PracticeWord = { word: string; phonemes: string[] }] *)
Record PracticeWord : Type := { word : string; phonemes : list string }.

(** An entry of [userDialog]: [{ target, said }].  The target is what the
    property [line] of a script item holds. *)
Record Dialog : Type := { target : value; said : string }.

(** A [SpeechSynthesisVoice], as far as [speak] looks at it. *)
Record Voice : Type := { lang : string; name : string }.

(** The number [text.length * 50]: so many milliseconds when [text] is a
    string or an array; [NaN] when [text] has no [length] (a number, a
    boolean, an object without that property), which [setTimeout] takes for
    no delay; and [50] times whatever the [length] property of an object
    holds. *)
Inductive Delay : Type :=
| Millis (ms : Z)
| NotANumber
| FiftyTimes (len : value).

(** What [speak] and [pronounceWord] ask of the browser: an utterance handed
    to [window.speechSynthesis.speak], or, without synthesis, a timer of
    [text.length * 50] milliseconds and no sound. *)
Inductive Speech : Type :=
| Utterance (text : value) (voice : option Voice)
| SilentTimer (text : value) (delay : Delay).

(** The closure [handleAiTurnEnd] waiting for the end of [speak]: the
    [currentTurn] and [script.length] of the render that created it, and
    whether it hangs on an utterance (whose end also clears [isAiSpeaking]). *)
Record TurnEnd : Type := {
  turnEnd_currentTurn : nat;
  turnEnd_scriptLength : nat;
  turnEnd_utterance : bool
}.

(** The closure of the 1500 ms timer started on a successful practice
    attempt: the [currentPracticeWordIndex] and [practiceWords.length] of the
    render that created it. *)
Record Advance : Type := {
  advance_index : nat;
  advance_length : nat
}.

(** The [useState] cells, then the refs ([hasProcessedTurn],
    [wasStoppedIntentionally], [practiceAttemptResult], the [transcriptRef]
    of the recognition effect), then what the component has done to its
    surroundings: the calls of the prop [onComplete] (latest last), the
    speech requests (latest last) and the callbacks not yet run. *)
Record State : Type := {
  step : Step;
  selectedScene : option string;
  centeredScene : string;
  selectedCharacter : option string;
  script : list value;
  error : option string;
  currentTurn : nat;
  isAiSpeaking : bool;
  voices : list Voice;
  isRecognitionActive : bool;
  recognitionError : option string;
  mistakes : list Mistake;
  isAnalyzing : bool;
  userDialog : list Dialog;
  userTranscript : string;
  practiceWords : list PracticeWord;
  currentPracticeWordIndex : nat;
  practiceStatus : PracticeStatus;
  practiceTranscript : string;
  hasProcessedTurn : bool;
  wasStoppedIntentionally : bool;
  practiceAttemptResult : option Attempt.t;
  transcriptRef : string;
  completions : list bool;
  speechLog : list Speech;
  pendingTurnEnd : list TurnEnd;
  pendingAdvance : list Advance
}.

Definition setStep (v : Step) (s : State) : State :=
  {| step := v; selectedScene := selectedScene s; centeredScene := centeredScene s;
     selectedCharacter := selectedCharacter s; script := script s; error := error s;
     currentTurn := currentTurn s; isAiSpeaking := isAiSpeaking s; voices := voices s;
     isRecognitionActive := isRecognitionActive s; recognitionError := recognitionError s;
     mistakes := mistakes s; isAnalyzing := isAnalyzing s; userDialog := userDialog s;
     userTranscript := userTranscript s; practiceWords := practiceWords s;
     currentPracticeWordIndex := currentPracticeWordIndex s; practiceStatus := practiceStatus s;
     practiceTranscript := practiceTranscript s; hasProcessedTurn := hasProcessedTurn s;
     wasStoppedIntentionally := wasStoppedIntentionally s;
     practiceAttemptResult := practiceAttemptResult s; transcriptRef := transcriptRef s;
     completions := completions s; speechLog := speechLog s; pendingTurnEnd := pendingTurnEnd s;
     pendingAdvance := pendingAdvance s |}.

Definition setSelectedScene (v : option string) (s : State) : State :=
  {| step := step s; selectedScene := v; centeredScene := centeredScene s;
     selectedCharacter := selectedCharacter s; script := script s; error := error s;
     currentTurn := currentTurn s; isAiSpeaking := isAiSpeaking s; voices := voices s;
     isRecognitionActive := isRecognitionActive s; recognitionError := recognitionError s;
     mistakes := mistakes s; isAnalyzing := isAnalyzing s; userDialog := userDialog s;
     userTranscript := userTranscript s; practiceWords := practiceWords s;
     currentPracticeWordIndex := currentPracticeWordIndex s; practiceStatus := practiceStatus s;
     practiceTranscript := practiceTranscript s; hasProcessedTurn := hasProcessedTurn s;
     wasStoppedIntentionally := wasStoppedIntentionally s;
     practiceAttemptResult := practiceAttemptResult s; transcriptRef := transcriptRef s;
     completions := completions s; speechLog := speechLog s; pendingTurnEnd := pendingTurnEnd s;
     pendingAdvance := pendingAdvance s |}.

Definition setCenteredScene (v : string) (s : State) : State :=
  {| step := step s; selectedScene := selectedScene s; centeredScene := v;
     selectedCharacter := selectedCharacter s; script := script s; error := error s;
     currentTurn := currentTurn s; isAiSpeaking := isAiSpeaking s; voices := voices s;
     isRecognitionActive := isRecognitionActive s; recognitionError := recognitionError s;
     mistakes := mistakes s; isAnalyzing := isAnalyzing s; userDialog := userDialog s;
     userTranscript := userTranscript s; practiceWords := practiceWords s;
     currentPracticeWordIndex := currentPracticeWordIndex s; practiceStatus := practiceStatus s;
     practiceTranscript := practiceTranscript s; hasProcessedTurn := hasProcessedTurn s;
     wasStoppedIntentionally := wasStoppedIntentionally s;
     practiceAttemptResult := practiceAttemptResult s; transcriptRef := transcriptRef s;
     completions := completions s; speechLog := speechLog s; pendingTurnEnd := pendingTurnEnd s;
     pendingAdvance := pendingAdvance s |}.

Definition setSelectedCharacter (v : option string) (s : State) : State :=
  {| step := step s; selectedScene := selectedScene s; centeredScene := centeredScene s;
     selectedCharacter := v; script := script s; error := error s; currentTurn := currentTurn s;
     isAiSpeaking := isAiSpeaking s; voices := voices s;
     isRecognitionActive := isRecognitionActive s; recognitionError := recognitionError s;
     mistakes := mistakes s; isAnalyzing := isAnalyzing s; userDialog := userDialog s;
     userTranscript := userTranscript s; practiceWords := practiceWords s;
     currentPracticeWordIndex := currentPracticeWordIndex s; practiceStatus := practiceStatus s;
     practiceTranscript := practiceTranscript s; hasProcessedTurn := hasProcessedTurn s;
     wasStoppedIntentionally := wasStoppedIntentionally s;
     practiceAttemptResult := practiceAttemptResult s; transcriptRef := transcriptRef s;
     completions := completions s; speechLog := speechLog s; pendingTurnEnd := pendingTurnEnd s;
     pendingAdvance := pendingAdvance s |}.

Definition setScript (v : list value) (s : State) : State :=
  {| step := step s; selectedScene := selectedScene s; centeredScene := centeredScene s;
     selectedCharacter := selectedCharacter s; script := v; error := error s;
     currentTurn := currentTurn s; isAiSpeaking := isAiSpeaking s; voices := voices s;
     isRecognitionActive := isRecognitionActive s; recognitionError := recognitionError s;
     mistakes := mistakes s; isAnalyzing := isAnalyzing s; userDialog := userDialog s;
     userTranscript := userTranscript s; practiceWords := practiceWords s;
     currentPracticeWordIndex := currentPracticeWordIndex s; practiceStatus := practiceStatus s;
     practiceTranscript := practiceTranscript s; hasProcessedTurn := hasProcessedTurn s;
     wasStoppedIntentionally := wasStoppedIntentionally s;
     practiceAttemptResult := practiceAttemptResult s; transcriptRef := transcriptRef s;
     completions := completions s; speechLog := speechLog s; pendingTurnEnd := pendingTurnEnd s;
     pendingAdvance := pendingAdvance s |}.

Definition setError (v : option string) (s : State) : State :=
  {| step := step s; selectedScene := selectedScene s; centeredScene := centeredScene s;
     selectedCharacter := selectedCharacter s; script := script s; error := v;
     currentTurn := currentTurn s; isAiSpeaking := isAiSpeaking s; voices := voices s;
     isRecognitionActive := isRecognitionActive s; recognitionError := recognitionError s;
     mistakes := mistakes s; isAnalyzing := isAnalyzing s; userDialog := userDialog s;
     userTranscript := userTranscript s; practiceWords := practiceWords s;
     currentPracticeWordIndex := currentPracticeWordIndex s; practiceStatus := practiceStatus s;
     practiceTranscript := practiceTranscript s; hasProcessedTurn := hasProcessedTurn s;
     wasStoppedIntentionally := wasStoppedIntentionally s;
     practiceAttemptResult := practiceAttemptResult s; transcriptRef := transcriptRef s;
     completions := completions s; speechLog := speechLog s; pendingTurnEnd := pendingTurnEnd s;
     pendingAdvance := pendingAdvance s |}.

Definition setCurrentTurn (v : nat) (s : State) : State :=
  {| step := step s; selectedScene := selectedScene s; centeredScene := centeredScene s;
     selectedCharacter := selectedCharacter s; script := script s; error := error s;
     currentTurn := v; isAiSpeaking := isAiSpeaking s; voices := voices s;
     isRecognitionActive := isRecognitionActive s; recognitionError := recognitionError s;
     mistakes := mistakes s; isAnalyzing := isAnalyzing s; userDialog := userDialog s;
     userTranscript := userTranscript s; practiceWords := practiceWords s;
     currentPracticeWordIndex := currentPracticeWordIndex s; practiceStatus := practiceStatus s;
     practiceTranscript := practiceTranscript s; hasProcessedTurn := hasProcessedTurn s;
     wasStoppedIntentionally := wasStoppedIntentionally s;
     practiceAttemptResult := practiceAttemptResult s; transcriptRef := transcriptRef s;
     completions := completions s; speechLog := speechLog s; pendingTurnEnd := pendingTurnEnd s;
     pendingAdvance := pendingAdvance s |}.

Definition setIsAiSpeaking (v : bool) (s : State) : State :=
  {| step := step s; selectedScene := selectedScene s; centeredScene := centeredScene s;
     selectedCharacter := selectedCharacter s; script := script s; error := error s;
     currentTurn := currentTurn s; isAiSpeaking := v; voices := voices s;
     isRecognitionActive := isRecognitionActive s; recognitionError := recognitionError s;
     mistakes := mistakes s; isAnalyzing := isAnalyzing s; userDialog := userDialog s;
     userTranscript := userTranscript s; practiceWords := practiceWords s;
     currentPracticeWordIndex := currentPracticeWordIndex s; practiceStatus := practiceStatus s;
     practiceTranscript := practiceTranscript s; hasProcessedTurn := hasProcessedTurn s;
     wasStoppedIntentionally := wasStoppedIntentionally s;
     practiceAttemptResult := practiceAttemptResult s; transcriptRef := transcriptRef s;
     completions := completions s; speechLog := speechLog s; pendingTurnEnd := pendingTurnEnd s;
     pendingAdvance := pendingAdvance s |}.

Definition setVoices (v : list Voice) (s : State) : State :=
  {| step := step s; selectedScene := selectedScene s; centeredScene := centeredScene s;
     selectedCharacter := selectedCharacter s; script := script s; error := error s;
     currentTurn := currentTurn s; isAiSpeaking := isAiSpeaking s; voices := v;
     isRecognitionActive := isRecognitionActive s; recognitionError := recognitionError s;
     mistakes := mistakes s; isAnalyzing := isAnalyzing s; userDialog := userDialog s;
     userTranscript := userTranscript s; practiceWords := practiceWords s;
     currentPracticeWordIndex := currentPracticeWordIndex s; practiceStatus := practiceStatus s;
     practiceTranscript := practiceTranscript s; hasProcessedTurn := hasProcessedTurn s;
     wasStoppedIntentionally := wasStoppedIntentionally s;
     practiceAttemptResult := practiceAttemptResult s; transcriptRef := transcriptRef s;
     completions := completions s; speechLog := speechLog s; pendingTurnEnd := pendingTurnEnd s;
     pendingAdvance := pendingAdvance s |}.

Definition setIsRecognitionActive (v : bool) (s : State) : State :=
  {| step := step s; selectedScene := selectedScene s; centeredScene := centeredScene s;
     selectedCharacter := selectedCharacter s; script := script s; error := error s;
     currentTurn := currentTurn s; isAiSpeaking := isAiSpeaking s; voices := voices s;
     isRecognitionActive := v; recognitionError := recognitionError s; mistakes := mistakes s;
     isAnalyzing := isAnalyzing s; userDialog := userDialog s; userTranscript := userTranscript s;
     practiceWords := practiceWords s; currentPracticeWordIndex := currentPracticeWordIndex s;
     practiceStatus := practiceStatus s; practiceTranscript := practiceTranscript s;
     hasProcessedTurn := hasProcessedTurn s; wasStoppedIntentionally := wasStoppedIntentionally s;
     practiceAttemptResult := practiceAttemptResult s; transcriptRef := transcriptRef s;
     completions := completions s; speechLog := speechLog s; pendingTurnEnd := pendingTurnEnd s;
     pendingAdvance := pendingAdvance s |}.

Definition setRecognitionError (v : option string) (s : State) : State :=
  {| step := step s; selectedScene := selectedScene s; centeredScene := centeredScene s;
     selectedCharacter := selectedCharacter s; script := script s; error := error s;
     currentTurn := currentTurn s; isAiSpeaking := isAiSpeaking s; voices := voices s;
     isRecognitionActive := isRecognitionActive s; recognitionError := v; mistakes := mistakes s;
     isAnalyzing := isAnalyzing s; userDialog := userDialog s; userTranscript := userTranscript s;
     practiceWords := practiceWords s; currentPracticeWordIndex := currentPracticeWordIndex s;
     practiceStatus := practiceStatus s; practiceTranscript := practiceTranscript s;
     hasProcessedTurn := hasProcessedTurn s; wasStoppedIntentionally := wasStoppedIntentionally s;
     practiceAttemptResult := practiceAttemptResult s; transcriptRef := transcriptRef s;
     completions := completions s; speechLog := speechLog s; pendingTurnEnd := pendingTurnEnd s;
     pendingAdvance := pendingAdvance s |}.

Definition setMistakes (v : list Mistake) (s : State) : State :=
  {| step := step s; selectedScene := selectedScene s; centeredScene := centeredScene s;
     selectedCharacter := selectedCharacter s; script := script s; error := error s;
     currentTurn := currentTurn s; isAiSpeaking := isAiSpeaking s; voices := voices s;
     isRecognitionActive := isRecognitionActive s; recognitionError := recognitionError s;
     mistakes := v; isAnalyzing := isAnalyzing s; userDialog := userDialog s;
     userTranscript := userTranscript s; practiceWords := practiceWords s;
     currentPracticeWordIndex := currentPracticeWordIndex s; practiceStatus := practiceStatus s;
     practiceTranscript := practiceTranscript s; hasProcessedTurn := hasProcessedTurn s;
     wasStoppedIntentionally := wasStoppedIntentionally s;
     practiceAttemptResult := practiceAttemptResult s; transcriptRef := transcriptRef s;
     completions := completions s; speechLog := speechLog s; pendingTurnEnd := pendingTurnEnd s;
     pendingAdvance := pendingAdvance s |}.

Definition setIsAnalyzing (v : bool) (s : State) : State :=
  {| step := step s; selectedScene := selectedScene s; centeredScene := centeredScene s;
     selectedCharacter := selectedCharacter s; script := script s; error := error s;
     currentTurn := currentTurn s; isAiSpeaking := isAiSpeaking s; voices := voices s;
     isRecognitionActive := isRecognitionActive s; recognitionError := recognitionError s;
     mistakes := mistakes s; isAnalyzing := v; userDialog := userDialog s;
     userTranscript := userTranscript s; practiceWords := practiceWords s;
     currentPracticeWordIndex := currentPracticeWordIndex s; practiceStatus := practiceStatus s;
     practiceTranscript := practiceTranscript s; hasProcessedTurn := hasProcessedTurn s;
     wasStoppedIntentionally := wasStoppedIntentionally s;
     practiceAttemptResult := practiceAttemptResult s; transcriptRef := transcriptRef s;
     completions := completions s; speechLog := speechLog s; pendingTurnEnd := pendingTurnEnd s;
     pendingAdvance := pendingAdvance s |}.

Definition setUserDialog (v : list Dialog) (s : State) : State :=
  {| step := step s; selectedScene := selectedScene s; centeredScene := centeredScene s;
     selectedCharacter := selectedCharacter s; script := script s; error := error s;
     currentTurn := currentTurn s; isAiSpeaking := isAiSpeaking s; voices := voices s;
     isRecognitionActive := isRecognitionActive s; recognitionError := recognitionError s;
     mistakes := mistakes s; isAnalyzing := isAnalyzing s; userDialog := v;
     userTranscript := userTranscript s; practiceWords := practiceWords s;
     currentPracticeWordIndex := currentPracticeWordIndex s; practiceStatus := practiceStatus s;
     practiceTranscript := practiceTranscript s; hasProcessedTurn := hasProcessedTurn s;
     wasStoppedIntentionally := wasStoppedIntentionally s;
     practiceAttemptResult := practiceAttemptResult s; transcriptRef := transcriptRef s;
     completions := completions s; speechLog := speechLog s; pendingTurnEnd := pendingTurnEnd s;
     pendingAdvance := pendingAdvance s |}.

Definition setUserTranscript (v : string) (s : State) : State :=
  {| step := step s; selectedScene := selectedScene s; centeredScene := centeredScene s;
     selectedCharacter := selectedCharacter s; script := script s; error := error s;
     currentTurn := currentTurn s; isAiSpeaking := isAiSpeaking s; voices := voices s;
     isRecognitionActive := isRecognitionActive s; recognitionError := recognitionError s;
     mistakes := mistakes s; isAnalyzing := isAnalyzing s; userDialog := userDialog s;
     userTranscript := v; practiceWords := practiceWords s;
     currentPracticeWordIndex := currentPracticeWordIndex s; practiceStatus := practiceStatus s;
     practiceTranscript := practiceTranscript s; hasProcessedTurn := hasProcessedTurn s;
     wasStoppedIntentionally := wasStoppedIntentionally s;
     practiceAttemptResult := practiceAttemptResult s; transcriptRef := transcriptRef s;
     completions := completions s; speechLog := speechLog s; pendingTurnEnd := pendingTurnEnd s;
     pendingAdvance := pendingAdvance s |}.

Definition setPracticeWords (v : list PracticeWord) (s : State) : State :=
  {| step := step s; selectedScene := selectedScene s; centeredScene := centeredScene s;
     selectedCharacter := selectedCharacter s; script := script s; error := error s;
     currentTurn := currentTurn s; isAiSpeaking := isAiSpeaking s; voices := voices s;
     isRecognitionActive := isRecognitionActive s; recognitionError := recognitionError s;
     mistakes := mistakes s; isAnalyzing := isAnalyzing s; userDialog := userDialog s;
     userTranscript := userTranscript s; practiceWords := v;
     currentPracticeWordIndex := currentPracticeWordIndex s; practiceStatus := practiceStatus s;
     practiceTranscript := practiceTranscript s; hasProcessedTurn := hasProcessedTurn s;
     wasStoppedIntentionally := wasStoppedIntentionally s;
     practiceAttemptResult := practiceAttemptResult s; transcriptRef := transcriptRef s;
     completions := completions s; speechLog := speechLog s; pendingTurnEnd := pendingTurnEnd s;
     pendingAdvance := pendingAdvance s |}.

Definition setCurrentPracticeWordIndex (v : nat) (s : State) : State :=
  {| step := step s; selectedScene := selectedScene s; centeredScene := centeredScene s;
     selectedCharacter := selectedCharacter s; script := script s; error := error s;
     currentTurn := currentTurn s; isAiSpeaking := isAiSpeaking s; voices := voices s;
     isRecognitionActive := isRecognitionActive s; recognitionError := recognitionError s;
     mistakes := mistakes s; isAnalyzing := isAnalyzing s; userDialog := userDialog s;
     userTranscript := userTranscript s; practiceWords := practiceWords s;
     currentPracticeWordIndex := v; practiceStatus := practiceStatus s;
     practiceTranscript := practiceTranscript s; hasProcessedTurn := hasProcessedTurn s;
     wasStoppedIntentionally := wasStoppedIntentionally s;
     practiceAttemptResult := practiceAttemptResult s; transcriptRef := transcriptRef s;
     completions := completions s; speechLog := speechLog s; pendingTurnEnd := pendingTurnEnd s;
     pendingAdvance := pendingAdvance s |}.

Definition setPracticeStatus (v : PracticeStatus) (s : State) : State :=
  {| step := step s; selectedScene := selectedScene s; centeredScene := centeredScene s;
     selectedCharacter := selectedCharacter s; script := script s; error := error s;
     currentTurn := currentTurn s; isAiSpeaking := isAiSpeaking s; voices := voices s;
     isRecognitionActive := isRecognitionActive s; recognitionError := recognitionError s;
     mistakes := mistakes s; isAnalyzing := isAnalyzing s; userDialog := userDialog s;
     userTranscript := userTranscript s; practiceWords := practiceWords s;
     currentPracticeWordIndex := currentPracticeWordIndex s; practiceStatus := v;
     practiceTranscript := practiceTranscript s; hasProcessedTurn := hasProcessedTurn s;
     wasStoppedIntentionally := wasStoppedIntentionally s;
     practiceAttemptResult := practiceAttemptResult s; transcriptRef := transcriptRef s;
     completions := completions s; speechLog := speechLog s; pendingTurnEnd := pendingTurnEnd s;
     pendingAdvance := pendingAdvance s |}.

Definition setPracticeTranscript (v : string) (s : State) : State :=
  {| step := step s; selectedScene := selectedScene s; centeredScene := centeredScene s;
     selectedCharacter := selectedCharacter s; script := script s; error := error s;
     currentTurn := currentTurn s; isAiSpeaking := isAiSpeaking s; voices := voices s;
     isRecognitionActive := isRecognitionActive s; recognitionError := recognitionError s;
     mistakes := mistakes s; isAnalyzing := isAnalyzing s; userDialog := userDialog s;
     userTranscript := userTranscript s; practiceWords := practiceWords s;
     currentPracticeWordIndex := currentPracticeWordIndex s; practiceStatus := practiceStatus s;
     practiceTranscript := v; hasProcessedTurn := hasProcessedTurn s;
     wasStoppedIntentionally := wasStoppedIntentionally s;
     practiceAttemptResult := practiceAttemptResult s; transcriptRef := transcriptRef s;
     completions := completions s; speechLog := speechLog s; pendingTurnEnd := pendingTurnEnd s;
     pendingAdvance := pendingAdvance s |}.

Definition assignHasProcessedTurn (v : bool) (s : State) : State :=
  {| step := step s; selectedScene := selectedScene s; centeredScene := centeredScene s;
     selectedCharacter := selectedCharacter s; script := script s; error := error s;
     currentTurn := currentTurn s; isAiSpeaking := isAiSpeaking s; voices := voices s;
     isRecognitionActive := isRecognitionActive s; recognitionError := recognitionError s;
     mistakes := mistakes s; isAnalyzing := isAnalyzing s; userDialog := userDialog s;
     userTranscript := userTranscript s; practiceWords := practiceWords s;
     currentPracticeWordIndex := currentPracticeWordIndex s; practiceStatus := practiceStatus s;
     practiceTranscript := practiceTranscript s; hasProcessedTurn := v;
     wasStoppedIntentionally := wasStoppedIntentionally s;
     practiceAttemptResult := practiceAttemptResult s; transcriptRef := transcriptRef s;
     completions := completions s; speechLog := speechLog s; pendingTurnEnd := pendingTurnEnd s;
     pendingAdvance := pendingAdvance s |}.

Definition assignWasStoppedIntentionally (v : bool) (s : State) : State :=
  {| step := step s; selectedScene := selectedScene s; centeredScene := centeredScene s;
     selectedCharacter := selectedCharacter s; script := script s; error := error s;
     currentTurn := currentTurn s; isAiSpeaking := isAiSpeaking s; voices := voices s;
     isRecognitionActive := isRecognitionActive s; recognitionError := recognitionError s;
     mistakes := mistakes s; isAnalyzing := isAnalyzing s; userDialog := userDialog s;
     userTranscript := userTranscript s; practiceWords := practiceWords s;
     currentPracticeWordIndex := currentPracticeWordIndex s; practiceStatus := practiceStatus s;
     practiceTranscript := practiceTranscript s; hasProcessedTurn := hasProcessedTurn s;
     wasStoppedIntentionally := v; practiceAttemptResult := practiceAttemptResult s;
     transcriptRef := transcriptRef s; completions := completions s; speechLog := speechLog s;
     pendingTurnEnd := pendingTurnEnd s; pendingAdvance := pendingAdvance s |}.

Definition assignPracticeAttemptResult (v : option Attempt.t) (s : State) : State :=
  {| step := step s; selectedScene := selectedScene s; centeredScene := centeredScene s;
     selectedCharacter := selectedCharacter s; script := script s; error := error s;
     currentTurn := currentTurn s; isAiSpeaking := isAiSpeaking s; voices := voices s;
     isRecognitionActive := isRecognitionActive s; recognitionError := recognitionError s;
     mistakes := mistakes s; isAnalyzing := isAnalyzing s; userDialog := userDialog s;
     userTranscript := userTranscript s; practiceWords := practiceWords s;
     currentPracticeWordIndex := currentPracticeWordIndex s; practiceStatus := practiceStatus s;
     practiceTranscript := practiceTranscript s; hasProcessedTurn := hasProcessedTurn s;
     wasStoppedIntentionally := wasStoppedIntentionally s; practiceAttemptResult := v;
     transcriptRef := transcriptRef s; completions := completions s; speechLog := speechLog s;
     pendingTurnEnd := pendingTurnEnd s; pendingAdvance := pendingAdvance s |}.

Definition assignTranscriptRef (v : string) (s : State) : State :=
  {| step := step s; selectedScene := selectedScene s; centeredScene := centeredScene s;
     selectedCharacter := selectedCharacter s; script := script s; error := error s;
     currentTurn := currentTurn s; isAiSpeaking := isAiSpeaking s; voices := voices s;
     isRecognitionActive := isRecognitionActive s; recognitionError := recognitionError s;
     mistakes := mistakes s; isAnalyzing := isAnalyzing s; userDialog := userDialog s;
     userTranscript := userTranscript s; practiceWords := practiceWords s;
     currentPracticeWordIndex := currentPracticeWordIndex s; practiceStatus := practiceStatus s;
     practiceTranscript := practiceTranscript s; hasProcessedTurn := hasProcessedTurn s;
     wasStoppedIntentionally := wasStoppedIntentionally s;
     practiceAttemptResult := practiceAttemptResult s; transcriptRef := v;
     completions := completions s; speechLog := speechLog s; pendingTurnEnd := pendingTurnEnd s;
     pendingAdvance := pendingAdvance s |}.

Definition setCompletions (v : list bool) (s : State) : State :=
  {| step := step s; selectedScene := selectedScene s; centeredScene := centeredScene s;
     selectedCharacter := selectedCharacter s; script := script s; error := error s;
     currentTurn := currentTurn s; isAiSpeaking := isAiSpeaking s; voices := voices s;
     isRecognitionActive := isRecognitionActive s; recognitionError := recognitionError s;
     mistakes := mistakes s; isAnalyzing := isAnalyzing s; userDialog := userDialog s;
     userTranscript := userTranscript s; practiceWords := practiceWords s;
     currentPracticeWordIndex := currentPracticeWordIndex s; practiceStatus := practiceStatus s;
     practiceTranscript := practiceTranscript s; hasProcessedTurn := hasProcessedTurn s;
     wasStoppedIntentionally := wasStoppedIntentionally s;
     practiceAttemptResult := practiceAttemptResult s; transcriptRef := transcriptRef s;
     completions := v; speechLog := speechLog s; pendingTurnEnd := pendingTurnEnd s;
     pendingAdvance := pendingAdvance s |}.

Definition setSpeechLog (v : list Speech) (s : State) : State :=
  {| step := step s; selectedScene := selectedScene s; centeredScene := centeredScene s;
     selectedCharacter := selectedCharacter s; script := script s; error := error s;
     currentTurn := currentTurn s; isAiSpeaking := isAiSpeaking s; voices := voices s;
     isRecognitionActive := isRecognitionActive s; recognitionError := recognitionError s;
     mistakes := mistakes s; isAnalyzing := isAnalyzing s; userDialog := userDialog s;
     userTranscript := userTranscript s; practiceWords := practiceWords s;
     currentPracticeWordIndex := currentPracticeWordIndex s; practiceStatus := practiceStatus s;
     practiceTranscript := practiceTranscript s; hasProcessedTurn := hasProcessedTurn s;
     wasStoppedIntentionally := wasStoppedIntentionally s;
     practiceAttemptResult := practiceAttemptResult s; transcriptRef := transcriptRef s;
     completions := completions s; speechLog := v; pendingTurnEnd := pendingTurnEnd s;
     pendingAdvance := pendingAdvance s |}.

Definition setPendingTurnEnd (v : list TurnEnd) (s : State) : State :=
  {| step := step s; selectedScene := selectedScene s; centeredScene := centeredScene s;
     selectedCharacter := selectedCharacter s; script := script s; error := error s;
     currentTurn := currentTurn s; isAiSpeaking := isAiSpeaking s; voices := voices s;
     isRecognitionActive := isRecognitionActive s; recognitionError := recognitionError s;
     mistakes := mistakes s; isAnalyzing := isAnalyzing s; userDialog := userDialog s;
     userTranscript := userTranscript s; practiceWords := practiceWords s;
     currentPracticeWordIndex := currentPracticeWordIndex s; practiceStatus := practiceStatus s;
     practiceTranscript := practiceTranscript s; hasProcessedTurn := hasProcessedTurn s;
     wasStoppedIntentionally := wasStoppedIntentionally s;
     practiceAttemptResult := practiceAttemptResult s; transcriptRef := transcriptRef s;
     completions := completions s; speechLog := speechLog s; pendingTurnEnd := v;
     pendingAdvance := pendingAdvance s |}.

Definition setPendingAdvance (v : list Advance) (s : State) : State :=
  {| step := step s; selectedScene := selectedScene s; centeredScene := centeredScene s;
     selectedCharacter := selectedCharacter s; script := script s; error := error s;
     currentTurn := currentTurn s; isAiSpeaking := isAiSpeaking s; voices := voices s;
     isRecognitionActive := isRecognitionActive s; recognitionError := recognitionError s;
     mistakes := mistakes s; isAnalyzing := isAnalyzing s; userDialog := userDialog s;
     userTranscript := userTranscript s; practiceWords := practiceWords s;
     currentPracticeWordIndex := currentPracticeWordIndex s; practiceStatus := practiceStatus s;
     practiceTranscript := practiceTranscript s; hasProcessedTurn := hasProcessedTurn s;
     wasStoppedIntentionally := wasStoppedIntentionally s;
     practiceAttemptResult := practiceAttemptResult s; transcriptRef := transcriptRef s;
     completions := completions s; speechLog := speechLog s; pendingTurnEnd := pendingTurnEnd s;
     pendingAdvance := v |}.

(** [onComplete(success)] *)
Definition onComplete (success : bool) (s : State) : State :=
  setCompletions (completions s ++ [success]) s.


(** Truthiness of a [string | null] cell such as [recognitionError]. *)
(** The step of a state built by a few setters. *)
Ltac step_cases :=
  solve [ match goal with s : State |- _ => destruct s end;
          cbn in *; subst; cbn in *; try discriminate; auto ].

Definition isSet (o : option string) : bool :=
  match o with
  | Some m => truthy m
  | None => false
  end.

(** [v === o] for a value [v] and a [string | null] cell [o]. *)
Definition strictEquals (v : value) (o : option string) : bool :=
  match v, o with
  | VStr a, Some b => bool_decide (a = b)
  | VNull, None => true
  | _, _ => false
  end.

(** [a < b - 1] on the numbers [currentTurn] and [script.length]. *)
Definition beforeLast (a b : nat) : bool := Z.of_nat a <? Z.of_nat b - 1.

(** ** Scene and character selection, script generation *)

(** [parsedScript.every(item => 'character' in item && 'line' in item)];
    [None] when [in] throws. *)
Fixpoint everyHasCharacterAndLine (items : list value) : option bool :=
  match items with
  | [] => Some true
  | item :: rest =>
      match hasProperty "character" item with
      | None => None
      | Some false => Some false
      | Some true =>
          match hasProperty "line" item with
          | None => None
          | Some false => Some false
          | Some true => everyHasCharacterAndLine rest
          end
      end
  end.

(** [gradeData.level_progression_hint[(currentLevel - 1) % length]]; [None]
    is [undefined]: the remainder by zero is [NaN], and a negative index
    names no element. *)
Definition levelHintOf (currentLevel : Z) (gradeData : Grade) : option LevelHint :=
  let n := Z.of_nat (length (level_progression_hint gradeData)) in
  if n =? 0 then None
  else
    let internalLevelIndex := Z.rem (currentLevel - 1) n in
    if internalLevelIndex <? 0 then None
    else level_progression_hint gradeData !! Z.to_nat internalLevelIndex.

(** The [try] block of [generateScript] up to the call of the service: the
    request, or what is thrown on the way.  A [null] scene makes
    [TALKERS_CAVE_SCENES[scene].find] throw; an [undefined] level hint makes
    [levelHint.level] throw while the prompt is built. *)
Definition scriptRequest (env : Env) (scene : option string) (character : string)
    : thrown + ai_request :=
  match scene with
  | None => inl (JsError (typeErrorMessage env))
  | Some scene =>
      match List.find (fun c => negb (bool_decide (c = character)))
                      (TALKERS_CAVE_SCENES env scene) with
      | Some (String a r) =>
          let aiCharacter := String a r in
          match List.find (fun g => grade g =? userGrade env) (grades env) with
          | None =>
              inl (JsError ("Guidelines for grade " +:+ pretty (userGrade env)
                            +:+ " not found in orf_content_guidelines.json."))
          | Some gradeData =>
              match levelHintOf (currentLevel env) gradeData with
              | None => inl (JsError (typeErrorMessage env))
              | Some levelHint =>
                  inr (ScriptRequest scene character aiCharacter
                                     (userGrade env) (level levelHint))
              end
          end
      | _ => inl (JsError "Could not determine AI character.")
      end
  end.

Definition invalidScriptFormat : thrown :=
  JsError "Received invalid script format from API. Expected a JSON array of 8 script lines.".

(** The condition of the [if] on the parsed script, and the [throw] of its
    [else] branch. *)
Definition checkScript (env : Env) (parsedScript : value) : Async (list value) :=
  match parsedScript with
  | VArr items =>
      if bool_decide (length items = 8%nat) then
        match everyHasCharacterAndLine items with
        | Some true => ret items
        | Some false => throw invalidScriptFormat
        | None => throw (JsError (typeErrorMessage env))
        end
      else throw invalidScriptFormat
  | _ => throw invalidScriptFormat
  end.

(** The [try] block of [generateScript]. *)
Definition requestScript (env : Env) (scene : option string) (character : string)
    : Async (list value) :=
  match scriptRequest env scene character with
  | inl e => throw e
  | inr req =>
      text <- generateContent req ;;
      checkScript env (extractJson (JSON_parse env) text)
  end.

(** The [catch] block of [generateScript]. *)
Definition scriptFailed (e : thrown) (s : State) : State :=
  let errorMessage :=
    match e with
    | JsError message => message
    | NotAnError => "An unknown error occurred."
    end in
  setStep CHARACTER
    (setError (Some ("Sorry, I couldn't create a script. " +:+ errorMessage
                     +:+ " Please try again.")) s).

Definition generateScript (env : Env) (scene : option string) (character : string)
    (s : State) (ai : AiService) : State * AiService :=
  let s := setStep LOADING_SCRIPT (setError None s) in
  match requestScript env scene character ai with
  | (inr parsedScript, ai') =>
      (setCurrentTurn 0 (setStep GAME (setScript parsedScript s)), ai')
  | (inl e, ai') => (scriptFailed e s, ai')
  end.

Definition handleSceneSelect (scene : string) (s : State) : State :=
  setStep CHARACTER (setSelectedScene (Some scene) s).

Definition handleCharacterSelect (env : Env) (character : string)
    (s : State) (ai : AiService) : State * AiService :=
  let s := setSelectedCharacter (Some character) (setUserDialog [] (setMistakes [] s)) in
  generateScript env (selectedScene s) character s ai.

Definition handleBackToScenes (s : State) : State :=
  setCenteredScene "Shopkeeper and Customer"
    (setSelectedScene None (setSelectedCharacter None (setStep SCENE s))).

(** ** The game: speech synthesis and the AI turns *)

(** [hay.includes(needle)] *)
Definition includes (needle hay : string) : bool :=
  bool_decide (is_Some (String.index 0 needle hay)).

Definition firstOr {A : Type} (a b : option A) : option A :=
  match a with
  | Some x => Some x
  | None => b
  end.

(** The voice [speak] and [pronounceWord] give to the utterance; [None] when
    they leave the default voice. *)
Definition chooseVoice (env : Env) (vs : list Voice) : option Voice :=
  let voiceLang := if bool_decide (language env = "hi") then "hi-IN" else "en-IN" in
  let preferredVoice :=
    firstOr
      (List.find (fun v => bool_decide (lang v = voiceLang) && includes "Google" (name v)) vs)
      (List.find (fun v => bool_decide (lang v = voiceLang)) vs) in
  match preferredVoice with
  | Some v => Some v
  | None =>
      firstOr (List.find (fun v => String.prefix (language env) (lang v)) vs)
              (List.find (fun v => String.prefix "en" (lang v)) vs)
  end.

(** [!window.speechSynthesis || voices.length === 0] *)
Definition cannotSpeak (env : Env) (s : State) : bool :=
  negb (hasSpeechSynthesis env) || bool_decide (voices s = []).

(** [text.length * 50] for the value [speak] is given as its text; [None]
    is the [TypeError] of reading [length] of [null] or [undefined]. *)
Definition silentDelay (text : value) : option Delay :=
  match text with
  | VUndefined | VNull => None
  | VStr t => Some (Millis (Z.of_nat (String.length t) * 50))
  | VArr items => Some (Millis (Z.of_nat (length items) * 50))
  | VBool _ | VNum _ => Some NotANumber
  | VObj fields =>
      match assocLookup "length" fields with
      | Some l => Some (FiftyTimes l)
      | None => Some NotANumber
      end
  end.

(** [speak(text, onEndCallback)], where the callback is the closure
    [handleAiTurnEnd] of the turn [currentTurn] of a script of [scriptLength]
    lines.  Without synthesis or voices it only starts the timer; when
    [text.length] throws there, nothing is started and the callback is
    lost. *)
Definition speak (env : Env) (text : value) (capturedTurn scriptLength : nat)
    (s : State) : State :=
  if cannotSpeak env s then
    match silentDelay text with
    | None => s
    | Some delay =>
        setPendingTurnEnd
          (pendingTurnEnd s ++ [{| turnEnd_currentTurn := capturedTurn;
                                   turnEnd_scriptLength := scriptLength;
                                   turnEnd_utterance := false |}])
          (setSpeechLog (speechLog s ++ [SilentTimer text delay]) s)
    end
  else
    setPendingTurnEnd
      (pendingTurnEnd s ++ [{| turnEnd_currentTurn := capturedTurn;
                               turnEnd_scriptLength := scriptLength;
                               turnEnd_utterance := true |}])
      (setSpeechLog (speechLog s ++ [Utterance text (chooseVoice env (voices s))]) s).

(** [pronounceWord(text)] *)
Definition pronounceWord (env : Env) (text : string) (s : State) : State :=
  if cannotSpeak env s then s
  else setSpeechLog (speechLog s ++ [Utterance (VStr text) (chooseVoice env (voices s))]) s.

(** [handleAiTurnEnd], with the [currentTurn] and [script.length] it closed
    over. *)
Definition handleAiTurnEnd (capturedTurn scriptLength : nat) (s : State) : State :=
  if beforeLast capturedTurn scriptLength
  then setCurrentTurn (currentTurn s + 1)%nat s
  else setStep ANALYZING_PERFORMANCE s.

(** The line the turn effect works on: [None] when the effect returns at
    its guard. *)
Definition currentLineOfGame (s : State) : option value :=
  match step s with
  | GAME =>
      if bool_decide (script s = []) || isSet (recognitionError s) || isAiSpeaking s
      then None
      else script s !! currentTurn s
  | _ => None
  end.

(** The effect on [step], [script], [currentTurn], ... at the moment its
    700 ms timeout fires: on a turn of the AI it calls
    [speak(currentLine.line, handleAiTurnEnd)]; on a turn of the user it
    does nothing.  Reading [character] or [line] of a [null] item throws and
    leaves the state as it is. *)
Definition aiTurnEffect (env : Env) (s : State) : State :=
  match currentLineOfGame s with
  | None => s
  | Some currentLine =>
      match getProperty "character" currentLine, getProperty "line" currentLine with
      | Some character, Some line =>
          let isUserTurn := strictEquals character (selectedCharacter s) in
          if isUserTurn then s
          else speak env line (currentTurn s) (length (script s)) s
      | _, _ => s
      end
  end.

(** [utterance.onstart] *)
Definition utteranceStarted (s : State) : State := setIsAiSpeaking true s.

(** The end of what a call of [speak] started: [utterance.onend] or
    [utterance.onerror], or the timer of the silent branch.  The calls that
    have not ended yet may end in any order; [i] says which of them does,
    counted from the oldest.  Only the end of an utterance clears
    [isAiSpeaking]. *)
Definition speechEnded (i : nat) (s : State) : State :=
  match pendingTurnEnd s !! i with
  | None => s
  | Some k =>
      let s := setPendingTurnEnd (delete i (pendingTurnEnd s)) s in
      let s := if turnEnd_utterance k then setIsAiSpeaking false s else s in
      handleAiTurnEnd (turnEnd_currentTurn k) (turnEnd_scriptLength k) s
  end.

(** ** The game: speech recognition and the turns of the user *)

(** How a handler ends: normally, or by an exception nobody catches (the
    state changes made before it stay). *)
Inductive completion : Type :=
| Normal (s : State)
| Abrupt (s : State).

Definition processUserTurn (transcript : string) (s : State) : completion :=
  if hasProcessedTurn s then Normal s
  else
    let s := assignHasProcessedTurn true s in
    match script s !! currentTurn s ≫= getProperty "line" with
    | None => Abrupt s
    | Some targetLine =>
        let s := setUserDialog (userDialog s ++ [{| target := targetLine; said := transcript |}]) s in
        if beforeLast (currentTurn s) (length (script s))
        then Normal (setCurrentTurn (currentTurn s + 1)%nat s)
        else Normal (setStep ANALYZING_PERFORMANCE s)
    end.

(** The double-quote character, and the message of the template
    [`Mic error: ...`], which puts the error type between two of them. *)
Definition doubleQuote : string := String (Ascii.ascii_of_N 34) EmptyString.

Definition micError (errorType : string) : string :=
  "Mic error: " +:+ doubleQuote +:+ errorType +:+ doubleQuote +:+ ".".

Definition handleStart (s : State) : State :=
  setIsRecognitionActive true (setUserTranscript "" (assignTranscriptRef "" s)).

(** [handleResult]; [transcripts] are the [result[0].transcript] of the
    results of the event, in order. *)
Definition handleResult (transcripts : list string) (s : State) : State :=
  if hasProcessedTurn s then s
  else
    let fullTranscript := String.concat "" transcripts in
    setUserTranscript fullTranscript (assignTranscriptRef fullTranscript s).

Definition handleEnd (s : State) : State :=
  let s := setIsRecognitionActive false s in
  if wasStoppedIntentionally s && negb (hasProcessedTurn s) then
    match processUserTurn (trim (transcriptRef s)) s with
    | Normal s' => assignWasStoppedIntentionally false s'
    | Abrupt s' => s'
    end
  else assignWasStoppedIntentionally false s.

Definition handleError (errorType : string) (s : State) : State :=
  if bool_decide (errorType ∈ ["aborted"; "no-speech"]) then s
  else if bool_decide (errorType = "not-allowed") || bool_decide (errorType = "service-not-allowed")
  then setRecognitionError (Some "Microphone access denied.") s
  else setRecognitionError (Some (micError errorType)) s.

(** [recognizer.start()] can throw: an [InvalidStateError] when recognition
    already runs, or something else. *)
Inductive startOutcome : Type :=
| Started
| InvalidStateError
| StartFailed.

Definition startRecognition (env : Env) (outcome : startOutcome) (s : State) : State :=
  if negb (hasSpeechRecognition env) || isRecognitionActive s then s
  else
    let s := setRecognitionError None
               (assignWasStoppedIntentionally false (assignHasProcessedTurn false s)) in
    match outcome with
    | Started | InvalidStateError => s
    | StartFailed => setRecognitionError (Some "Failed to start microphone.") s
    end.

Definition handleMicButtonClick (env : Env) (outcome : startOutcome) (s : State) : State :=
  if isRecognitionActive s then assignWasStoppedIntentionally true s
  else startRecognition env outcome s.

(** ** Performance analysis *)

(** [new Set(xs)] adds the elements one by one and keeps the order of
    first insertion; [[...set]] lists them in that order. *)
Definition setAdd (seen : list string) (x : string) : list string :=
  if bool_decide (x ∈ seen) then seen else seen ++ [x].

Definition uniqueValues (xs : list string) : list string :=
  fold_left setAdd xs [].

(** The [for] loop of [analyzeAllDialog] over [userDialog]. *)
Fixpoint analyzeTurns (env : Env) (dialogs : list Dialog)
    (allIncorrectWords : list string) : Async (list string) :=
  match dialogs with
  | [] => ret allIncorrectWords
  | dialog :: rest =>
      turnIncorrectWords <- analyzeReadingWithAI env (said dialog) (target dialog) ;;
      analyzeTurns env rest (allIncorrectWords ++ turnIncorrectWords)
  end.

(** [analyzeAllDialog]; when a call of [analyzeReadingWithAI] rejects, the
    function stops there and nothing after the loop runs. *)
Definition analyzeAllDialog (env : Env) (s : State) (ai : AiService) : State * AiService :=
  let s := setIsAnalyzing true s in
  match analyzeTurns env (userDialog s) [] ai with
  | (inl _, ai') => (s, ai')
  | (inr allIncorrectWords, ai') =>
      let allMistakes :=
        (fun w => {| mistake_said := EmptyString; expected := w |})
          <$> uniqueValues allIncorrectWords in
      let s := setIsAnalyzing false (setMistakes allMistakes s) in
      (setStep (if bool_decide (allMistakes = []) then COMPLETE else PRACTICE_PREP) s, ai')
  end.

(** ** Practice *)

(** The [for] loop of [preparePractice] over [wordsToPractice]. *)
Fixpoint phoneticBreakdowns (env : Env) (wordsToPractice : list string)
    (phoneticData : list PracticeWord) : Async (list PracticeWord) :=
  match wordsToPractice with
  | [] => ret phoneticData
  | w :: rest =>
      ph <- getPhoneticBreakdown env w ;;
      phoneticBreakdowns env rest (phoneticData ++ [{| word := w; phonemes := ph |}])
  end.

Definition preparePractice (env : Env) (s : State) (ai : AiService) : State * AiService :=
  let wordsToPractice := uniqueValues (filter truthy (expected <$> mistakes s)) in
  if bool_decide (wordsToPractice = []) then (onComplete true s, ai)
  else
    match phoneticBreakdowns env wordsToPractice [] ai with
    | (inl _, ai') => (s, ai')
    | (inr phoneticData, ai') =>
        (setStep PRACTICE
           (setPracticeTranscript EmptyString
              (setPracticeStatus IDLE
                 (setCurrentPracticeWordIndex 0%nat
                    (setPracticeWords
                       (filter (fun p => (0 < length (phonemes p))%nat) phoneticData) s)))),
         ai')
    end.

(** The handler of [onresult] of the practice recognizer; [heard] is
    [event.results?.[0]?.[0]?.transcript], [None] when the chain stops at
    an [undefined]. *)
Definition practiceResultHandler (heard : option string) (s : State) : State :=
  match trim <$> heard with
  | Some (String c r) =>
      let transcript := String c r in
      let s := setPracticeTranscript transcript s in
      match practiceWords s !! currentPracticeWordIndex s with
      | Some practiceItem =>
          if bool_decide (cleanWord transcript = cleanWord (word practiceItem))
          then assignPracticeAttemptResult (Some Attempt.SUCCESS) s
          else assignPracticeAttemptResult (Some Attempt.TRY_AGAIN) s
      | None => s
      end
  | _ => assignPracticeAttemptResult (Some Attempt.NO_RESULT) s
  end.

Definition practiceErrorHandler (errorType : string) (s : State) : State :=
  let s :=
    if negb (bool_decide (errorType = "no-speech")) && negb (bool_decide (errorType = "aborted"))
    then setRecognitionError (Some (micError errorType)) s
    else s in
  assignPracticeAttemptResult (Some Attempt.NO_RESULT) s.

(** The handler of [onend] of the practice recognizer.  On success it starts
    the 1500 ms timer, whose callback is kept in [pendingAdvance]. *)
Definition practiceEndHandler (s : State) : State :=
  let s' :=
    match practiceAttemptResult s with
    | Some Attempt.SUCCESS =>
        setPendingAdvance
          (pendingAdvance s ++ [{| advance_index := currentPracticeWordIndex s;
                                   advance_length := length (practiceWords s) |}])
          (setPracticeStatus SUCCESS s)
    | Some Attempt.TRY_AGAIN => setPracticeStatus TRY_AGAIN s
    | _ => setPracticeStatus IDLE s
    end in
  assignPracticeAttemptResult None s'.

(** The callback of that timer. *)
Definition practiceAdvance (k : Advance) (s : State) : State :=
  if beforeLast (advance_index k) (advance_length k) then
    setPracticeTranscript EmptyString
      (setPracticeStatus IDLE
         (setCurrentPracticeWordIndex (currentPracticeWordIndex s + 1)%nat s))
  else onComplete true s.

Definition practiceTimerFired (s : State) : State :=
  match pendingAdvance s with
  | [] => s
  | k :: rest => practiceAdvance k (setPendingAdvance rest s)
  end.

Definition handlePracticeMicClick (env : Env) (outcome : startOutcome) (s : State) : State :=
  if negb (hasSpeechRecognition env) then s
  else
    match practiceStatus s with
    | LISTENING | SUCCESS => s
    | IDLE | TRY_AGAIN =>
        let s := setPracticeStatus LISTENING
                   (setPracticeTranscript EmptyString (assignPracticeAttemptResult None s)) in
        match outcome with
        | Started => s
        | InvalidStateError | StartFailed =>
            setPracticeStatus IDLE
              (setRecognitionError (Some "Mic failed to start. Please try again.") s)
        end
    end.

(** ** The session: mounting and events *)

#[global] Instance Step_eq_dec : EqDecision Step.
Proof. solve_decision. Defined.

#[global] Instance PracticeStatus_eq_dec : EqDecision PracticeStatus.
Proof. solve_decision. Defined.

(** The state after the first render and its effects: the initial values of
    the cells, and the message of the effect on [speechRecognizer] when the
    browser has no recognition.  The voices arrive with [VoicesChanged]. *)
Definition mount (env : Env) : State :=
  {| step := SCENE; selectedScene := None; centeredScene := "Shopkeeper and Customer";
     selectedCharacter := None; script := []; error := None; currentTurn := 0%nat;
     isAiSpeaking := false; voices := []; isRecognitionActive := false;
     recognitionError :=
       if hasSpeechRecognition env then None
       else Some "Speech recognition is not supported in this browser. Try Chrome or Edge.";
     mistakes := []; isAnalyzing := false; userDialog := []; userTranscript := EmptyString;
     practiceWords := []; currentPracticeWordIndex := 0%nat; practiceStatus := IDLE;
     practiceTranscript := EmptyString; hasProcessedTurn := false;
     wasStoppedIntentionally := false; practiceAttemptResult := None;
     transcriptRef := EmptyString; completions := []; speechLog := [];
     pendingTurnEnd := []; pendingAdvance := [] |}.

(** What can happen to a mounted component: the clicks its render offers,
    the callbacks of the browser, and the runs of its effects. *)
Inductive event : Type :=
| SceneHover (scene : string)
| SceneSelect (scene : string)
| CharacterSelect (character : string)
| BackToScenes
| VoicesChanged (vs : list Voice)
| AiTurnTimeout
| UtteranceStart
| SpeechEnd (i : nat)
| MicButtonClick (outcome : startOutcome)
| RecognitionStart
| RecognitionResult (transcripts : list string)
| RecognitionEnd
| RecognitionError (errorType : string)
| AnalysisEffect
| PracticePrepEffect
| PracticeMicClick (outcome : startOutcome)
| PracticeResult (heard : option string)
| PracticeError (errorType : string)
| PracticeEnd
| PracticeTimer
| PronounceWord (text : string)
| Finish.

(** The microphone button of the game is rendered on a turn of the user
    when no recognition error is shown, and is disabled while the AI
    speaks. *)
Definition micButtonEnabled (s : State) : bool :=
  match step s, script s !! currentTurn s ≫= getProperty "character" with
  | GAME, Some character =>
      negb (bool_decide (script s = [])) && isSet (selectedCharacter s)
      && isSet (selectedScene s) && negb (isSet (recognitionError s))
      && strictEquals character (selectedCharacter s) && negb (isAiSpeaking s)
  | _, _ => false
  end.

(** [renderContent] gets as far as the bottom bar of the game screen: the
    step is [GAME], the script, the character and the scene are there, and
    reading [currentLine.character] does not throw. *)
Definition gameScreenRendered (s : State) : bool :=
  match step s, script s !! currentTurn s ≫= getProperty "character" with
  | GAME, Some _ =>
      negb (bool_decide (script s = [])) && isSet (selectedCharacter s)
      && isSet (selectedScene s)
  | _, _ => false
  end.

(** The recognition error the user sees.  Only the bottom bar of the game
    screen reads [recognitionError]; no other screen, the practice screen
    included, shows it. *)
Definition shownRecognitionError (s : State) : option string :=
  if gameScreenRendered s && isSet (recognitionError s) then recognitionError s else None.

(** The handlers of the game recognizer are installed by an effect that
    runs only while [step] is [GAME]. *)
Definition gameRecognizerListens (env : Env) (s : State) : bool :=
  hasSpeechRecognition env && bool_decide (step s = GAME).

(** The practice screen shows a word (and its buttons) when the index names
    one. *)
Definition practiceItemShown (s : State) : option PracticeWord :=
  match step s with
  | PRACTICE => practiceWords s !! currentPracticeWordIndex s
  | _ => None
  end.

(** That effect, when a render has changed [step] to [GAME], starts with a
    fresh [transcriptRef]. *)
Definition recognitionEffect (env : Env) (before after : State) : State :=
  if hasSpeechRecognition env && bool_decide (step after = GAME)
     && negb (bool_decide (step before = GAME))
  then assignTranscriptRef EmptyString after
  else after.

Definition handle (env : Env) (e : event) (s : State) (ai : AiService) : State * AiService :=
  match e with
  | SceneHover scene =>
      (if bool_decide (step s = SCENE) then setCenteredScene scene s else s, ai)
  | SceneSelect scene =>
      (if bool_decide (step s = SCENE) then handleSceneSelect scene s else s, ai)
  | CharacterSelect character =>
      match step s, selectedScene s with
      | CHARACTER, Some scene =>
          if bool_decide (character ∈ TALKERS_CAVE_SCENES env scene)
          then handleCharacterSelect env character s ai
          else (s, ai)
      | _, _ => (s, ai)
      end
  | BackToScenes =>
      (if bool_decide (step s = CHARACTER) then handleBackToScenes s else s, ai)
  | VoicesChanged vs =>
      (if hasSpeechSynthesis env then setVoices vs s else s, ai)
  | AiTurnTimeout => (aiTurnEffect env s, ai)
  | UtteranceStart => (utteranceStarted s, ai)
  | SpeechEnd i => (speechEnded i s, ai)
  | MicButtonClick outcome =>
      (if micButtonEnabled s then handleMicButtonClick env outcome s else s, ai)
  | RecognitionStart =>
      (if gameRecognizerListens env s then handleStart s else s, ai)
  | RecognitionResult transcripts =>
      (if gameRecognizerListens env s then handleResult transcripts s else s, ai)
  | RecognitionEnd =>
      (if gameRecognizerListens env s then handleEnd s else s, ai)
  | RecognitionError errorType =>
      (if gameRecognizerListens env s then handleError errorType s else s, ai)
  | AnalysisEffect =>
      if bool_decide (step s = ANALYZING_PERFORMANCE) then analyzeAllDialog env s ai
      else (s, ai)
  | PracticePrepEffect =>
      if bool_decide (step s = PRACTICE_PREP) then preparePractice env s ai
      else (s, ai)
  | PracticeMicClick outcome =>
      (if bool_decide (is_Some (practiceItemShown s))
       then handlePracticeMicClick env outcome s else s, ai)
  | PracticeResult heard =>
      (if hasSpeechRecognition env then practiceResultHandler heard s else s, ai)
  | PracticeError errorType =>
      (if hasSpeechRecognition env then practiceErrorHandler errorType s else s, ai)
  | PracticeEnd =>
      (if hasSpeechRecognition env then practiceEndHandler s else s, ai)
  | PracticeTimer => (practiceTimerFired s, ai)
  | PronounceWord text =>
      (match practiceItemShown s with
       | Some practiceItem =>
           if bool_decide (text ∈ phonemes practiceItem) then pronounceWord env text s else s
       | None => s
       end, ai)
  | Finish =>
      (match step s with
       | PRACTICE | COMPLETE => onComplete true s
       | _ => s
       end, ai)
  end.

(** One event: its handler, then the effects of the render it causes. *)
Definition dispatch (env : Env) (e : event) (st : State * AiService) : State * AiService :=
  let '(s', ai') := handle env e st.1 st.2 in
  (recognitionEffect env st.1 s', ai').

(** A session: events in the order they happen. *)
Definition run (env : Env) (es : list event) (st : State * AiService) : State * AiService :=
  fold_left (fun st e => dispatch env e st) es st.

(** * The notions of the statements *)

(** An item of a well-formed script: an object with a [character] and a
    [line] property. *)
Definition isScriptLine (item : value) : Prop :=
  exists fields,
    item = VObj fields /\ is_Some (assocLookup "character" fields)
    /\ is_Some (assocLookup "line" fields).

(** A parsed reply that [generateScript] accepts. *)
Definition validScript (parsed : value) (items : list value) : Prop :=
  parsed = VArr items /\ length items = 8%nat /\ Forall isScriptLine items.

(** What the [catch] block of [generateScript] leaves behind. *)
Definition scriptErrorShown (s : State) : Prop :=
  exists errorMessage,
    error s = Some ("Sorry, I couldn't create a script. " +:+ errorMessage
                    +:+ " Please try again.")
    /\ step s = CHARACTER.

(** The reply to the next call of the service is no well-formed script:
    the call throws, or its text does not parse to one. *)
Definition noValidScriptNext (env : Env) (ai : AiService) : Prop :=
  forall text items,
    replyOf ai (length (calls ai)) = AiResponds text ->
    ~ validScript (extractJson (JSON_parse env) text) items.

(** The reply to the next call of the service is no array of strings: the
    call throws, or its text does not parse to one. *)
Definition noStringArrayNext (env : Env) (ai : AiService) : Prop :=
  forall text,
    replyOf ai (length (calls ai)) = AiResponds text ->
    arrayOfStrings (extractJson (JSON_parse env) text) = None.




(** Every character of the string passes the test. *)
Fixpoint allChars (test : ascii -> bool) (s : string) : bool :=
  match s with
  | EmptyString => true
  | String c r => test c && allChars test r
  end.

(** The comparison the practice makes, worded without [cleanWord]. *)









(** What the analysis flags, worded without [analyzeTurns]. *)

(** The turns on which something was said. *)
Definition spokenTurns (dialogs : list Dialog) : list Dialog :=
  filter (fun d => truthy (trim (said d))) dialogs.

(** A word of the target line of a turn on which nothing was said. *)
Definition flaggedBySilence (d : Dialog) (w : string) : Prop :=
  truthy (trim (said d)) = false
  /\ exists t, target d = VStr t /\ w ∈ split " " t /\ w <> EmptyString.

(** A word of the array of strings that the service returns to the call
    with number [n]. *)
Definition flaggedByReply (env : Env) (ai : AiService) (n : nat) (w : string) : Prop :=
  exists text ws,
    replyOf ai n = AiResponds text
    /\ arrayOfStrings (extractJson (JSON_parse env) text) = Some ws
    /\ w ∈ ws.

(** A word flagged in some turn: on a silent turn every word of the line;
    on the [j]-th turn on which something was said, what the service answers
    to the [j]-th call of the analysis. *)
Definition flaggedInSomeTurn (env : Env) (ai : AiService) (dialogs : list Dialog)
    (w : string) : Prop :=
  (exists d, d ∈ dialogs /\ flaggedBySilence d w)
  \/ (exists j d, spokenTurns dialogs !! j = Some d
                  /\ flaggedByReply env ai (length (calls ai) + j) w).

(** The service answers the call with number [n] with an empty array. *)
Definition emptyBreakdown (env : Env) (ai : AiService) (n : nat) : Prop :=
  exists text,
    replyOf ai n = AiResponds text
    /\ arrayOfStrings (extractJson (JSON_parse env) text) = Some [].

(** The steps after the game: the game screen is not shown again. *)
Definition afterGame (st : Step) : bool :=
  match st with
  | ANALYZING_PERFORMANCE | PRACTICE_PREP | PRACTICE | COMPLETE => true
  | SCENE | CHARACTER | LOADING_SCRIPT | GAME => false
  end.


(** How often [w] occurs in [ws]. *)
Definition occurrences (w : string) (ws : list string) : nat :=
  length (filter (fun x => x = w) ws).




(** The error types both recognizers pass over. *)
Definition isTransient (errorType : string) : Prop :=
  errorType = "no-speech" \/ errorType = "aborted".

(** The message the game recognizer shows for another error type. *)
Definition gameErrorMessage (errorType : string) : string :=
  if bool_decide (errorType = "not-allowed" \/ errorType = "service-not-allowed")
  then "Microphone access denied."
  else micError errorType.

(** The game stands on a line of the script: the effect on the turn is past
    its guard, no recognition runs and no callback of [speak] is pending. *)
Definition standsOnLine (s : State) (character line : value) : Prop :=
  step s = GAME
  /\ isSet (recognitionError s) = false
  /\ isAiSpeaking s = false
  /\ isRecognitionActive s = false
  /\ pendingTurnEnd s = []
  /\ exists item,
       script s !! currentTurn s = Some item
       /\ getProperty "character" item = Some character
       /\ getProperty "line" item = Some line.

(** A turn of the AI that runs undisturbed: the timeout of the effect
    fires, the utterance starts (when there is one), and what [speak] started
    comes to its end before anything else happens. *)
Definition aiTurn (env : Env) (s : State) : State :=
  let spoken := aiTurnEffect env s in
  speechEnded 0 (if cannotSpeak env s then spoken else utteranceStarted spoken).


(** How a completed turn leaves the turn counter and the step: one turn
    further, or, after the last line, on to the analysis. *)
Definition advanced (s s' : State) : Prop :=
  if beforeLast (currentTurn s) (length (script s))
  then currentTurn s' = (currentTurn s + 1)%nat /\ step s' = GAME
  else currentTurn s' = currentTurn s /\ step s' = ANALYZING_PERFORMANCE.

(** An event other than the choice of a character. *)
Definition keepsGeneration (e : event) : Prop :=
  forall character, e <> CharacterSelect character.

(** The steps from the game on. *)
Definition fromGameOn (st : Step) : bool :=
  match st with
  | SCENE | CHARACTER | LOADING_SCRIPT => false
  | GAME | ANALYZING_PERFORMANCE | PRACTICE_PREP | PRACTICE | COMPLETE => true
  end.

(** The transcript is empty or consists of white space only. *)
Fixpoint whiteSpaceOnly (s : string) : bool :=
  match s with
  | EmptyString => true
  | String c r => isWhiteSpace c && whiteSpaceOnly r
  end.

(** The words of a line as the specification words them: the maximal runs
    of characters that are not white space ([String.words] of stdpp). *)
Definition whiteSpaceSeparatedWords (line : string) : list string :=
  String.words line.

(** The only white space of the line is the space character. *)
Fixpoint spaceIsOnlyWhiteSpace (line : string) : bool :=
  match line with
  | EmptyString => true
  | String c r => (negb (isWhiteSpace c) || Ascii.eqb c " ") && spaceIsOnlyWhiteSpace r
  end.

Definition hasPhonemes (p : PracticeWord) : Prop := phonemes p <> [].

(** * A concrete setting

    One shop scene with two characters, one grade with two level hints, an
    eight-line script, and a [JSON.parse] that knows the two texts the
    examples below let the service answer with. *)

Definition jsonString (s : string) : string := doubleQuote +:+ s +:+ doubleQuote.

Definition jsonLine (character line : string) : string :=
  "{" +:+ jsonString "character" +:+ ": " +:+ jsonString character +:+ ", "
      +:+ jsonString "line" +:+ ": " +:+ jsonString line +:+ "}".

Definition scriptLine (character line : string) : value :=
  VObj [("character", VStr character); ("line", VStr line)].

Definition demoLines : list (string * string) :=
  [("Shopkeeper", "Good morning! How can I help you?");
   ("Customer", "I want some apples please.");
   ("Shopkeeper", "How many apples do you want?");
   ("Customer", "Six apples please.");
   ("Shopkeeper", "Here you are. Anything else?");
   ("Customer", "No, thank you.");
   ("Shopkeeper", "That is ten rupees.");
   ("Customer", "Here is the money. Goodbye!")].

Definition demoScript : list value := (fun cl => scriptLine cl.1 cl.2) <$> demoLines.

Definition demoScriptJson : string :=
  "[" +:+ String.concat ", " ((fun cl => jsonLine cl.1 cl.2) <$> demoLines) +:+ "]".

Definition demoPhonemesJson : string :=
  "[" +:+ jsonString "ah" +:+ ", " +:+ jsonString "pulz" +:+ "]".

Definition demoParse (text : string) : option value :=
  if bool_decide (text = demoScriptJson) then Some (VArr demoScript)
  else if bool_decide (text = demoPhonemesJson) then Some (VArr [VStr "ah"; VStr "pulz"])
  else if bool_decide (text = "[]") then Some (VArr [])
  else None.

Definition demoEnv : Env :=
  {| JSON_parse := demoParse;
     typeErrorMessage := "Cannot read properties of undefined";
     TALKERS_CAVE_SCENES := fun scene =>
       if bool_decide (scene = "Shopkeeper and Customer") then ["Shopkeeper"; "Customer"] else [];
     grades := [{| grade := 1;
                   level_progression_hint :=
                     [{| level := 1; target_word_count := 12; sentence_types_hint := ["simple"] |};
                      {| level := 2; target_word_count := 16; sentence_types_hint := ["simple"] |}] |}];
     userGrade := 1;
     currentLevel := 1;
     language := "en";
     hasSpeechSynthesis := true;
     hasSpeechRecognition := true |}.

(** The same browser without speech synthesis. *)
Definition muteEnv : Env :=
  {| JSON_parse := demoParse;
     typeErrorMessage := typeErrorMessage demoEnv;
     TALKERS_CAVE_SCENES := TALKERS_CAVE_SCENES demoEnv;
     grades := grades demoEnv;
     userGrade := 1;
     currentLevel := 1;
     language := "en";
     hasSpeechSynthesis := false;
     hasSpeechRecognition := true |}.

(** A service that answers every call with the same reply. *)
Definition constantService (reply : ai_reply) : AiService :=
  {| replyOf := fun _ => reply; calls := [] |}.

(** The service whose every call fails (no network, say). *)
Definition failingService : AiService :=
  constantService (AiThrows (JsError "Failed to fetch")).

(** The service that answers with the demo script inside a code fence. *)
Definition scriptService : AiService :=
  constantService
    (AiResponds (Some ("```json" +:+ String (Ascii.ascii_of_N 10) demoScriptJson
                       +:+ String (Ascii.ascii_of_N 10) "```"))).

(** The state once the scene is chosen. *)
Definition sceneChosen : State :=
  handleSceneSelect "Shopkeeper and Customer" (mount demoEnv).

(** The state of the game on the demo script, the user playing the
    customer, one Google voice loaded. *)
Definition demoVoice : Voice := {| lang := "en-IN"; name := "Google English (India)" |}.

Definition demoGame : State :=
  setVoices [demoVoice]
    (setCurrentTurn 0%nat
       (setStep GAME
          (setScript demoScript
             (setSelectedCharacter (Some "Customer") sceneChosen)))).

(** The game has been played on the demo script and the analysis is about
    to run; the user left out a word of the second line. *)
Definition demoAnalysing : State :=
  setStep ANALYZING_PERFORMANCE
    (setCurrentTurn 7%nat
       (setUserDialog
          [{| target := VStr "I want some apples please."; said := "I want some please" |}]
          demoGame)).

(** The practice screen on two words, the first with an apostrophe. *)
Definition demoPractice : State :=
  setStep PRACTICE
    (setPracticeWords
       [{| word := "it's"; phonemes := ["its"] |};
        {| word := "apples"; phonemes := ["ah"; "pulz"] |}]
       (setMistakes
          [{| mistake_said := EmptyString; expected := "it's" |};
           {| mistake_said := EmptyString; expected := "apples" |}]
          demoAnalysing)).

(** The user said nothing on two turns; both lines end in [apples please.]. *)
Definition demoTwoSilentTurns : State :=
  setUserDialog
    [{| target := VStr "I want some apples please."; said := EmptyString |};
     {| target := VStr "Six apples please."; said := "  " |}]
    demoAnalysing.

(** A line of two sentences on two lines. *)
Definition twoLines : string :=
  "Good morning!" +:+ String (Ascii.ascii_of_N 10) "Welcome.".

(** A whole session on the demo script: the user reads the first, third
    and fourth line and says nothing on the second.  The service answers
    the script request with the script, finds no mistake in the three read
    lines, and then breaks down [Six] into no syllable at all, [apples]
    into two, and fails on [please.]. *)
Definition aiTurnEvents : list event := [AiTurnTimeout; UtteranceStart; SpeechEnd 0].

Definition userTurnEvents (heard : list string) : list event :=
  [MicButtonClick Started; RecognitionStart; RecognitionResult heard;
   MicButtonClick Started; RecognitionEnd].

Definition demoSession : list event :=
  [SceneSelect "Shopkeeper and Customer"; CharacterSelect "Customer";
   VoicesChanged [demoVoice]]
  ++ aiTurnEvents ++ userTurnEvents ["I want some apples please"]
  ++ aiTurnEvents ++ userTurnEvents []
  ++ aiTurnEvents ++ userTurnEvents ["No thank you"]
  ++ aiTurnEvents ++ userTurnEvents ["Here is the money. Goodbye!"]
  ++ [AnalysisEffect; PracticePrepEffect].

Definition demoService : AiService :=
  {| replyOf := fun n =>
       match n with
       | 0%nat => replyOf scriptService 0%nat
       | 1%nat | 2%nat | 3%nat | 4%nat => AiResponds (Some "[]")
       | 5%nat => AiResponds (Some demoPhonemesJson)
       | _ => AiThrows (JsError "Failed to fetch")
       end;
     calls := [] |}.

(** * The application around the game ([App])

    [App] keeps the grade, the language, the microphone permission, the
    level and the key of the game, and shows one screen at a time.  Besides
    its six [useState] cells the state counts the permission queries the
    browser has not answered yet. *)

Record AppState : Type := {
  app_userGrade : option Z;
  app_selectedLanguage : option string;
  app_micPermissionGranted : bool;
  app_currentLevel : Z;
  app_gameKey : Z;
  app_isFinished : bool;
  app_pendingQueries : nat
}.

(** The initial values of the six [useState] cells; the effect on the
    permission finds no language and asks nothing. *)
Definition appMount : AppState :=
  {| app_userGrade := None; app_selectedLanguage := None;
     app_micPermissionGranted := false; app_currentLevel := 1;
     app_gameKey := 0; app_isFinished := false; app_pendingQueries := 0 |}.

Definition handleSetGrade (g : Z) (a : AppState) : AppState :=
  {| app_userGrade := Some g; app_selectedLanguage := None;
     app_micPermissionGranted := false; app_currentLevel := 1;
     app_gameKey := 0; app_isFinished := false;
     app_pendingQueries := app_pendingQueries a |}.

Definition handleLanguageSelect (l : string) (a : AppState) : AppState :=
  {| app_userGrade := app_userGrade a; app_selectedLanguage := Some l;
     app_micPermissionGranted := app_micPermissionGranted a;
     app_currentLevel := app_currentLevel a; app_gameKey := app_gameKey a;
     app_isFinished := app_isFinished a;
     app_pendingQueries := app_pendingQueries a |}.

Definition handleBackToGrades (a : AppState) : AppState :=
  {| app_userGrade := None; app_selectedLanguage := None;
     app_micPermissionGranted := false;
     app_currentLevel := app_currentLevel a; app_gameKey := app_gameKey a;
     app_isFinished := app_isFinished a;
     app_pendingQueries := app_pendingQueries a |}.

(** [handleFinish(success)]: the argument is not looked at. *)
Definition handleFinish (success : bool) (a : AppState) : AppState :=
  {| app_userGrade := app_userGrade a;
     app_selectedLanguage := app_selectedLanguage a;
     app_micPermissionGranted := app_micPermissionGranted a;
     app_currentLevel := app_currentLevel a + 1; app_gameKey := app_gameKey a;
     app_isFinished := true; app_pendingQueries := app_pendingQueries a |}.

Definition handlePlayAgain (a : AppState) : AppState :=
  {| app_userGrade := app_userGrade a;
     app_selectedLanguage := app_selectedLanguage a;
     app_micPermissionGranted := app_micPermissionGranted a;
     app_currentLevel := app_currentLevel a; app_gameKey := app_gameKey a + 1;
     app_isFinished := false; app_pendingQueries := app_pendingQueries a |}.

Definition handlePermissionGranted (a : AppState) : AppState :=
  {| app_userGrade := app_userGrade a;
     app_selectedLanguage := app_selectedLanguage a;
     app_micPermissionGranted := true;
     app_currentLevel := app_currentLevel a; app_gameKey := app_gameKey a;
     app_isFinished := app_isFinished a;
     app_pendingQueries := app_pendingQueries a |}.

(** [onBack] of the language screen: [() => setUserGrade(null)]. *)
Definition languageBack (a : AppState) : AppState :=
  {| app_userGrade := None; app_selectedLanguage := app_selectedLanguage a;
     app_micPermissionGranted := app_micPermissionGranted a;
     app_currentLevel := app_currentLevel a; app_gameKey := app_gameKey a;
     app_isFinished := app_isFinished a;
     app_pendingQueries := app_pendingQueries a |}.

(** [onBack] of the permission screen: [() => setSelectedLanguage(null)]. *)
Definition permissionBack (a : AppState) : AppState :=
  {| app_userGrade := app_userGrade a; app_selectedLanguage := None;
     app_micPermissionGranted := app_micPermissionGranted a;
     app_currentLevel := app_currentLevel a; app_gameKey := app_gameKey a;
     app_isFinished := app_isFinished a;
     app_pendingQueries := app_pendingQueries a |}.

(** The effect on [selectedLanguage] and [micPermissionGranted].  It runs
    after a render that changed one of the two, and with a language and no
    permission yet it asks the browser. *)
Definition permissionEffect (before after : AppState) : AppState :=
  if negb (bool_decide (app_selectedLanguage after = app_selectedLanguage before
                        /\ app_micPermissionGranted after = app_micPermissionGranted before))
     && isSet (app_selectedLanguage after) && negb (app_micPermissionGranted after)
  then
    {| app_userGrade := app_userGrade after;
       app_selectedLanguage := app_selectedLanguage after;
       app_micPermissionGranted := app_micPermissionGranted after;
       app_currentLevel := app_currentLevel after; app_gameKey := app_gameKey after;
       app_isFinished := app_isFinished after;
       app_pendingQueries := S (app_pendingQueries after) |}
  else after.

(** The answer to a query of that effect: the permission is taken as
    granted when the answer is ['granted'], whatever has happened to the
    language and the grade since the question. *)
Definition permissionAnswered (granted : bool) (a : AppState) : AppState :=
  match app_pendingQueries a with
  | O => a
  | S pending =>
      {| app_userGrade := app_userGrade a;
         app_selectedLanguage := app_selectedLanguage a;
         app_micPermissionGranted := granted || app_micPermissionGranted a;
         app_currentLevel := app_currentLevel a; app_gameKey := app_gameKey a;
         app_isFinished := app_isFinished a;
         app_pendingQueries := pending |}
  end.

(** [!userGrade]: [null] and [0] are falsy. *)
Definition noGrade (g : option Z) : bool :=
  match g with
  | Some g => g =? 0
  | None => true
  end.

(** What [App] renders.  The game gets its [key] and the props
    [userGrade], [currentLevel] and [language]; the screen of a finished
    level names the level played and the next one. *)
Inductive Screen : Type :=
| GradeSelectionScreen
| LanguageSelectionScreen
| PermissionScreen
| LevelComplete (played next : Z)
| Game (key userGrade currentLevel : Z) (language : string).

Definition screen (a : AppState) : Screen :=
  match app_userGrade a, app_selectedLanguage a with
  | Some g, Some l =>
      if noGrade (Some g) then GradeSelectionScreen
      else if negb (truthy l) then LanguageSelectionScreen
      else if negb (app_micPermissionGranted a) then PermissionScreen
      else if app_isFinished a
           then LevelComplete (app_currentLevel a - 1) (app_currentLevel a)
           else Game (app_gameKey a) g (app_currentLevel a) l
  | Some g, None =>
      if noGrade (Some g) then GradeSelectionScreen else LanguageSelectionScreen
  | None, _ => GradeSelectionScreen
  end.

(** What the user, the browser and the game can do to [App].  A click is
    offered by one screen only.  [onComplete] can also be called by a game
    that is no longer on the screen (the timer of a successful practice
    attempt is not cleared, and the practice preparation may still be
    waiting for the service), and [handleFinish] does not ask which screen
    is up. *)
Inductive appEvent : Type :=
| GradeSelect (g : Z)
| LanguageSelect (l : string)
| LanguageBack
| PermissionGranted
| PermissionBack
| PermissionAnswer (granted : bool)
| GameComplete (success : bool)
| GameBackToGrades
| PlayAgain.

Definition appHandler (e : appEvent) (a : AppState) : AppState :=
  match e, screen a with
  | GradeSelect g, GradeSelectionScreen => handleSetGrade g a
  | LanguageSelect l, LanguageSelectionScreen => handleLanguageSelect l a
  | LanguageBack, LanguageSelectionScreen => languageBack a
  | PermissionGranted, PermissionScreen => handlePermissionGranted a
  | PermissionBack, PermissionScreen => permissionBack a
  | PermissionAnswer granted, _ => permissionAnswered granted a
  | GameComplete success, _ => handleFinish success a
  | GameBackToGrades, Game _ _ _ _ => handleBackToGrades a
  | PlayAgain, LevelComplete _ _ => handlePlayAgain a
  | _, _ => a
  end.

(** One event: its handler, then the effect of the render it causes. *)
Definition appHandle (e : appEvent) (a : AppState) : AppState :=
  permissionEffect a (appHandler e a).

Definition appRun (es : list appEvent) (a : AppState) : AppState :=
  fold_left (fun a e => appHandle e a) es a.

(** The props [App] hands to the game it shows, put into an environment
    with the given surroundings. *)
Definition gameEnv (surroundings : Env) (g l : Z) (lang : string) : Env :=
  {| JSON_parse := JSON_parse surroundings;
     typeErrorMessage := typeErrorMessage surroundings;
     TALKERS_CAVE_SCENES := TALKERS_CAVE_SCENES surroundings;
     grades := grades surroundings;
     userGrade := g; currentLevel := l; language := lang;
     hasSpeechSynthesis := hasSpeechSynthesis surroundings;
     hasSpeechRecognition := hasSpeechRecognition surroundings |}.

(** * Properties *)

(** ** The embedding at work *)

Example trim_both_sides : trim "  Hello, World! " = "Hello, World!".
Proof. reflexivity. Qed.

Example split_keeps_empty_pieces : split " " " a  b" = [""; "a"; ""; "b"].
Proof. reflexivity. Qed.

Example split_of_empty_string : split " " EmptyString = [EmptyString].
Proof. reflexivity. Qed.

Example cleanWord_example : cleanWord " Hello, World! " = "hello world".
Proof. reflexivity. Qed.

Example uniqueValues_keeps_first_insertions :
  uniqueValues ["b"; "a"; "b"; "c"; "a"] = ["b"; "a"; "c"].
Proof. reflexivity. Qed.

Example jsonCandidate_between_brackets :
  jsonCandidate "Here you go: [1, {2}] thanks }" = "[1, {2}] thanks }".
Proof. reflexivity. Qed.

Example jsonCandidate_inside_fence :
  jsonCandidate ("Sure! ```json" +:+ String (Ascii.ascii_of_N 10) demoPhonemesJson
                 +:+ String (Ascii.ascii_of_N 10) "``` Enjoy.")
  = demoPhonemesJson.
Proof. reflexivity. Qed.

Example fence_without_content_falls_back :
  jsonCandidate "``` ``` [1]" = "[1]".
Proof. reflexivity. Qed.

Example demoSession_reaches_practice :
  let s := (run demoEnv demoSession (mount demoEnv, demoService)).1 in
  step s = PRACTICE
  /\ (expected <$> mistakes s) = ["Six"; "apples"; "please."]
  /\ (word <$> practiceWords s) = ["apples"; "please."]
  /\ length (speechLog s) = 4%nat.
Proof. vm_compute. repeat split; reflexivity. Qed.

(** ** Strings *)

Lemma append_cons (c : ascii) (s1 s2 : string) :
  String c s1 +:+ s2 = String c (s1 +:+ s2).
Proof. reflexivity. Qed.

Lemma append_empty_r (s : string) : s +:+ EmptyString = s.
Proof. induction s as [|c r IH]; [done|]. by rewrite append_cons, IH. Qed.

Lemma append_assoc (s1 s2 s3 : string) : (s1 +:+ s2) +:+ s3 = s1 +:+ (s2 +:+ s3).
Proof. induction s1 as [|c r IH]; [done|]. by rewrite !append_cons, IH. Qed.

Lemma rev_app_append (s1 s2 : string) :
  String.rev_app s1 s2 = String.rev s1 +:+ s2.
Proof.
  unfold String.rev. revert s2.
  induction s1 as [|c r IH]; intros s2; cbn [String.rev_app]; [done|].
  by rewrite (IH (String c s2)), (IH (String c EmptyString)), append_assoc.
Qed.

Lemma rev_cons (c : ascii) (s : string) :
  String.rev (String c s) = String.rev s +:+ String c EmptyString.
Proof. unfold String.rev at 1. cbn [String.rev_app]. apply rev_app_append. Qed.

Lemma trimStart_suffix (s : string) :
  exists ws, s = ws +:+ trimStart s /\ allChars isWhiteSpace ws = true.
Proof.
  induction s as [|c r (ws & Hr & Hws)]; [by exists EmptyString|].
  cbn [trimStart]. destruct (isWhiteSpace c) eqn:Hc; [|by exists EmptyString].
  exists (String c ws). rewrite append_cons, <- Hr. split; [done|].
  cbn [allChars]. by rewrite Hc.
Qed.

Lemma rev_append (s1 s2 : string) :
  String.rev (s1 +:+ s2) = String.rev s2 +:+ String.rev s1.
Proof.
  induction s1 as [|c r IH]; [by rewrite append_empty_r|].
  by rewrite append_cons, !rev_cons, IH, append_assoc.
Qed.

Lemma rev_rev (s : string) : String.rev (String.rev s) = s.
Proof.
  induction s as [|c r IH]; [done|]. by rewrite rev_cons, rev_append, IH.
Qed.

Lemma allChars_append (test : ascii -> bool) (s1 s2 : string) :
  allChars test (s1 +:+ s2) = allChars test s1 && allChars test s2.
Proof.
  induction s1 as [|c r IH]; [done|]. rewrite append_cons. cbn [allChars].
  by rewrite IH, andb_assoc.
Qed.

Lemma allChars_rev (test : ascii -> bool) (s : string) :
  allChars test (String.rev s) = allChars test s.
Proof.
  induction s as [|c r IH]; [done|]. rewrite rev_cons, allChars_append, IH.
  cbn [allChars]. by rewrite andb_true_r, andb_comm.
Qed.

Lemma trimEnd_prefix (s : string) :
  exists ws, s = trimEnd s +:+ ws /\ allChars isWhiteSpace ws = true.
Proof.
  unfold trimEnd. destruct (trimStart_suffix (String.rev s)) as (ws & Hs & Hws).
  exists (String.rev ws). split; [|by rewrite allChars_rev].
  by rewrite <- rev_append, <- Hs, rev_rev.
Qed.

(** [s.trim()] takes white space off both ends. *)
Lemma trim_form (s : string) :
  exists before after,
    s = before +:+ trim s +:+ after
    /\ allChars isWhiteSpace before = true /\ allChars isWhiteSpace after = true.
Proof.
  unfold trim. destruct (trimStart_suffix s) as (before & Hs & Hbefore).
  destruct (trimEnd_prefix (trimStart s)) as (after & Ht & Hafter).
  exists before, after. by rewrite <- Ht.
Qed.









(** ** Script generation (C1, C2) *)

Section ScriptGeneration.

Context (env : Env).

Lemma everyHasCharacterAndLine_script (items : list value) :
  Forall isScriptLine items -> everyHasCharacterAndLine items = Some true.
Proof.
  induction 1 as [|item items (fields & -> & Hc & Hl) _ IH]; [done|].
  cbn. rewrite !bool_decide_eq_true_2 by done. exact IH.
Qed.

Lemma everyHasCharacterAndLine_true (items : list value) :
  everyHasCharacterAndLine items = Some true -> Forall isScriptLine items.
Proof.
  induction items as [|item items IH]; [constructor|].
  cbn. destruct item as [| | | | | |fields]; cbn; try done.
  repeat case_bool_decide; try done.
  intros Hrest. constructor; [by exists fields|by apply IH].
Qed.

Lemma checkScript_valid (parsed : value) (items : list value) (ai : AiService) :
  validScript parsed items -> checkScript env parsed ai = (inr items, ai).
Proof.
  intros (-> & Hlen & Hall). unfold checkScript.
  rewrite bool_decide_eq_true_2 by done.
  by rewrite everyHasCharacterAndLine_script.
Qed.

Lemma checkScript_inv (parsed : value) (items : list value) (ai ai' : AiService) :
  checkScript env parsed ai = (inr items, ai') -> validScript parsed items.
Proof.
  unfold checkScript. destruct parsed as [| | | | |found|]; try done.
  case_bool_decide as Hlen; [|done].
  destruct (everyHasCharacterAndLine found) as [[]|] eqn:Hall; try done.
  intros [= <- _]. split; [done|]. split; [done|].
  by apply everyHasCharacterAndLine_true.
Qed.

Lemma scriptFailed_shown (e : thrown) (s : State) : scriptErrorShown (scriptFailed e s).
Proof. destruct e; eexists; split; reflexivity. Qed.

Lemma generateScript_failure (scene : option string) (character : string)
    (s : State) (ai : AiService) :
  noValidScriptNext env ai ->
  scriptErrorShown (generateScript env scene character s ai).1.
Proof.
  intros Hbad. unfold generateScript, requestScript.
  destruct (scriptRequest env scene character) as [e|req]; cbn.
  { apply scriptFailed_shown. }
  unfold bind, generateContent.
  destruct (replyOf ai (length (calls ai))) as [e|text] eqn:Hreply.
  { apply scriptFailed_shown. }
  destruct (checkScript env _ _) as [[e|items] ai'] eqn:Hcheck.
  { apply scriptFailed_shown. }
  apply checkScript_inv in Hcheck. by destruct (Hbad text items).
Qed.

(** C1.  When the service answers the request of [generateScript] with a
    text whose extracted JSON is an array of exactly eight objects that
    each have a [character] and a [line] property, [generateScript] sets
    the script to that array, the step to [GAME] and the current turn
    to 0. *)
Theorem generateScript_valid_script_starts_game
    (scene : option string) (character : string) (s : State) (ai : AiService)
    (req : ai_request) (text : option string) (items : list value) :
  scriptRequest env scene character = inr req ->
  replyOf ai (length (calls ai)) = AiResponds text ->
  validScript (extractJson (JSON_parse env) text) items ->
  let s' := (generateScript env scene character s ai).1 in
  script s' = items /\ step s' = GAME /\ currentTurn s' = 0%nat.
Proof.
  intros Hreq Hreply Hvalid. unfold generateScript, requestScript.
  rewrite Hreq. unfold bind, generateContent. rewrite Hreply.
  by rewrite (checkScript_valid _ items).
Qed.

End ScriptGeneration.

Lemma demoScript_lines : Forall isScriptLine demoScript.
Proof.
  repeat constructor; eexists; (split; [reflexivity|]); split; by eexists.
Qed.

Lemma generateScript_valid_script_starts_game_witness :
  let s' := (generateScript demoEnv (Some "Shopkeeper and Customer") "Customer"
               sceneChosen scriptService).1 in
  script s' = demoScript /\ step s' = GAME /\ currentTurn s' = 0%nat.
Proof.
  eapply (generateScript_valid_script_starts_game demoEnv).
  - reflexivity.
  - reflexivity.
  - split; [vm_compute; reflexivity|]. split; [reflexivity|]. exact demoScript_lines.
Defined.

(** ** Failures of the other two AI calls (C2) *)

Section AiFailures.

Context (env : Env).

Lemma analyzeReadingWithAI_failure (spokenText : string) (targetText : value)
    (ai : AiService) :
  truthy (trim spokenText) = true ->
  noStringArrayNext env ai ->
  (analyzeReadingWithAI env spokenText targetText ai).1 = inr [].
Proof.
  intros Hsaid Hbad. unfold analyzeReadingWithAI. rewrite Hsaid. cbn.
  unfold tryCatch, bind, generateContent.
  destruct (replyOf ai (length (calls ai))) as [e|text] eqn:Hreply; [done|].
  cbn. by rewrite (Hbad text).
Qed.

Lemma getPhoneticBreakdown_failure (w : string) (ai : AiService) :
  noStringArrayNext env ai ->
  (getPhoneticBreakdown env w ai).1 = inr [w].
Proof.
  intros Hbad. unfold getPhoneticBreakdown, tryCatch, bind, generateContent.
  destruct (replyOf ai (length (calls ai))) as [e|text] eqn:Hreply; [done|].
  cbn. by rewrite (Hbad text).
Qed.

(** Neither effect touches the two error cells, and neither changes the
    step to anything but its own successors. *)
Lemma analyzeAllDialog_frame (s : State) (ai : AiService) :
  let s' := (analyzeAllDialog env s ai).1 in
  error s' = error s /\ recognitionError s' = recognitionError s
  /\ (step s' = step s \/ step s' = COMPLETE \/ step s' = PRACTICE_PREP).
Proof.
  unfold analyzeAllDialog.
  destruct (analyzeTurns env _ _ ai) as [[e|ws] ai']; cbn; [by auto|].
  case_bool_decide; by auto.
Qed.

Lemma preparePractice_frame (s : State) (ai : AiService) :
  let s' := (preparePractice env s ai).1 in
  error s' = error s /\ recognitionError s' = recognitionError s
  /\ (step s' = step s \/ step s' = PRACTICE).
Proof.
  unfold preparePractice. case_bool_decide; cbn; [by auto|].
  destruct (phoneticBreakdowns env _ _ ai) as [[e|ws] ai']; cbn; by auto.
Qed.

(** C2, as amended.  A failed script-generation call (it throws, or its
    reply does not parse to a well-formed eight-line script) is caught:
    an error message is set and the step goes back to [CHARACTER].  A failed
    analysis call is caught and counts as an empty list of mistakes; a
    failed phonetic-breakdown call is caught and gives the word itself as
    its only phoneme.  The effects that make these two calls never set an
    error message and never go back to a selection step. *)
Theorem ai_failures_are_caught
    (scene : option string) (character spokenText w : string) (targetText : value)
    (s : State) (ai : AiService) :
  (noValidScriptNext env ai ->
     scriptErrorShown (generateScript env scene character s ai).1)
  /\ (truthy (trim spokenText) = true -> noStringArrayNext env ai ->
        (analyzeReadingWithAI env spokenText targetText ai).1 = inr [])
  /\ (noStringArrayNext env ai -> (getPhoneticBreakdown env w ai).1 = inr [w])
  /\ (let s' := (analyzeAllDialog env s ai).1 in
      error s' = error s /\ recognitionError s' = recognitionError s
      /\ (step s' = step s \/ step s' = COMPLETE \/ step s' = PRACTICE_PREP))
  /\ (let s' := (preparePractice env s ai).1 in
      error s' = error s /\ recognitionError s' = recognitionError s
      /\ (step s' = step s \/ step s' = PRACTICE)).
Proof.
  split; [apply generateScript_failure|].
  split; [apply analyzeReadingWithAI_failure|].
  split; [apply getPhoneticBreakdown_failure|].
  split; [apply analyzeAllDialog_frame|apply preparePractice_frame].
Qed.

End AiFailures.

Lemma failingService_noValidScript : noValidScriptNext demoEnv failingService.
Proof. intros text items Hreply. discriminate Hreply. Qed.

Lemma failingService_noStringArray : noStringArrayNext demoEnv failingService.
Proof. intros text Hreply. discriminate Hreply. Qed.

Lemma ai_failures_are_caught_witness :
  scriptErrorShown
    (generateScript demoEnv (Some "Shopkeeper and Customer") "Customer"
       sceneChosen failingService).1
  /\ (analyzeReadingWithAI demoEnv "I want some please"
        (VStr "I want some apples please.") failingService).1 = inr []
  /\ (getPhoneticBreakdown demoEnv "apples" failingService).1 = inr ["apples"].
Proof.
  pose proof (ai_failures_are_caught demoEnv (Some "Shopkeeper and Customer")
                "Customer" "I want some please" "apples"
                (VStr "I want some apples please.") sceneChosen failingService)
    as (Hscript & Hanalysis & Hphonetic & _).
  split; [exact (Hscript failingService_noValidScript)|].
  split; [exact (Hanalysis eq_refl failingService_noStringArray)|].
  exact (Hphonetic failingService_noStringArray).
Defined.

(** C2 as stated fails: the analysis call of this session fails, no error
    message is set, and the step moves on to [COMPLETE] as if every word had
    been read well. *)
Lemma analysis_failure_is_not_reported :
  let result := analyzeAllDialog demoEnv demoAnalysing failingService in
  calls result.2
    = [AnalysisRequest "I want some please" (VStr "I want some apples please.")]
  /\ replyOf failingService 0 = AiThrows (JsError "Failed to fetch")
  /\ error result.1 = None
  /\ recognitionError result.1 = None
  /\ step result.1 = COMPLETE
  /\ mistakes result.1 = [].
Proof. vm_compute. repeat split; reflexivity. Qed.

(** ** A practice attempt (C3) *)


















(** ** Mistakes and practice words without duplicates (C4) *)

Section Deduplication.

Context (env : Env).

Lemma setAdd_NoDup (seen : list string) (x : string) :
  NoDup seen -> NoDup (setAdd seen x).
Proof.
  intros Hseen. unfold setAdd. case_bool_decide as Hin; [done|].
  apply NoDup_app. split; [done|]. split; [|apply NoDup_singleton].
  intros y Hy ->%list_elem_of_singleton. done.
Qed.

Lemma elem_of_setAdd (seen : list string) (x y : string) :
  y ∈ setAdd seen x <-> y ∈ seen \/ y = x.
Proof.
  unfold setAdd. case_bool_decide as Hin.
  - split; [by left|]. by intros [?| ->].
  - by rewrite elem_of_app, list_elem_of_singleton.
Qed.

Lemma fold_setAdd_NoDup (xs seen : list string) :
  NoDup seen -> NoDup (fold_left setAdd xs seen).
Proof.
  revert seen. induction xs as [|x xs IH]; intros seen Hseen; cbn; [done|].
  by apply IH, setAdd_NoDup.
Qed.

Lemma elem_of_fold_setAdd (xs seen : list string) (y : string) :
  y ∈ fold_left setAdd xs seen <-> y ∈ seen \/ y ∈ xs.
Proof.
  revert seen. induction xs as [|x xs IH]; intros seen; cbn.
  - split; [by left|]. intros [?|Hnil]; [done|]. by apply elem_of_nil in Hnil.
  - rewrite IH, elem_of_setAdd, elem_of_cons. tauto.
Qed.

Lemma uniqueValues_NoDup (xs : list string) : NoDup (uniqueValues xs).
Proof. apply fold_setAdd_NoDup, NoDup_nil_2. Qed.

Lemma elem_of_uniqueValues (xs : list string) (y : string) :
  y ∈ uniqueValues xs <-> y ∈ xs.
Proof.
  unfold uniqueValues. rewrite elem_of_fold_setAdd.
  split; [|by right]. intros [Hnil|?]; [|done]. by apply elem_of_nil in Hnil.
Qed.

Lemma occurrences_not_elem_of (w : string) (ws : list string) :
  w ∉ ws -> occurrences w ws = 0%nat.
Proof.
  unfold occurrences. induction ws as [|x ws IH]; intros Hw; [done|].
  apply not_elem_of_cons in Hw as [Hne Hw].
  rewrite filter_cons_False by done. by apply IH.
Qed.

Lemma occurrences_NoDup (w : string) (ws : list string) :
  NoDup ws -> w ∈ ws -> occurrences w ws = 1%nat.
Proof.
  unfold occurrences. induction 1 as [|x ws Hx Hws IH]; intros Hw.
  - by apply elem_of_nil in Hw.
  - apply elem_of_cons in Hw as [->|Hw].
    + rewrite filter_cons_True by done. cbn. f_equal.
      by apply occurrences_not_elem_of.
    + rewrite filter_cons_False; [by apply IH|]. by intros ->.
Qed.

Lemma expected_mistakes (ws : list string) :
  expected <$> ((fun w => {| mistake_said := EmptyString; expected := w |}) <$> ws) = ws.
Proof. induction ws as [|w ws IH]; cbn; [done|]. by f_equal. Qed.

(** The words of the records the loop of [preparePractice] builds are the
    words it was given, in order. *)
Lemma phoneticBreakdowns_words (ws : list string) (acc data : list PracticeWord)
    (ai ai' : AiService) :
  phoneticBreakdowns env ws acc ai = (inr data, ai') ->
  word <$> data = (word <$> acc) ++ ws.
Proof.
  revert acc ai. induction ws as [|w ws IH]; intros acc ai; cbn.
  - intros [= <- _]. by rewrite app_nil_r.
  - unfold bind. destruct (getPhoneticBreakdown env w ai) as [[e|ph] ai1]; [done|].
    intros Hrest%IH. rewrite Hrest, fmap_app. cbn. by rewrite <- app_assoc.
Qed.

Lemma getPhoneticBreakdown_total (w : string) (ai : AiService) :
  exists ph ai', getPhoneticBreakdown env w ai = (inr ph, ai').
Proof.
  unfold getPhoneticBreakdown, tryCatch, bind, generateContent.
  destruct (replyOf ai (length (calls ai))); cbn; eauto.
Qed.

Lemma phoneticBreakdowns_total (ws : list string) (acc : list PracticeWord)
    (ai : AiService) :
  exists data ai', phoneticBreakdowns env ws acc ai = (inr data, ai').
Proof.
  revert acc ai. induction ws as [|w ws IH]; intros acc ai; cbn; [by eauto|].
  unfold bind. destruct (getPhoneticBreakdown_total w ai) as (ph & ai1 & ->).
  apply IH.
Qed.

(** What [preparePractice] leaves in [practiceWords] when it enters
    [PRACTICE]. *)
Lemma preparePractice_enters (s : State) (ai : AiService) :
  step s <> PRACTICE ->
  let s' := (preparePractice env s ai).1 in
  step s' = PRACTICE ->
  exists data,
    word <$> data = uniqueValues (filter truthy (expected <$> mistakes s))
    /\ practiceWords s' = filter (fun p => (0 < length (phonemes p))%nat) data.
Proof.
  intros Hstep. unfold preparePractice. case_bool_decide as Hnone; cbn; [done|].
  destruct (phoneticBreakdowns env _ _ ai) as [[e|data] ai'] eqn:Hloop; cbn; [done|].
  intros _. exists data. split; [|done].
  by apply phoneticBreakdowns_words in Hloop.
Qed.

Lemma analyzeReadingWithAI_total (spokenText t : string) (ai : AiService) :
  exists ws ai', analyzeReadingWithAI env spokenText (VStr t) ai = (inr ws, ai').
Proof.
  unfold analyzeReadingWithAI. destruct (negb _); [by eauto|].
  unfold tryCatch, bind, generateContent.
  destruct (replyOf ai (length (calls ai))); cbn; eauto.
Qed.

Lemma analyzeTurns_total (dialogs : list Dialog) (acc : list string) (ai : AiService) :
  Forall (fun d => isString (target d) = true) dialogs ->
  exists allIncorrectWords ai',
    analyzeTurns env dialogs acc ai = (inr allIncorrectWords, ai').
Proof.
  intros Hall. revert acc ai.
  induction Hall as [|d dialogs Hd _ IH]; intros acc ai; cbn; [by eauto|].
  destruct (target d) as [| | | |t| |] eqn:Ht; try done.
  unfold bind. destruct (analyzeReadingWithAI_total (said d) t ai) as (ws & ai1 & ->).
  apply IH.
Qed.

Lemma NoDup_words_filter (P : PracticeWord -> Prop) `{!forall p, Decision (P p)}
    (data : list PracticeWord) :
  NoDup (word <$> data) -> NoDup (word <$> filter P data).
Proof.
  intros Hdata. apply (sublist_NoDup _ _ Hdata).
  apply fmap_sublist, sublist_filter.
Qed.

Lemma fold_setAdd_sublist (xs seen : list string) :
  exists added, fold_left setAdd xs seen = seen ++ added /\ added `sublist_of` xs.
Proof.
  revert seen. induction xs as [|x xs IH]; intros seen; cbn.
  - exists []. by rewrite app_nil_r.
  - unfold setAdd at 2. case_bool_decide.
    + destruct (IH seen) as (added & -> & Hsub). exists added.
      split; [done|]. by apply sublist_cons.
    + destruct (IH (seen ++ [x])) as (added & -> & Hsub). exists (x :: added).
      rewrite <- app_assoc. split; [done|]. by apply sublist_skip.
Qed.

Lemma fold_setAdd_NoDup_id (xs seen : list string) :
  NoDup (seen ++ xs) -> fold_left setAdd xs seen = seen ++ xs.
Proof.
  revert seen. induction xs as [|x xs IH]; intros seen Hnodup; cbn.
  - by rewrite app_nil_r.
  - unfold setAdd. rewrite bool_decide_eq_false_2.
    + rewrite IH; rewrite <- app_assoc; done.
    + apply NoDup_app in Hnodup as (_ & Hdisjoint & _). intros Hx.
      apply (Hdisjoint x Hx). by left.
Qed.

(** What the analysis of a turn on which something was said makes of the
    reply of the service. *)
Definition repliedWords (reply : ai_reply) : list string :=
  match reply with
  | AiResponds text => default [] (arrayOfStrings (extractJson (JSON_parse env) text))
  | AiThrows _ => []
  end.

Lemma elem_of_repliedWords (ai : AiService) (n : nat) (w : string) :
  w ∈ repliedWords (replyOf ai n) <-> flaggedByReply env ai n w.
Proof.
  unfold repliedWords, flaggedByReply. destruct (replyOf ai n) as [e|text].
  - split; [by intros ?%elem_of_nil|]. by intros (? & ? & ? & _).
  - destruct (arrayOfStrings _) as [ws|] eqn:Hws; cbn.
    + split; [by eauto|]. by intros (? & ? & [= <-] & [= <-]%(eq_trans (eq_sym Hws)) & ?).
    + split; [by intros ?%elem_of_nil|]. intros (? & ? & [= <-] & Hsome & _). congruence.
Qed.

Lemma analyzeReadingWithAI_spoken (spokenText : string) (targetText : value)
    (ai : AiService) :
  truthy (trim spokenText) = true ->
  exists ai',
    analyzeReadingWithAI env spokenText targetText ai
    = (inr (repliedWords (replyOf ai (length (calls ai)))), ai')
    /\ replyOf ai' = replyOf ai /\ length (calls ai') = S (length (calls ai)).
Proof.
  intros Hsaid. unfold analyzeReadingWithAI, tryCatch, bind, generateContent, repliedWords.
  rewrite Hsaid. cbn [negb].
  destruct (replyOf ai (length (calls ai))); cbn; eexists; (split; [done|]);
    cbn; rewrite length_app; cbn; split; (done || lia).
Qed.

Lemma analyzeTurns_flagged (dialogs : list Dialog) (acc all : list string)
    (ai ai' : AiService) :
  Forall (fun d => isString (target d) = true) dialogs ->
  analyzeTurns env dialogs acc ai = (inr all, ai') ->
  forall w, w ∈ all <-> w ∈ acc \/ flaggedInSomeTurn env ai dialogs w.
Proof.
  intros Hall. revert acc ai.
  induction Hall as [|d dialogs Hd _ IH]; intros acc ai; cbn [analyzeTurns].
  { intros [= <- <-] w. split; [by left|]. intros [?|[(d & ?%elem_of_nil & _)|(j & d & Hj & _)]];
      done. }
  unfold bind. destruct (target d) as [| | | |t| |] eqn:Ht; try done.
  destruct (truthy (trim (said d))) eqn:Hsaid.
  - destruct (analyzeReadingWithAI_spoken (said d) (VStr t) ai Hsaid)
      as (ai1 & -> & Hreplies & Hcalls).
    intros Hrest w. rewrite (IH _ _ Hrest w), elem_of_app, elem_of_repliedWords.
    unfold flaggedInSomeTurn, spokenTurns. rewrite filter_cons_True by by rewrite Hsaid.
    fold (spokenTurns dialogs). unfold flaggedByReply at 2. rewrite Hreplies, Hcalls.
    split.
    + intros [[?|Hfirst]|[(d' & Hd' & Hw)|(j & d' & Hj & Hw)]].
      * by left.
      * right. right. exists 0%nat, d. split; [done|]. by rewrite Nat.add_0_r.
      * right. left. exists d'. split; [by right|done].
      * right. right. exists (S j), d'. split; [done|].
        by replace (length (calls ai) + S j)%nat with (S (length (calls ai)) + j)%nat by lia.
    + intros [?|[(d' & Hd' & Hw)|(j & d' & Hj & Hw)]].
      * by left; left.
      * apply elem_of_cons in Hd' as [->|Hd'].
        { destruct Hw as [Hsilent _]. congruence. }
        right. left. by exists d'.
      * destruct j as [|j].
        { left. right. by rewrite Nat.add_0_r in Hw. }
        right. right. exists j, d'. split; [done|].
        by replace (S (length (calls ai)) + j)%nat with (length (calls ai) + S j)%nat by lia.
  - unfold analyzeReadingWithAI. rewrite Hsaid. cbn [negb ret].
    intros Hrest w. rewrite (IH _ _ Hrest w), elem_of_app.
    unfold flaggedInSomeTurn, spokenTurns. rewrite filter_cons_False by (rewrite Hsaid; intros []).
    fold (spokenTurns dialogs). split.
    + intros [[?|Hfirst]|[(d' & Hd' & Hw)|?]].
      * by left.
      * right. left. exists d. split; [by left|]. split; [done|]. exists t.
        apply list_elem_of_filter in Hfirst as [Hne Hw].
        split; [done|]. split; [done|]. by intros ->.
      * right. left. exists d'. split; [by right|done].
      * by right; right.
    + intros [?|[(d' & Hd' & Hw)|?]].
      * by left; left.
      * apply elem_of_cons in Hd' as [->|Hd'].
        { left. right. destruct Hw as (_ & t' & Ht' & Hw & Hne).
          rewrite Ht in Ht'. injection Ht' as <-.
          apply list_elem_of_filter. split; [|done]. by destruct w. }
        right. left. by exists d'.
      * by right; right.
Qed.

(** What [getPhoneticBreakdown] makes of the reply of the service. *)
Definition breakdownOf (w : string) (reply : ai_reply) : list string :=
  match reply with
  | AiResponds text => default [w] (arrayOfStrings (extractJson (JSON_parse env) text))
  | AiThrows _ => [w]
  end.

Lemma breakdownOf_nil (ai : AiService) (n : nat) (w : string) :
  breakdownOf w (replyOf ai n) = [] -> emptyBreakdown env ai n.
Proof.
  unfold breakdownOf, emptyBreakdown. destruct (replyOf ai n) as [e|text]; [done|].
  destruct (arrayOfStrings _) as [ws|] eqn:Hws; cbn; [|done].
  intros ->. by exists text.
Qed.

Lemma getPhoneticBreakdown_eq (w : string) (ai : AiService) :
  exists ai',
    getPhoneticBreakdown env w ai
    = (inr (breakdownOf w (replyOf ai (length (calls ai)))), ai')
    /\ replyOf ai' = replyOf ai /\ length (calls ai') = S (length (calls ai)).
Proof.
  unfold getPhoneticBreakdown, tryCatch, bind, generateContent, breakdownOf.
  destruct (replyOf ai (length (calls ai))); cbn; eexists; (split; [done|]);
    cbn; rewrite length_app; cbn; split; (done || lia).
Qed.

(** The records the loop of [preparePractice] builds: the words in order,
    each with what the service made of it. *)
Lemma phoneticBreakdowns_eq (ws : list string) (acc : list PracticeWord) (ai : AiService) :
  exists ai',
    phoneticBreakdowns env ws acc ai
    = (inr (acc ++ imap (fun k w =>
                           {| word := w;
                              phonemes := breakdownOf w (replyOf ai (length (calls ai) + k)) |})
                        ws), ai').
Proof.
  revert acc ai. induction ws as [|w ws IH]; intros acc ai; cbn [phoneticBreakdowns].
  { exists ai. cbn. by rewrite app_nil_r. }
  unfold bind. destruct (getPhoneticBreakdown_eq w ai) as (ai1 & -> & Hreplies & Hcalls).
  destruct (IH (acc ++ [{| word := w;
                           phonemes := breakdownOf w (replyOf ai (length (calls ai))) |}])
               ai1) as (ai' & ->).
  exists ai'. f_equal. f_equal. rewrite <- app_assoc. f_equal. cbn [imap app].
  rewrite Nat.add_0_r. f_equal. apply imap_ext. intros k x _. cbn.
  rewrite Hreplies, Hcalls. do 3 f_equal. lia.
Qed.

Lemma uniqueValues_NoDup_id (xs : list string) : NoDup xs -> uniqueValues xs = xs.
Proof. intros Hxs. unfold uniqueValues. by rewrite fold_setAdd_NoDup_id. Qed.

(** C4, as amended.  When the analysis has gone through all user turns,
    the mistake list holds no string twice: its words are exactly the words
    flagged in some turn (every word of the line of a silent turn, and what
    the service returns for a turn on which something was said), and each of
    them occurs exactly once, however many turns flagged it.  When a flagged
    word is not empty, [preparePractice] enters [PRACTICE] with practice
    words that hold no string twice either: each is a flagged word that is
    not empty, and each such word occurs exactly once unless the service
    broke it down into no syllable at all.  Words are compared as strings,
    the way [Set] compares them. *)
Theorem mistakes_and_practice_words_have_no_duplicates
    (s : State) (ai ai2 : AiService) :
  step s = ANALYZING_PERFORMANCE ->
  Forall (fun d => isString (target d) = true) (userDialog s) ->
  let s' := (analyzeAllDialog env s ai).1 in
  let flagged := expected <$> mistakes s' in
  let s2 := (preparePractice env s' ai2).1 in
  let practised := word <$> practiceWords s2 in
  NoDup flagged
  /\ (forall w, w ∈ flagged <-> flaggedInSomeTurn env ai (userDialog s) w)
  /\ (forall w, flaggedInSomeTurn env ai (userDialog s) w -> occurrences w flagged = 1%nat)
  /\ ((exists w, w ∈ flagged /\ w <> EmptyString) ->
      step s2 = PRACTICE
      /\ NoDup practised
      /\ (forall w, w ∈ practised -> w ∈ flagged /\ w <> EmptyString)
      /\ (forall k w,
            filter (fun w => w <> EmptyString) flagged !! k = Some w ->
            ~ emptyBreakdown env ai2 (length (calls ai2) + k) ->
            occurrences w practised = 1%nat)).
Proof.
  intros Hstep Htargets.
  destruct (analyzeTurns_total (userDialog s) [] ai Htargets) as (all & ai' & Hturns).
  pose proof (analyzeTurns_flagged _ _ _ _ _ Htargets Hturns) as Hall.
  unfold analyzeAllDialog. cbn [userDialog setIsAnalyzing]. cbn zeta.
  replace (userDialog (setIsAnalyzing true s)) with (userDialog s) by by destruct s.
  rewrite Hturns. cbn [fst].
  set (s' := setStep _ _).
  assert (expected <$> mistakes s' = uniqueValues all) as Hflagged.
  { unfold s'. replace (mistakes _) with
      ((fun w => {| mistake_said := EmptyString; expected := w |}) <$> uniqueValues all)
      by by destruct s.
    apply expected_mistakes. }
  clearbody s'. rewrite Hflagged.
  assert (forall w, w ∈ uniqueValues all <-> flaggedInSomeTurn env ai (userDialog s) w)
    as Hiff.
  { intros w. rewrite elem_of_uniqueValues, Hall. split; [|by right].
    by intros [?%elem_of_nil|?]. }
  split; [apply uniqueValues_NoDup|]. split; [done|]. split.
  { intros w Hw. apply occurrences_NoDup; [apply uniqueValues_NoDup|by apply Hiff]. }
  intros (w0 & Hw0 & Hne0).
  set (words := filter (fun w => w <> EmptyString) (uniqueValues all)).
  assert (filter truthy (expected <$> mistakes s') = words) as Hwords.
  { rewrite Hflagged. unfold words. apply list_filter_iff. intros w. by destruct w. }
  assert (NoDup words) as Hnodup by apply NoDup_filter, uniqueValues_NoDup.
  unfold preparePractice. rewrite Hwords, (uniqueValues_NoDup_id words Hnodup).
  rewrite bool_decide_eq_false_2.
  2: { intros Hnil. assert (w0 ∈ words) as Hin by by apply list_elem_of_filter.
       rewrite Hnil in Hin. by apply elem_of_nil in Hin. }
  destruct (phoneticBreakdowns_eq words [] ai2) as (ai2' & ->). cbn [app fst].
  set (data := imap _ words).
  assert (word <$> data = words) as Hdata.
  { unfold data. rewrite fmap_imap. cbn. clear. induction words as [|w ws IH]; [done|].
    cbn. f_equal. rewrite <- IH at 2. by apply imap_ext. }
  replace (step _) with PRACTICE by by destruct s'.
  replace (practiceWords _)
    with (filter (fun p => (0 < length (phonemes p))%nat) data) by by destruct s'.
  assert (NoDup (word <$> filter (fun p => (0 < length (phonemes p))%nat) data)) as Hpractised.
  { apply NoDup_words_filter. by rewrite Hdata. }
  split; [done|]. split; [done|]. split.
  - intros w (p & -> & [_ Hp]%list_elem_of_filter)%list_elem_of_fmap.
    assert (word p ∈ words) as Hin.
    { rewrite <- Hdata. by apply list_elem_of_fmap_2. }
    by apply list_elem_of_filter in Hin as [? ?].
  - intros k w Hk Hreply. apply occurrences_NoDup; [done|].
    apply list_elem_of_fmap.
    exists {| word := w;
              phonemes := breakdownOf w (replyOf ai2 (length (calls ai2) + k)) |}.
    split; [done|]. apply list_elem_of_filter. split.
    + cbn. destruct (breakdownOf w _) eqn:Hbreak; [|cbn; lia].
      by apply breakdownOf_nil in Hbreak.
    + apply list_elem_of_lookup. exists k. unfold data. by rewrite list_lookup_imap, Hk.
Qed.

End Deduplication.

Lemma mistakes_and_practice_words_have_no_duplicates_witness :
  let s' := (analyzeAllDialog demoEnv demoTwoSilentTurns failingService).1 in
  let s2 := (preparePractice demoEnv s' failingService).1 in
  expected <$> mistakes s' = ["I"; "want"; "some"; "apples"; "please."; "Six"]
  /\ word <$> practiceWords s2 = ["I"; "want"; "some"; "apples"; "please."; "Six"]
  /\ occurrences "apples" (expected <$> mistakes s') = 1%nat
  /\ step s2 = PRACTICE.
Proof.
  assert (Forall (fun d => isString (target d) = true) (userDialog demoTwoSilentTurns))
    as Htargets by repeat constructor.
  destruct (mistakes_and_practice_words_have_no_duplicates demoEnv demoTwoSilentTurns
              failingService failingService eq_refl Htargets)
    as (_ & Hflagged & Honce & Hpractice).
  assert (flaggedInSomeTurn demoEnv failingService (userDialog demoTwoSilentTurns) "apples")
    as Happles.
  { left. exists {| target := VStr "Six apples please."; said := "  " |}.
    split; [right; left|]. split; [reflexivity|]. exists "Six apples please.".
    split; [reflexivity|]. split; [|done].
    apply list_elem_of_In. vm_compute. tauto. }
  split; [by vm_compute|]. split; [by vm_compute|]. split; [exact (Honce _ Happles)|].
  apply Hpractice. exists "apples". split; [by apply Hflagged|done].
Defined.

(** The user said nothing on two turns whose lines spell one word in two
    ways. *)
Definition demoTwoSpellings : State :=
  setUserDialog
    [{| target := VStr "Apples, please."; said := EmptyString |};
     {| target := VStr "Six apples please."; said := EmptyString |}]
    demoAnalysing.

(** C4 as stated fails: the word [apples], missed in two turns, appears
    twice among the mistakes, as [Apples,] and as [apples].  The mistakes
    are compared as strings; as words, the way [cleanWord] compares the
    words of the practice, the list has duplicates. *)
Lemma two_spellings_are_both_kept :
  ~ (forall (s : State) (ai : AiService),
       step s = ANALYZING_PERFORMANCE ->
       Forall (fun d => isString (target d) = true) (userDialog s) ->
       NoDup (cleanWord <$> (expected <$> mistakes (analyzeAllDialog demoEnv s ai).1))).
Proof.
  intros Hclaim.
  pose proof (Hclaim demoTwoSpellings failingService eq_refl
                ltac:(repeat constructor)) as Hnodup.
  assert (expected <$> mistakes (analyzeAllDialog demoEnv demoTwoSpellings failingService).1
          = ["Apples,"; "please."; "Six"; "apples"]) as Hflagged by (by vm_compute).
  rewrite Hflagged in Hnodup.
  assert (cleanWord <$> ["Apples,"; "please."; "Six"; "apples"]
          = ["apples"; "please"; "six"; "apples"]) as Hwords by (by vm_compute).
  rewrite Hwords in Hnodup.
  apply NoDup_cons_1_1 in Hnodup. apply Hnodup. do 2 right. by left.
Qed.

(** ** The practice loop (C5) *)

Section PracticeLoop.

Context (env : Env) (Hrecognition : hasSpeechRecognition env = true).




End PracticeLoop.






(** ** Recognition errors (C6) *)

Lemma micError_truthy (errorType : string) : truthy (micError errorType) = true.
Proof. reflexivity. Qed.

Lemma gameErrorMessage_truthy (errorType : string) :
  truthy (gameErrorMessage errorType) = true.
Proof. unfold gameErrorMessage. by case_bool_decide. Qed.

(** What the two error handlers leave in the cell [recognitionError]: for
    [no-speech] and [aborted] what was there, for any other type a message
    that is not empty. *)
Lemma recognitionError_after_error (errorType : string) (s : State) :
  (isTransient errorType ->
     handleError errorType s = s
     /\ recognitionError (practiceErrorHandler errorType s) = recognitionError s)
  /\ (~ isTransient errorType ->
        recognitionError (handleError errorType s) = Some (gameErrorMessage errorType)
        /\ recognitionError (practiceErrorHandler errorType s) = Some (micError errorType)
        /\ isSet (recognitionError (handleError errorType s)) = true
        /\ isSet (recognitionError (practiceErrorHandler errorType s)) = true).
Proof.
  unfold isTransient, handleError, practiceErrorHandler, gameErrorMessage. split.
  - intros Htransient. rewrite bool_decide_eq_true_2.
    + split; [done|]. by destruct Htransient as [-> | ->].
    + rewrite !elem_of_cons. tauto.
  - intros Hother. rewrite bool_decide_eq_false_2.
    + assert (errorType <> "no-speech" /\ errorType <> "aborted") as [Hn Ha] by tauto.
      rewrite !(bool_decide_eq_false_2 (errorType = "no-speech")) by done.
      rewrite !(bool_decide_eq_false_2 (errorType = "aborted")) by done.
      cbn. repeat case_bool_decide; cbn; try tauto; by rewrite ?micError_truthy.
    + rewrite !elem_of_cons, elem_of_nil. tauto.
Qed.

Section Shown.

Context (env : Env).

Lemma handle_afterGame (e : event) (s : State) (ai : AiService) :
  afterGame (step s) = true -> afterGame (step (handle env e s ai).1) = true.
Proof.
  intros Hs. destruct e; cbn [handle fst].
  - case_bool_decide as H; [by rewrite H in Hs|done].
  - case_bool_decide as H; [by rewrite H in Hs|done].
  - destruct (step s) eqn:Hstep; try done; cbn; by rewrite Hstep.
  - case_bool_decide as H; [by rewrite H in Hs|done].
  - destruct (hasSpeechSynthesis env); step_cases.
  - unfold aiTurnEffect, speak. repeat case_match; step_cases.
  - step_cases.
  - unfold speechEnded, handleAiTurnEnd. repeat case_match; step_cases.
  - unfold micButtonEnabled. destruct (step s) eqn:Hstep; try done; cbn; by rewrite Hstep.
  - unfold gameRecognizerListens. case_bool_decide as H; [by rewrite H in Hs|].
    by rewrite andb_false_r.
  - unfold gameRecognizerListens. case_bool_decide as H; [by rewrite H in Hs|].
    by rewrite andb_false_r.
  - unfold gameRecognizerListens. case_bool_decide as H; [by rewrite H in Hs|].
    by rewrite andb_false_r.
  - unfold gameRecognizerListens. case_bool_decide as H; [by rewrite H in Hs|].
    by rewrite andb_false_r.
  - case_bool_decide; [|done]. unfold analyzeAllDialog.
    destruct (analyzeTurns env _ _ ai) as [[e|ws] ai']; cbn; [done|].
    by case_bool_decide.
  - case_bool_decide as H; [|done]. unfold preparePractice.
    case_bool_decide; cbn; [done|].
    by destruct (phoneticBreakdowns env _ _ ai) as [[e|ws] ai'].
  - unfold handlePracticeMicClick. repeat case_match; step_cases.
  - unfold practiceResultHandler. repeat case_match; step_cases.
  - unfold practiceErrorHandler. repeat case_match; step_cases.
  - unfold practiceEndHandler. repeat case_match; step_cases.
  - unfold practiceTimerFired, practiceAdvance, onComplete. repeat case_match; step_cases.
  - unfold pronounceWord. repeat case_match; step_cases.
  - unfold onComplete. repeat case_match; step_cases.
Qed.

Lemma run_afterGame (es : list event) (st : State * AiService) :
  afterGame (step st.1) = true -> afterGame (step (run env es st).1) = true.
Proof.
  revert st. induction es as [|e es IH]; intros st Hst; [done|].
  cbn [run fold_left]. fold (run env es (dispatch env e st)). apply IH.
  unfold dispatch. pose proof (handle_afterGame e st.1 st.2 Hst) as Hstep.
  destruct (handle env e st.1 st.2) as [s' ai']. cbn [fst] in *.
  unfold recognitionEffect. destruct (_ && _); [by destruct s'|done].
Qed.

Lemma shownRecognitionError_afterGame (s : State) :
  afterGame (step s) = true -> shownRecognitionError s = None.
Proof.
  unfold shownRecognitionError, gameScreenRendered. by destruct (step s).
Qed.

(** C6.  An error of type [no-speech] or [aborted] sets no message, in
    either recognizer.  An error of another type in the game recognizer sets
    a message that the game screen shows.  In the practice recognizer it
    also sets [recognitionError], but nothing shows it: the practice screen
    does not read that cell, and the game screen, which does, is not shown
    again.  The user of the practice never sees the message. *)
Theorem recognition_error_is_shown_in_the_game_only (errorType : string) (s : State) :
  (isTransient errorType ->
     handleError errorType s = s
     /\ recognitionError (practiceErrorHandler errorType s) = recognitionError s)
  /\ (~ isTransient errorType ->
        (gameScreenRendered s = true ->
         shownRecognitionError (handleError errorType s) = Some (gameErrorMessage errorType))
        /\ (step s = PRACTICE ->
            recognitionError (practiceErrorHandler errorType s) = Some (micError errorType)
            /\ forall es ai,
                 shownRecognitionError
                   (run env es (practiceErrorHandler errorType s, ai)).1 = None)).
Proof.
  destruct (recognitionError_after_error errorType s)
    as [Htransient Hother].
  split; [done|]. intros Hnot.
  destruct (Hother Hnot) as (Hgame & Hpractice & Hset & _). split.
  - intros Hrendered. unfold shownRecognitionError.
    assert (gameScreenRendered (handleError errorType s) = gameScreenRendered s) as ->.
    { unfold handleError. repeat case_match; step_cases. }
    by rewrite Hrendered, Hset.
  - intros Hstep. split; [done|]. intros es ai.
    apply shownRecognitionError_afterGame, run_afterGame. cbn [fst].
    assert (step (practiceErrorHandler errorType s) = step s) as ->.
    { unfold practiceErrorHandler. repeat case_match; step_cases. }
    by rewrite Hstep.
Qed.

End Shown.

Lemma recognition_error_is_shown_in_the_game_only_witness :
  let s' := practiceErrorHandler "network" demoPractice in
  ~ isTransient "network"
  /\ gameScreenRendered demoGame = true
  /\ step demoPractice = PRACTICE
  /\ shownRecognitionError (handleError "network" demoGame) = Some (micError "network")
  /\ recognitionError s' = Some (micError "network")
  /\ shownRecognitionError s' = None
  /\ practiceStatus (practiceEndHandler s') = IDLE
  /\ shownRecognitionError
       (run demoEnv [PracticeEnd; PracticeMicClick Started] (s', failingService)).1 = None.
Proof.
  assert (~ isTransient "network") as Hother by (intros [Heq|Heq]; discriminate Heq).
  destruct (recognition_error_is_shown_in_the_game_only demoEnv "network" demoGame)
    as [_ Hgame].
  destruct (recognition_error_is_shown_in_the_game_only demoEnv "network" demoPractice)
    as [_ Hpractice].
  destruct (Hgame Hother) as [Hshown _].
  destruct (Hpractice Hother) as [_ Hhidden].
  destruct (Hhidden eq_refl) as [Hcell Hnever].
  split; [exact Hother|]. split; [reflexivity|]. split; [reflexivity|].
  split; [exact (Hshown eq_refl)|]. split; [exact Hcell|].
  split; [exact (Hnever [] failingService)|]. split; [reflexivity|].
  exact (Hnever [PracticeEnd; PracticeMicClick Started] failingService).
Defined.

(** ** Walking the script (C7) *)

Section Turns.

Context (env : Env).

Lemma aiTurnEffect_speaks (s : State) (character line : value) :
  standsOnLine s character line ->
  strictEquals character (selectedCharacter s) = false ->
  aiTurnEffect env s = speak env line (currentTurn s) (length (script s)) s.
Proof.
  intros (Hstep & Herror & Hspeaking & _ & _ & item & Hitem & Hcharacter & Hline) Hai.
  unfold aiTurnEffect, currentLineOfGame. rewrite Hstep, Herror, Hspeaking.
  rewrite bool_decide_eq_false_2; [|by intros Hnil; rewrite Hnil in Hitem].
  cbn. by rewrite Hitem, Hcharacter, Hline, Hai.
Qed.

Lemma aiTurn_advances (s : State) (character line : value) :
  standsOnLine s character line ->
  strictEquals character (selectedCharacter s) = false ->
  (cannotSpeak env s = false ->
     speechLog (aiTurnEffect env s)
     = speechLog s ++ [Utterance line (chooseVoice env (voices s))]
     /\ advanced s (aiTurn env s))
  /\ (cannotSpeak env s = true ->
      forall delay, silentDelay line = Some delay ->
        speechLog (aiTurnEffect env s) = speechLog s ++ [SilentTimer line delay]
        /\ advanced s (aiTurn env s))
  /\ (cannotSpeak env s = true -> silentDelay line = None -> aiTurn env s = s)
  /\ userDialog (aiTurn env s) = userDialog s
  /\ script (aiTurn env s) = script s.
Proof.
  intros Hline Hai. unfold aiTurn.
  rewrite (aiTurnEffect_speaks s character line Hline Hai).
  destruct Hline as (Hstep & _ & _ & _ & Hpending & _).
  unfold speak, advanced, speechEnded.
  destruct (cannotSpeak env s); [destruct (silentDelay line) as [delay|]|];
    cbn; rewrite Hpending; cbn; unfold handleAiTurnEnd;
    destruct (beforeLast _ _); cbn; repeat split; try done;
    intros; simplify_eq; auto.
Qed.



(** Without synthesis or voices, a line that is [null] makes
    [text.length] throw; no timer is started and the turn of the AI never
    comes to an end. *)
Lemma ai_turn_on_null_line_is_lost (s : State) (character : value) :
  standsOnLine s character VNull ->
  strictEquals character (selectedCharacter s) = false ->
  cannotSpeak env s = true ->
  aiTurn env s = s.
Proof.
  intros Hline Hai Hmute.
  by destruct (aiTurn_advances s character VNull Hline Hai) as (_ & _ & Hlost & _);
    apply Hlost.
Qed.

End Turns.



(** A turn that is disturbed.  The voices arrive while the silent timer of
    the first line is running; the effect runs again and speaks the line,
    and both ends count: the game is on the third line, and the turn of the
    user in between was never played. *)
Lemma late_voices_skip_a_turn :
  let s := (run demoEnv
              [SceneSelect "Shopkeeper and Customer"; CharacterSelect "Customer";
               AiTurnTimeout; VoicesChanged [demoVoice]; AiTurnTimeout; UtteranceStart;
               SpeechEnd 0; SpeechEnd 0]
              (mount demoEnv, scriptService)).1 in
  step s = GAME /\ currentTurn s = 2%nat /\ userDialog s = []
  /\ speechLog s
     = [SilentTimer (VStr "Good morning! How can I help you?") (Millis 1650);
        Utterance (VStr "Good morning! How can I help you?") (Some demoVoice)].
Proof. vm_compute. repeat split; reflexivity. Qed.


(** ** The script stays as generated (C8) *)

Section Script.

Context (env : Env).

Lemma script_recognitionEffect (before after : State) :
  script (recognitionEffect env before after) = script after
  /\ step (recognitionEffect env before after) = step after.
Proof. unfold recognitionEffect. by destruct (_ && _). Qed.

Lemma script_analyzeAllDialog (s : State) (ai : AiService) :
  script (analyzeAllDialog env s ai).1 = script s.
Proof.
  unfold analyzeAllDialog. by destruct (analyzeTurns env _ _ ai) as [[e|ws] ai'].
Qed.

Lemma script_preparePractice (s : State) (ai : AiService) :
  script (preparePractice env s ai).1 = script s.
Proof.
  unfold preparePractice. case_bool_decide; [done|].
  by destruct (phoneticBreakdowns env _ _ ai) as [[e|ws] ai'].
Qed.

Lemma script_handleEnd (s : State) : script (handleEnd s) = script s.
Proof.
  unfold handleEnd, processUserTurn. cbn.
  destruct (wasStoppedIntentionally s && negb (hasProcessedTurn s)); [|done].
  destruct (hasProcessedTurn s); [done|]. cbn.
  destruct (script s !! currentTurn s ≫= getProperty "line"); [|done].
  by destruct (beforeLast _ _).
Qed.

Lemma script_speechEnded (i : nat) (s : State) : script (speechEnded i s) = script s.
Proof.
  unfold speechEnded, handleAiTurnEnd. destruct (pendingTurnEnd s !! i) as [k|]; [|done].
  by destruct (turnEnd_utterance k), (beforeLast _ _).
Qed.

Lemma script_aiTurnEffect (s : State) : script (aiTurnEffect env s) = script s.
Proof.
  unfold aiTurnEffect, speak. destruct (currentLineOfGame s) as [currentLine|]; [|done].
  destruct (getProperty "character" currentLine) as [character|]; [|done].
  destruct (getProperty "line" currentLine) as [line|]; [|done].
  by destruct (strictEquals _ _), (cannotSpeak env s), (silentDelay line).
Qed.

Lemma script_handle (e : event) (s : State) (ai : AiService) :
  keepsGeneration e -> script (handle env e s ai).1 = script s.
Proof.
  intros Hkeeps. destruct e; cbn [handle fst];
    try (exfalso; by eapply Hkeeps);
    repeat case_match; cbn [fst];
    auto using script_aiTurnEffect, script_speechEnded, script_handleEnd,
      script_analyzeAllDialog, script_preparePractice;
    unfold handleMicButtonClick, startRecognition, handleResult, handleError,
      handlePracticeMicClick, practiceResultHandler, practiceErrorHandler,
      practiceEndHandler, practiceTimerFired, practiceAdvance, pronounceWord;
    repeat case_match; done.
Qed.

Lemma script_dispatch (e : event) (st : State * AiService) :
  keepsGeneration e -> script (dispatch env e st).1 = script st.1.
Proof.
  intros Hkeeps. unfold dispatch.
  pose proof (script_handle e st.1 st.2 Hkeeps) as Hscript.
  destruct (handle env e st.1 st.2) as [s' ai']. cbn [fst] in *.
  by rewrite (proj1 (script_recognitionEffect _ _)).
Qed.

(** C8.  Once a script is generated and the step is [GAME], whatever
    happens in the session, the script stays the same list, with the same
    length and the same entries, as long as no character is chosen anew. *)
Theorem script_is_immutable (es : list event) (s : State) (ai : AiService) :
  step s = GAME ->
  Forall keepsGeneration es ->
  script (run env es (s, ai)).1 = script s.
Proof.
  intros _ Hes. change (script s) with (script (s, ai).1).
  generalize (s, ai). clear s ai.
  induction Hes as [|e es He _ IH]; intros st; [done|].
  cbn [run fold_left]. fold (run env es (dispatch env e st)).
  rewrite IH. by apply script_dispatch.
Qed.

Lemma step_handleEnd (s : State) :
  fromGameOn (step s) = true -> fromGameOn (step (handleEnd s)) = true.
Proof.
  unfold handleEnd, processUserTurn. cbn.
  destruct (wasStoppedIntentionally s && negb (hasProcessedTurn s)); [|done].
  destruct (hasProcessedTurn s); [done|]. cbn.
  destruct (script s !! currentTurn s ≫= getProperty "line"); [|done].
  by destruct (beforeLast _ _).
Qed.

Lemma step_speechEnded (i : nat) (s : State) :
  fromGameOn (step s) = true -> fromGameOn (step (speechEnded i s)) = true.
Proof.
  unfold speechEnded, handleAiTurnEnd. destruct (pendingTurnEnd s !! i) as [k|]; [|done].
  by destruct (turnEnd_utterance k), (beforeLast _ _).
Qed.

Lemma step_aiTurnEffect (s : State) : step (aiTurnEffect env s) = step s.
Proof.
  unfold aiTurnEffect, speak. destruct (currentLineOfGame s) as [currentLine|]; [|done].
  destruct (getProperty "character" currentLine) as [character|]; [|done].
  destruct (getProperty "line" currentLine) as [line|]; [|done].
  by destruct (strictEquals _ _), (cannotSpeak env s), (silentDelay line).
Qed.

Lemma step_analyzeAllDialog (s : State) (ai : AiService) :
  fromGameOn (step s) = true -> fromGameOn (step (analyzeAllDialog env s ai).1) = true.
Proof.
  intros Hs. destruct (analyzeAllDialog_frame env s ai) as (_ & _ & [-> | [-> | ->]]); done.
Qed.

Lemma step_preparePractice (s : State) (ai : AiService) :
  fromGameOn (step s) = true -> fromGameOn (step (preparePractice env s ai).1) = true.
Proof.
  intros Hs. destruct (preparePractice_frame env s ai) as (_ & _ & [-> | ->]); done.
Qed.

(** From the game on, every event keeps the step at the game or after it
    and the script as it is: the character buttons are gone for good. *)
Lemma handle_fromGameOn (e : event) (s : State) (ai : AiService) :
  fromGameOn (step s) = true ->
  fromGameOn (step (handle env e s ai).1) = true
  /\ script (handle env e s ai).1 = script s.
Proof.
  intros Hs. destruct e; cbn [handle fst];
    repeat case_bool_decide; repeat case_match; cbn [fst];
    try (match goal with H : step s = _ |- _ => rewrite H in Hs; discriminate Hs end);
    (split;
     [ rewrite ?step_aiTurnEffect;
       auto using step_handleEnd, step_speechEnded, step_analyzeAllDialog,
         step_preparePractice
     | auto using script_aiTurnEffect, script_speechEnded, script_handleEnd,
         script_analyzeAllDialog, script_preparePractice ]);
    unfold handleMicButtonClick, startRecognition, handleResult, handleError,
      handlePracticeMicClick, practiceResultHandler, practiceErrorHandler,
      practiceEndHandler, practiceTimerFired, practiceAdvance, pronounceWord,
      onComplete;
    repeat case_match; cbn;
    try (match goal with H : step s = _ |- _ => rewrite H end); done.
Qed.

Lemma run_fromGameOn (es : list event) (st : State * AiService) :
  fromGameOn (step st.1) = true ->
  fromGameOn (step (run env es st).1) = true
  /\ script (run env es st).1 = script st.1.
Proof.
  revert st. induction es as [|e es IH]; intros st Hst; [done|].
  cbn [run fold_left]. fold (run env es (dispatch env e st)).
  assert (fromGameOn (step (dispatch env e st).1) = true
          /\ script (dispatch env e st).1 = script st.1) as [Hstep Hscript].
  { unfold dispatch. destruct (handle_fromGameOn e st.1 st.2 Hst) as [Hstep Hscript].
    destruct (handle env e st.1 st.2) as [s' ai']. cbn [fst] in *.
    destruct (script_recognitionEffect st.1 s') as [-> ->]. done. }
  destruct (IH _ Hstep) as [Hstep' Hscript']. split; [done|congruence].
Qed.

End Script.

Lemma script_is_immutable_witness :
  script (run demoEnv
            [AiTurnTimeout; UtteranceStart; SpeechEnd 0; MicButtonClick Started;
             RecognitionStart; RecognitionResult ["I want some apples"];
             MicButtonClick Started; RecognitionEnd; AiTurnTimeout; Finish]
            (demoGame, failingService)).1
  = demoScript.
Proof.
  apply (script_is_immutable demoEnv _ demoGame failingService).
  - reflexivity.
  - repeat constructor; intros character Heq; discriminate Heq.
Defined.

(** ** A turn on which nothing was said (C9) *)

Section SilentTurn.

Context (env : Env).

Lemma trimStart_whiteSpaceOnly (s : string) :
  whiteSpaceOnly s = true -> trimStart s = EmptyString.
Proof.
  induction s as [|c r IH]; cbn; [done|].
  intros [Hc Hr]%andb_prop. rewrite Hc. by apply IH.
Qed.

Lemma trim_whiteSpaceOnly (s : string) :
  whiteSpaceOnly s = true -> trim s = EmptyString.
Proof. intros Hs. unfold trim. by rewrite trimStart_whiteSpaceOnly. Qed.

Lemma split_cons (sep : ascii) (s : string) :
  exists piece pieces, split sep s = piece :: pieces.
Proof.
  induction s as [|c r (piece & pieces & IH)]; cbn; [by eauto|].
  destruct (Ascii.eqb c sep); [by eauto|]. rewrite IH. by eauto.
Qed.

Lemma filter_truthy_cons (piece : string) (pieces : list string) :
  filter truthy (piece :: pieces)
  = (if truthy piece then [piece] else []) ++ filter truthy pieces.
Proof. rewrite filter_cons. by destruct (truthy piece). Qed.

(** On a line whose only white space is the space character, the pieces
    between spaces are the words between white space. *)
Lemma words_go_split (line : string) (cur : option string) :
  spaceIsOnlyWhiteSpace line = true ->
  String.words_go cur line
  = match split " " line with
    | piece :: pieces =>
        match cur with
        | Some c => [String.rev c +:+ piece]
        | None => if truthy piece then [piece] else []
        end ++ filter truthy pieces
    | [] => []
    end.
Proof.
  revert cur. induction line as [|a r IH]; intros cur; cbn [spaceIsOnlyWhiteSpace].
  - intros _. destruct cur as [c|]; cbn; [|done]. by rewrite append_empty_r.
  - intros [Ha Hr]%andb_prop. cbn [String.words_go split].
    destruct (Ascii.eqb_spec a " ") as [-> | Hne].
    + cbn [Ascii.is_space]. rewrite (IH None Hr).
      destruct (split_cons " " r) as (piece & pieces & ->).
      rewrite filter_truthy_cons.
      destruct cur as [c|]; [|done]. by rewrite append_empty_r.
    + apply orb_prop in Ha as [Ha|Ha]; [|done].
      unfold isWhiteSpace in Ha. apply negb_true_iff in Ha. rewrite Ha.
      rewrite (IH _ Hr). destruct (split_cons " " r) as (piece & pieces & ->).
      destruct cur as [c|]; cbn [from_option truthy]; [|done].
      by rewrite rev_cons, append_assoc.
Qed.

(** C9, as amended.  For a transcript that is empty or white space only,
    [analyzeReadingWithAI] returns every non-empty word of the target line
    found between space characters, and makes no AI call.  (On a line with
    no other white space than the space character these are the words
    between white space.) *)
Theorem silent_turn_flags_every_word (spokenText line : string) (ai : AiService) :
  whiteSpaceOnly spokenText = true ->
  analyzeReadingWithAI env spokenText (VStr line) ai
  = (inr (filter truthy (split " " line)), ai)
  /\ (spaceIsOnlyWhiteSpace line = true ->
      filter truthy (split " " line) = whiteSpaceSeparatedWords line).
Proof.
  intros Hsilent. split.
  - unfold analyzeReadingWithAI. by rewrite (trim_whiteSpaceOnly _ Hsilent).
  - intros Hline. unfold whiteSpaceSeparatedWords, String.words.
    rewrite (words_go_split line None Hline).
    destruct (split_cons " " line) as (piece & pieces & ->).
    by rewrite filter_truthy_cons.
Qed.

End SilentTurn.

Lemma silent_turn_flags_every_word_witness :
  analyzeReadingWithAI demoEnv "  " (VStr "I want  some apples please.") failingService
  = (inr ["I"; "want"; "some"; "apples"; "please."], failingService)
  /\ whiteSpaceSeparatedWords "I want  some apples please."
     = ["I"; "want"; "some"; "apples"; "please."].
Proof.
  destruct (silent_turn_flags_every_word demoEnv "  " "I want  some apples please."
              failingService eq_refl) as [Hresult Hwords].
  split; [exact Hresult|]. rewrite <- (Hwords eq_refl). reflexivity.
Defined.

(** C9 as stated fails: a line break separates two words of the line, but
    the code, which splits at space characters only, returns them as one. *)
Lemma line_break_does_not_separate :
  whiteSpaceSeparatedWords twoLines = ["Good"; "morning!"; "Welcome."]
  /\ analyzeReadingWithAI demoEnv EmptyString (VStr twoLines) failingService
     = (inr ["Good"; "morning!" +:+ String (Ascii.ascii_of_N 10) "Welcome."],
        failingService).
Proof. split; reflexivity. Qed.

(** ** Practice words come with phonemes (C10) *)

Section Phonemes.

Context (env : Env).

Lemma practiceWords_generateScript (scene : option string) (character : string)
    (s : State) (ai : AiService) :
  practiceWords (generateScript env scene character s ai).1 = practiceWords s.
Proof.
  unfold generateScript.
  by destruct (requestScript env scene character ai) as [[e|items] ai'].
Qed.

Lemma practiceWords_analyzeAllDialog (s : State) (ai : AiService) :
  practiceWords (analyzeAllDialog env s ai).1 = practiceWords s.
Proof.
  unfold analyzeAllDialog. by destruct (analyzeTurns env _ _ ai) as [[e|ws] ai'].
Qed.

Lemma practiceWords_handleEnd (s : State) :
  practiceWords (handleEnd s) = practiceWords s.
Proof.
  unfold handleEnd, processUserTurn. cbn.
  destruct (wasStoppedIntentionally s && negb (hasProcessedTurn s)); [|done].
  destruct (hasProcessedTurn s); [done|]. cbn.
  destruct (script s !! currentTurn s ≫= getProperty "line"); [|done].
  by destruct (beforeLast _ _).
Qed.

Lemma practiceWords_speechEnded (i : nat) (s : State) :
  practiceWords (speechEnded i s) = practiceWords s.
Proof.
  unfold speechEnded, handleAiTurnEnd. destruct (pendingTurnEnd s !! i) as [k|]; [|done].
  by destruct (turnEnd_utterance k), (beforeLast _ _).
Qed.

Lemma practiceWords_aiTurnEffect (s : State) :
  practiceWords (aiTurnEffect env s) = practiceWords s.
Proof.
  unfold aiTurnEffect, speak. destruct (currentLineOfGame s) as [currentLine|]; [|done].
  destruct (getProperty "character" currentLine) as [character|]; [|done].
  destruct (getProperty "line" currentLine) as [line|]; [|done].
  by destruct (strictEquals _ _), (cannotSpeak env s), (silentDelay line).
Qed.

(** [preparePractice] is the only writer of [practiceWords], and what it
    writes went through its filter. *)
Lemma preparePractice_hasPhonemes (s : State) (ai : AiService) :
  Forall hasPhonemes (practiceWords s) ->
  Forall hasPhonemes (practiceWords (preparePractice env s ai).1).
Proof.
  intros Hs. unfold preparePractice. case_bool_decide; [done|].
  destruct (phoneticBreakdowns env _ _ ai) as [[e|data] ai']; [done|]. cbn.
  apply Forall_forall. intros p [Hp _]%list_elem_of_filter.
  unfold hasPhonemes. destruct (phonemes p); [|done]. cbn in Hp. lia.
Qed.

Lemma handle_hasPhonemes (e : event) (s : State) (ai : AiService) :
  Forall hasPhonemes (practiceWords s) ->
  Forall hasPhonemes (practiceWords (handle env e s ai).1).
Proof.
  intros Hs. destruct e; cbn [handle fst];
    repeat case_bool_decide; repeat case_match; cbn [fst];
    auto using preparePractice_hasPhonemes;
    unfold handleCharacterSelect;
    rewrite ?practiceWords_generateScript, ?practiceWords_analyzeAllDialog,
      ?practiceWords_handleEnd, ?practiceWords_speechEnded,
      ?practiceWords_aiTurnEffect;
    try done;
    unfold handleMicButtonClick, startRecognition, handleResult, handleError,
      handlePracticeMicClick, practiceResultHandler, practiceErrorHandler,
      practiceEndHandler, practiceTimerFired, practiceAdvance, pronounceWord;
    repeat case_match; done.
Qed.

Lemma run_hasPhonemes (es : list event) (st : State * AiService) :
  Forall hasPhonemes (practiceWords st.1) ->
  Forall hasPhonemes (practiceWords (run env es st).1).
Proof.
  revert st. induction es as [|e es IH]; intros st Hst; [done|].
  cbn [run fold_left]. fold (run env es (dispatch env e st)).
  apply IH. unfold dispatch.
  pose proof (handle_hasPhonemes e st.1 st.2 Hst) as Hhandled.
  destruct (handle env e st.1 st.2) as [s' ai']. cbn [fst] in *.
  unfold recognitionEffect. by destruct (_ && _).
Qed.

(** C10.  In every state a session can reach, and so whenever the step is
    [PRACTICE], every practice word has a non-empty list of phonemes:
    [getPhoneticBreakdown] returns the word itself as its only phoneme
    whenever the AI call fails or returns anything but an array of strings,
    and [preparePractice] keeps, on entering [PRACTICE], only the entries
    whose phoneme list is not empty. *)
Theorem practice_words_have_phonemes
    (es : list event) (ai ai2 : AiService) (w : string) (s : State) :
  Forall hasPhonemes (practiceWords (run env es (mount env, ai)).1)
  /\ (noStringArrayNext env ai2 -> (getPhoneticBreakdown env w ai2).1 = inr [w])
  /\ (step s <> PRACTICE ->
      step (preparePractice env s ai2).1 = PRACTICE ->
      Forall hasPhonemes (practiceWords (preparePractice env s ai2).1)).
Proof.
  split; [by apply run_hasPhonemes|].
  split; [apply getPhoneticBreakdown_failure|].
  intros Hbefore Hafter.
  destruct (preparePractice_enters env s ai2 Hbefore Hafter) as (data & _ & ->).
  apply Forall_forall. intros p [Hp _]%list_elem_of_filter.
  unfold hasPhonemes. destruct (phonemes p); [|done]. cbn in Hp. lia.
Qed.

End Phonemes.

Lemma practice_words_have_phonemes_witness :
  let s := (run demoEnv demoSession (mount demoEnv, demoService)).1 in
  step s = PRACTICE
  /\ practiceWords s
     = [{| word := "apples"; phonemes := ["ah"; "pulz"] |};
        {| word := "please."; phonemes := ["please."] |}]
  /\ Forall hasPhonemes (practiceWords s)
  /\ (getPhoneticBreakdown demoEnv "please." failingService).1 = inr ["please."].
Proof.
  destruct (practice_words_have_phonemes demoEnv demoSession demoService
              failingService "please." (mount demoEnv)) as (Hwords & Hfallback & _).
  split; [vm_compute; reflexivity|]. split; [vm_compute; reflexivity|].
  split; [exact Hwords|exact (Hfallback failingService_noStringArray)].
Defined.

(** * Further properties *)

(** ** The application around the game *)

(** The events of [n] played levels: each ends with [onComplete], whatever
    its argument, and a click on the button of the next level. *)
Fixpoint playedLevels (successes : list bool) : list appEvent :=
  match successes with
  | [] => []
  | success :: rest => GameComplete success :: PlayAgain :: playedLevels rest
  end.

(** The effect on the permission changes nothing a screen shows. *)
Lemma screen_permissionEffect (before after : AppState) :
  screen (permissionEffect before after) = screen after.
Proof. unfold permissionEffect. by destruct (_ && _). Qed.

Lemma screen_Game_inv (a : AppState) (key g l : Z) (lang : string) :
  screen a = Game key g l lang ->
  app_userGrade a = Some g /\ (g =? 0) = false
  /\ app_selectedLanguage a = Some lang /\ truthy lang = true
  /\ app_micPermissionGranted a = true /\ app_isFinished a = false
  /\ app_gameKey a = key /\ app_currentLevel a = l.
Proof.
  unfold screen, noGrade.
  destruct (app_userGrade a) as [g0|], (app_selectedLanguage a) as [l0|]; try done;
    destruct (g0 =? 0) eqn:Hg; try done.
  destruct (truthy l0) eqn:Hl, (app_micPermissionGranted a), (app_isFinished a);
    try done.
  cbn. intros [= <- <- <- <-]. by repeat split.
Qed.

Lemma appHandler_GameComplete (success : bool) (a : AppState) :
  appHandler (GameComplete success) a = handleFinish success a.
Proof. unfold appHandler. by destruct (screen a). Qed.

Lemma app_one_level (a : AppState) (key g l : Z) (lang : string) (success : bool) :
  screen a = Game key g l lang ->
  screen (appHandle (GameComplete success) a) = LevelComplete l (l + 1)
  /\ screen (appHandle PlayAgain (appHandle (GameComplete success) a))
     = Game (key + 1) g (l + 1) lang.
Proof.
  intros (Hgrade & Hg & Hlang & Htruthy & Hmic & Hfinished & Hkey & Hlevel)%screen_Game_inv.
  assert (screen (handleFinish success a) = LevelComplete l (l + 1)) as Hdone.
  { unfold handleFinish, screen, noGrade.
    cbn [app_userGrade app_selectedLanguage app_micPermissionGranted app_isFinished
         app_currentLevel app_gameKey].
    rewrite Hgrade, Hlang, Hg, Htruthy, Hmic, Hlevel. cbn [negb]. f_equal. lia. }
  unfold appHandle. rewrite !screen_permissionEffect, appHandler_GameComplete.
  split; [done|].
  unfold appHandler.
  rewrite screen_permissionEffect, Hdone.
  unfold handlePlayAgain, permissionEffect, handleFinish, screen, noGrade.
  destruct (_ && _);
    cbn [app_userGrade app_selectedLanguage app_micPermissionGranted app_isFinished
         app_currentLevel app_gameKey];
    rewrite Hgrade, Hlang, Hg, Htruthy, Hmic, Hlevel, Hkey; reflexivity.
Qed.

(** X1.  While the game is shown, every completed level raises the level by
    one and gives the next game a new key, whatever [success] the game
    reports; the screen in between names the level just played and the
    next one. *)
Theorem app_levels_go_up (successes : list bool) (a : AppState)
    (key g l : Z) (lang : string) :
  screen a = Game key g l lang ->
  screen (appRun (playedLevels successes) a)
  = Game (key + Z.of_nat (length successes)) g (l + Z.of_nat (length successes)) lang
  /\ forall success,
       screen (appHandle (GameComplete success) a) = LevelComplete l (l + 1).
Proof.
  intros Hgame. split; [|intros success; by apply (app_one_level a key g l lang)].
  revert a key l Hgame. induction successes as [|success rest IH]; intros a key l Hgame.
  - cbn. rewrite Hgame. f_equal; lia.
  - cbn [playedLevels appRun fold_left].
    destruct (app_one_level a key g l lang success Hgame) as [_ Hnext].
    fold (appRun (playedLevels rest)
            (appHandle PlayAgain (appHandle (GameComplete success) a))).
    rewrite (IH _ _ _ Hnext). cbn [length]. f_equal; lia.
Qed.

Lemma app_levels_go_up_witness :
  screen (appRun (playedLevels [true; false; true])
            (appRun [GradeSelect 3; LanguageSelect "en"; PermissionGranted] appMount))
  = Game 3 3 4 "en".
Proof.
  assert (screen (appRun [GradeSelect 3; LanguageSelect "en"; PermissionGranted] appMount)
          = Game 0 3 1 "en") as Hgame by (vm_compute; reflexivity).
  exact (proj1 (app_levels_go_up [true; false; true] _ 0 3 1 "en" Hgame)).
Defined.

(** X2.  A grade chosen on the grade screen starts over: whatever was
    played before, the game that follows the choice of a language and the
    permission runs at level 1 with key 0.  The grade 0 counts as no grade
    and leaves the grade screen up. *)
Theorem app_grade_starts_over (a : AppState) (g : Z) (lang : string) :
  screen a = GradeSelectionScreen ->
  (g <> 0 -> truthy lang = true ->
   screen (appRun [GradeSelect g; LanguageSelect lang; PermissionGranted] a)
   = Game 0 g 1 lang)
  /\ screen (appHandle (GradeSelect 0) a) = GradeSelectionScreen.
Proof.
  intros Hgrade. split.
  - intros Hg Hlang. apply Z.eqb_neq in Hg.
    unfold appRun, fold_left, appHandle. rewrite !screen_permissionEffect.
    set (a1 := permissionEffect a (appHandler (GradeSelect g) a)).
    assert (screen a1 = LanguageSelectionScreen /\ app_userGrade a1 = Some g
            /\ app_currentLevel a1 = 1 /\ app_gameKey a1 = 0
            /\ app_isFinished a1 = false /\ app_micPermissionGranted a1 = false)
      as (Hscreen1 & Hgrade1 & Hlevel1 & Hkey1 & Hfinished1 & Hmic1).
    { unfold a1, appHandler. rewrite Hgrade.
      unfold permissionEffect, handleSetGrade, screen, noGrade.
      cbn [app_userGrade app_selectedLanguage app_micPermissionGranted app_isFinished
           app_currentLevel app_gameKey isSet].
      rewrite andb_false_r. cbn [andb]. cbn [app_userGrade app_selectedLanguage
           app_micPermissionGranted app_isFinished app_currentLevel app_gameKey].
      by rewrite Hg. }
    clearbody a1.
    set (a2 := permissionEffect a1 (appHandler (LanguageSelect lang) a1)).
    assert (screen a2 = PermissionScreen /\ app_userGrade a2 = Some g
            /\ app_selectedLanguage a2 = Some lang
            /\ app_currentLevel a2 = 1 /\ app_gameKey a2 = 0
            /\ app_isFinished a2 = false)
      as (Hscreen2 & Hgrade2 & Hlang2 & Hlevel2 & Hkey2 & Hfinished2).
    { unfold a2, appHandler. rewrite Hscreen1.
      unfold permissionEffect, handleLanguageSelect, screen, noGrade.
      destruct (_ && _);
        cbn [app_userGrade app_selectedLanguage app_micPermissionGranted app_isFinished
             app_currentLevel app_gameKey];
        by rewrite Hgrade1, Hg, Hlang, Hmic1. }
    clearbody a2.
    unfold appHandler. rewrite Hscreen2.
    unfold handlePermissionGranted, screen, noGrade.
    cbn [app_userGrade app_selectedLanguage app_micPermissionGranted app_isFinished
         app_currentLevel app_gameKey].
    by rewrite Hgrade2, Hlang2, Hg, Hlang, Hfinished2, Hkey2, Hlevel2.
  - unfold appHandle. rewrite screen_permissionEffect. unfold appHandler.
    by rewrite Hgrade.
Qed.

Lemma app_grade_starts_over_witness :
  screen (appRun [GradeSelect 2; LanguageSelect "hi"; PermissionGranted]
            (appHandle GameBackToGrades
               (appRun (playedLevels [true; true])
                  (appRun [GradeSelect 3; LanguageSelect "en"; PermissionGranted]
                     appMount))))
  = Game 0 2 1 "hi".
Proof.
  assert (screen (appHandle GameBackToGrades
                    (appRun (playedLevels [true; true])
                       (appRun [GradeSelect 3; LanguageSelect "en"; PermissionGranted]
                          appMount)))
          = GradeSelectionScreen) as Hgrades by (vm_compute; reflexivity).
  refine (proj1 (app_grade_starts_over _ 2 "hi" Hgrades) _ _); [lia|reflexivity].
Defined.

(** ** The request of a script *)

Section Request.

Context (env : Env).

(** X3.  The level picks its hint from the hints of the grade going round:
    from level 1 on there always is one, level [l] takes the hint at
    position [(l - 1) mod n] of the [n] hints, and the levels [l] and
    [l + n] take the same. *)
Theorem levelHint_goes_round (gradeData : Grade) (l : Z) :
  level_progression_hint gradeData <> [] ->
  1 <= l ->
  let n := Z.of_nat (length (level_progression_hint gradeData)) in
  levelHintOf l gradeData = level_progression_hint gradeData !! Z.to_nat ((l - 1) mod n)
  /\ is_Some (levelHintOf l gradeData)
  /\ levelHintOf (l + n) gradeData = levelHintOf l gradeData.
Proof.
  intros Hhints Hl n.
  assert (0 < n) as Hn.
  { unfold n. destruct (level_progression_hint gradeData); [done|]. cbn. lia. }
  assert (forall k, 1 <= k ->
            levelHintOf k gradeData
            = level_progression_hint gradeData !! Z.to_nat ((k - 1) mod n)) as Hround.
  { intros k Hk. unfold levelHintOf. fold n.
    rewrite (proj2 (Z.eqb_neq n 0)) by lia.
    rewrite Z.rem_mod_nonneg by lia.
    rewrite (proj2 (Z.ltb_ge _ 0)); [done|]. apply Z.mod_pos_bound. lia. }
  split; [by apply Hround|]. split.
  - rewrite Hround by done. apply lookup_lt_is_Some.
    pose proof (Z.mod_pos_bound (l - 1) n Hn). unfold n in *. lia.
  - rewrite !Hround by lia. do 2 f_equal.
    replace (l + n - 1) with (l - 1 + 1 * n) by lia. apply Z.mod_add. lia.
Qed.

(** X4.  When the preparation of the request goes through, the AI is given
    a character of the scene other than the one the user chose, the grade
    of the user has guidelines, and the level named in the request is that
    of the hint of the current level. *)
Theorem scriptRequest_sound (scene character : string) (req : ai_request) :
  scriptRequest env (Some scene) character = inr req ->
  exists aiCharacter gradeData levelHint,
    req = ScriptRequest scene character aiCharacter (userGrade env) (level levelHint)
    /\ aiCharacter ∈ TALKERS_CAVE_SCENES env scene
    /\ aiCharacter <> character
    /\ aiCharacter <> EmptyString
    /\ gradeData ∈ grades env
    /\ grade gradeData = userGrade env
    /\ levelHintOf (currentLevel env) gradeData = Some levelHint.
Proof.
  unfold scriptRequest.
  destruct (List.find _ (TALKERS_CAVE_SCENES env scene)) as [[|c r]|] eqn:Hai; try done.
  destruct (List.find _ (grades env)) as [gradeData|] eqn:Hgrade; [|done].
  destruct (levelHintOf (currentLevel env) gradeData) as [levelHint|] eqn:Hhint; [|done].
  intros [= <-]. exists (String c r), gradeData, levelHint.
  apply find_some in Hai as [Hin Hne]. apply find_some in Hgrade as [Hing Heq].
  apply negb_true_iff, bool_decide_eq_false in Hne. apply Z.eqb_eq in Heq.
  by rewrite <- !list_elem_of_In in *.
Qed.

(** What [generateScript] leaves when it fails: the error of the [catch]
    block, and the script and the turn as they were. *)
Definition scriptRefused (s s' : State) : Prop :=
  scriptErrorShown s' /\ script s' = script s /\ currentTurn s' = currentTurn s.

(** X5.  [generateScript] ends in one of two ways.  Either the game starts:
    then the request was prepared, the service was called once and answered
    with a well-formed script, which is now the script, at turn 0 and with
    no error shown.  Or the script is refused: the error is shown on the
    character screen, the script and the turn are as before; and when the
    preparation of the request failed, the service was not called. *)
Theorem generateScript_outcomes (scene : option string) (character : string)
    (s : State) (ai : AiService) :
  let s' := (generateScript env scene character s ai).1 in
  let ai' := (generateScript env scene character s ai).2 in
  (step s' = GAME
   /\ exists req text items,
        scriptRequest env scene character = inr req
        /\ replyOf ai (length (calls ai)) = AiResponds text
        /\ validScript (extractJson (JSON_parse env) text) items
        /\ script s' = items /\ currentTurn s' = 0%nat /\ error s' = None
        /\ calls ai' = calls ai ++ [req])
  \/ (scriptRefused s s'
      /\ forall e, scriptRequest env scene character = inl e -> ai' = ai).
Proof.
  unfold generateScript, requestScript.
  destruct (scriptRequest env scene character) as [e|req] eqn:Hreq; cbn.
  { right. split; [|done]. split; [apply scriptFailed_shown|]. by destruct e. }
  unfold bind, generateContent.
  destruct (replyOf ai (length (calls ai))) as [e|text] eqn:Hreply.
  { right. split; [|done]. split; [apply scriptFailed_shown|]. by destruct e. }
  destruct (checkScript env _ _) as [[e|items] ai'] eqn:Hcheck.
  { right. split; [|done]. split; [apply scriptFailed_shown|]. by destruct e. }
  left. split; [done|]. exists req, text, items.
  pose proof (checkScript_inv env _ _ _ _ Hcheck) as Hvalid.
  rewrite (checkScript_valid env _ items _ Hvalid) in Hcheck.
  injection Hcheck as <-. done.
Qed.

End Request.

Lemma levelHint_goes_round_witness :
  levelHintOf 4 {| grade := 1;
                   level_progression_hint :=
                     [{| level := 1; target_word_count := 12; sentence_types_hint := [] |};
                      {| level := 2; target_word_count := 16; sentence_types_hint := [] |}] |}
  = Some {| level := 2; target_word_count := 16; sentence_types_hint := [] |}.
Proof.
  refine (eq_trans (proj1 (levelHint_goes_round _ 4 _ _)) _);
    [discriminate|lia|reflexivity].
Defined.

Lemma scriptRequest_sound_witness :
  exists aiCharacter gradeData levelHint,
    ScriptRequest "Shopkeeper and Customer" "Customer" "Shopkeeper" 1 1
    = ScriptRequest "Shopkeeper and Customer" "Customer" aiCharacter
        (userGrade demoEnv) (level levelHint)
    /\ aiCharacter ∈ TALKERS_CAVE_SCENES demoEnv "Shopkeeper and Customer"
    /\ aiCharacter <> "Customer"
    /\ aiCharacter <> EmptyString
    /\ gradeData ∈ grades demoEnv
    /\ grade gradeData = userGrade demoEnv
    /\ levelHintOf (currentLevel demoEnv) gradeData = Some levelHint.
Proof.
  apply (scriptRequest_sound demoEnv "Shopkeeper and Customer" "Customer"). reflexivity.
Defined.

(** ** The voice of an utterance *)

(** The language tag [speak] and [pronounceWord] look for. *)
Definition voiceLangOf (env : Env) : string :=
  if bool_decide (language env = "hi") then "hi-IN" else "en-IN".

(** A voice [speak] can fall back on: its language starts with the language
    of the game or with [en]. *)
Definition isFallbackVoice (env : Env) (v : Voice) : bool :=
  String.prefix (language env) (lang v) || String.prefix "en" (lang v).

Section Voices.

Context (env : Env).

Lemma find_is_Some {A : Type} (f : A -> bool) (l : list A) (x : A) :
  x ∈ l -> f x = true -> exists y, List.find f l = Some y.
Proof.
  intros Hx Hf. destruct (List.find f l) as [y|] eqn:Hfind; [by eauto|].
  apply list_elem_of_In in Hx. pose proof (find_none f l Hfind x Hx). congruence.
Qed.

(** X6.  The voice given to an utterance is always one of the loaded
    voices.  If a voice of the wanted language tag is loaded, the chosen
    voice has that tag, and it is a Google voice if one with that tag is
    loaded.  No voice is set exactly when no loaded voice has the tag or a
    language starting with the language of the game or with [en]. *)
Theorem chooseVoice_preference (vs : list Voice) :
  (forall v, chooseVoice env vs = Some v -> v ∈ vs)
  /\ (forall w, w ∈ vs -> lang w = voiceLangOf env ->
        exists v, chooseVoice env vs = Some v /\ lang v = voiceLangOf env
                  /\ (includes "Google" (name w) = true ->
                      includes "Google" (name v) = true))
  /\ (chooseVoice env vs = None <->
      forall w, w ∈ vs -> lang w <> voiceLangOf env /\ isFallbackVoice env w = false).
Proof.
  unfold chooseVoice, firstOr. fold (voiceLangOf env).
  set (google := fun v : Voice =>
         bool_decide (lang v = voiceLangOf env) && includes "Google" (name v)).
  set (tagged := fun v : Voice => bool_decide (lang v = voiceLangOf env)).
  set (own := fun v : Voice => String.prefix (language env) (lang v)).
  set (english := fun v : Voice => String.prefix "en" (lang v)).
  assert (forall (f : Voice -> bool) v, List.find f vs = Some v -> v ∈ vs /\ f v = true)
    as Hsome.
  { intros f v Hfind. apply find_some in Hfind as [Hin Hf].
    by rewrite list_elem_of_In. }
  assert (forall (f : Voice -> bool), List.find f vs = None ->
            forall w, w ∈ vs -> f w = false) as Hnone.
  { intros f Hfind w Hw. apply (find_none f vs Hfind). by apply list_elem_of_In. }
  split; [|split].
  - intros v.
    destruct (List.find google vs) eqn:H1; [intros [= <-]; by apply (Hsome google)|].
    destruct (List.find tagged vs) eqn:H2; [intros [= <-]; by apply (Hsome tagged)|].
    destruct (List.find own vs) eqn:H3; [intros [= <-]; by apply (Hsome own)|].
    intros H4. by apply (Hsome english).
  - intros w Hw Htag.
    destruct (List.find google vs) as [v|] eqn:H1.
    { exists v. split; [done|]. apply Hsome in H1 as [_ Hv]. unfold google in Hv.
      apply andb_prop in Hv as [Hv1 Hv2]. by apply bool_decide_eq_true in Hv1. }
    destruct (find_is_Some tagged vs w Hw) as [v H2].
    { by apply bool_decide_eq_true. }
    rewrite H2. exists v. split; [done|]. apply Hsome in H2 as [_ Hv].
    apply bool_decide_eq_true in Hv. split; [done|]. intros Hgoogle.
    pose proof (Hnone google H1 w Hw) as Hw'. unfold google in Hw'.
    by rewrite bool_decide_eq_true_2, Hgoogle in Hw'.
  - split.
    + destruct (List.find google vs) eqn:H1; [done|].
      destruct (List.find tagged vs) eqn:H2; [done|].
      destruct (List.find own vs) eqn:H3; [done|].
      intros H4 w Hw.
      pose proof (Hnone tagged H2 w Hw) as Ht. pose proof (Hnone own H3 w Hw) as Ho.
      pose proof (Hnone english H4 w Hw) as He. unfold tagged, own, english in *.
      apply bool_decide_eq_false in Ht. unfold isFallbackVoice. by rewrite Ho, He.
    + intros Hall.
      assert (forall (f : Voice -> bool) v, List.find f vs = Some v ->
                (f v = true -> lang v = voiceLangOf env \/ isFallbackVoice env v = true) ->
                False) as Hno.
      { intros f v Hfind Hf. apply Hsome in Hfind as [Hin Hfv].
        destruct (Hall v Hin) as [Hne Hfb]. destruct (Hf Hfv); congruence. }
      destruct (List.find google vs) as [v|] eqn:H1.
      { exfalso. apply (Hno _ _ H1). unfold google. intros [Hv _]%andb_prop.
        left. by apply bool_decide_eq_true in Hv. }
      destruct (List.find tagged vs) as [v|] eqn:H2.
      { exfalso. apply (Hno _ _ H2). unfold tagged. intros Hv.
        left. by apply bool_decide_eq_true in Hv. }
      destruct (List.find own vs) as [v|] eqn:H3.
      { exfalso. apply (Hno _ _ H3). unfold own, isFallbackVoice. intros ->. by right. }
      destruct (List.find english vs) as [v|] eqn:H4; [|done].
      exfalso. apply (Hno _ _ H4). unfold english, isFallbackVoice. intros ->.
      right. by rewrite orb_true_r.
Qed.

End Voices.

Lemma chooseVoice_preference_witness :
  exists v,
    chooseVoice demoEnv
      [{| lang := "en-US"; name := "Alex" |}; {| lang := "en-IN"; name := "Rishi" |};
       demoVoice] = Some v
    /\ lang v = voiceLangOf demoEnv
    /\ (includes "Google" (name demoVoice) = true -> includes "Google" (name v) = true).
Proof.
  refine (proj1 (proj2 (chooseVoice_preference demoEnv _)) demoVoice _ _);
    [|reflexivity].
  apply list_elem_of_In. right. right. by left.
Defined.

(** ** [cleanWord] *)

Lemma lowerChar_facts (c : ascii) :
  isUpper (lowerChar c) = false
  /\ isWhiteSpace (lowerChar c) = isWhiteSpace c
  /\ lowerChar (lowerChar c) = lowerChar c.
Proof. destruct c as [[] [] [] [] [] [] [] []]; vm_compute; done. Qed.

Lemma allChars_filterChars (keep test : ascii -> bool) (s : string) :
  allChars test s = true ->
  allChars (fun c => keep c && test c) (filterChars keep s) = true.
Proof.
  induction s as [|c r IH]; cbn; [done|].
  intros [Hc Hr]%andb_prop. destruct (keep c) eqn:Hkeep; cbn; [|by apply IH].
  by rewrite Hkeep, Hc, IH.
Qed.

Lemma allChars_toLowerCase (s : string) :
  allChars (fun c => negb (isUpper c)) (toLowerCase s) = true.
Proof.
  induction s as [|c r IH]; cbn; [done|].
  fold (toLowerCase r). by rewrite (proj1 (lowerChar_facts c)), IH.
Qed.

Lemma trimStart_mapChars (f : ascii -> ascii) (s : string) :
  (forall c, isWhiteSpace (f c) = isWhiteSpace c) ->
  trimStart (mapChars f s) = mapChars f (trimStart s).
Proof.
  intros Hf. induction s as [|c r IH]; cbn; [done|].
  rewrite Hf. by destruct (isWhiteSpace c).
Qed.

Lemma rev_app_mapChars (f : ascii -> ascii) (s1 s2 : string) :
  String.rev_app (mapChars f s1) (mapChars f s2) = mapChars f (String.rev_app s1 s2).
Proof.
  revert s2. induction s1 as [|c r IH]; intros s2; cbn; [done|].
  by rewrite <- (IH (String c s2)).
Qed.

Lemma trim_mapChars (f : ascii -> ascii) (s : string) :
  (forall c, isWhiteSpace (f c) = isWhiteSpace c) ->
  trim (mapChars f s) = mapChars f (trim s).
Proof.
  intros Hf. unfold trim, trimEnd, String.rev.
  rewrite (trimStart_mapChars f s Hf).
  change EmptyString with (mapChars f EmptyString).
  rewrite rev_app_mapChars, (trimStart_mapChars f _ Hf).
  change (mapChars f EmptyString) with EmptyString.
  change EmptyString with (mapChars f EmptyString) at 2.
  by rewrite rev_app_mapChars.
Qed.

Lemma toLowerCase_idempotent (s : string) : toLowerCase (toLowerCase s) = toLowerCase s.
Proof.
  induction s as [|c r IH]; cbn; [done|]. fold (toLowerCase r).
  fold (toLowerCase (toLowerCase r)). by rewrite (proj2 (proj2 (lowerChar_facts c))), IH.
Qed.

(** X7.  [cleanWord] makes two words equal whenever they differ in the case
    of ASCII letters only, and what it returns has no upper-case ASCII
    letter and none of the marks [. , ? !] left. *)
Theorem cleanWord_ignores_case (w1 w2 : string) :
  (toLowerCase w1 = toLowerCase w2 -> cleanWord w1 = cleanWord w2)
  /\ allChars (fun c => negb (isCleanedPunctuation c) && negb (isUpper c))
       (cleanWord w1) = true.
Proof.
  split.
  - intros Hsame. unfold cleanWord, toLowerCase.
    rewrite <- !(trim_mapChars lowerChar) by (intros c; apply lowerChar_facts).
    fold (toLowerCase w1) (toLowerCase w2). by rewrite Hsame.
  - unfold cleanWord. apply allChars_filterChars, allChars_toLowerCase.
Qed.

Lemma cleanWord_ignores_case_witness : cleanWord "ApPles!" = cleanWord "apples!".
Proof. apply (cleanWord_ignores_case "ApPles!" "apples!"). reflexivity. Defined.

(** ** The order of the mistakes *)

(** X8.  Taking the values of a [Set] leaves out the repetitions and
    keeps the order of first appearance: the result has no value twice and
    has the values of the list, it is the list with later repetitions left
    out, and what a longer list adds comes after what the shorter one gave.
    On a list without repetitions it changes nothing, so doing it twice is
    the same as doing it once. *)
Theorem uniqueValues_keeps_order (xs ys : list string) :
  NoDup (uniqueValues xs)
  /\ (forall x, x ∈ uniqueValues xs <-> x ∈ xs)
  /\ uniqueValues xs `sublist_of` xs
  /\ (exists added,
        uniqueValues (xs ++ ys) = uniqueValues xs ++ added /\ added `sublist_of` ys)
  /\ (NoDup xs -> uniqueValues xs = xs)
  /\ uniqueValues (uniqueValues xs) = uniqueValues xs.
Proof.
  assert (forall l, NoDup l -> uniqueValues l = l) as Hid.
  { intros l Hl. unfold uniqueValues. by rewrite fold_setAdd_NoDup_id. }
  split; [apply uniqueValues_NoDup|]. split; [apply elem_of_uniqueValues|].
  split; [|split; [|split; [apply Hid|apply Hid, uniqueValues_NoDup]]].
  - unfold uniqueValues. by destruct (fold_setAdd_sublist xs []) as (added & -> & Hsub).
  - unfold uniqueValues. rewrite fold_left_app. apply fold_setAdd_sublist.
Qed.

Lemma uniqueValues_keeps_order_witness :
  uniqueValues ["apples"; "Six"; "apples"; "please."; "Six"] = ["apples"; "Six"; "please."]
  /\ NoDup ["apples"; "Six"; "please."]
  /\ uniqueValues ["apples"; "Six"; "please."] = ["apples"; "Six"; "please."].
Proof.
  destruct (uniqueValues_keeps_order ["apples"; "Six"; "apples"; "please."; "Six"] [])
    as (Hnodup & _).
  destruct (uniqueValues_keeps_order ["apples"; "Six"; "please."] [])
    as (_ & _ & _ & _ & Hid & _).
  split; [reflexivity|]. split; [exact Hnodup|exact (Hid Hnodup)].
Defined.

(** ** The calls of the service *)

(** The service after one more request. *)
Definition asked (ai : AiService) (req : ai_request) : AiService :=
  {| replyOf := replyOf ai; calls := calls ai ++ [req] |}.

(** A turn the analysis can go through: something was said, or the target
    is a string. *)
Definition analysable (d : Dialog) : Prop :=
  truthy (trim (said d)) = true \/ isString (target d) = true.

#[global] Instance analysable_dec (d : Dialog) : Decision (analysable d).
Proof. unfold analysable. apply _. Defined.

Section Calls.

Context (env : Env).

Lemma generateContent_asked (req : ai_request) (ai : AiService) :
  (generateContent req ai).2 = asked ai req.
Proof. unfold generateContent. by destruct (replyOf ai _). Qed.

Lemma getPhoneticBreakdown_asked (w : string) (ai : AiService) :
  exists ph, getPhoneticBreakdown env w ai = (inr ph, asked ai (PhoneticRequest w)).
Proof.
  unfold getPhoneticBreakdown, tryCatch, bind, generateContent, asked.
  destruct (replyOf ai (length (calls ai))); cbn; eauto.
Qed.

Lemma analyzeReadingWithAI_asked (spokenText : string) (targetText : value)
    (ai : AiService) :
  truthy (trim spokenText) = true ->
  exists ws,
    analyzeReadingWithAI env spokenText targetText ai
    = (inr ws, asked ai (AnalysisRequest spokenText targetText)).
Proof.
  intros Hsaid. unfold analyzeReadingWithAI. rewrite Hsaid. cbn.
  unfold tryCatch, bind, generateContent, asked.
  destruct (replyOf ai (length (calls ai))); cbn; eauto.
Qed.

Lemma analyzeTurns_calls (dialogs : list Dialog) (acc all : list string)
    (ai ai' : AiService) :
  analyzeTurns env dialogs acc ai = (inr all, ai') ->
  replyOf ai' = replyOf ai
  /\ calls ai'
     = calls ai ++ ((fun d => AnalysisRequest (said d) (target d)) <$> spokenTurns dialogs).
Proof.
  revert acc ai. induction dialogs as [|d dialogs IH]; intros acc ai; cbn [analyzeTurns].
  - intros [= _ <-]. cbn. by rewrite app_nil_r.
  - unfold bind, spokenTurns. rewrite filter_cons. fold (spokenTurns dialogs).
    destruct (truthy (trim (said d))) eqn:Hsaid.
    + destruct (analyzeReadingWithAI_asked (said d) (target d) ai Hsaid) as [ws ->].
      intros [-> ->]%IH. cbn. rewrite decide_True by done.
      by rewrite fmap_cons, <- app_assoc.
    + unfold analyzeReadingWithAI. rewrite Hsaid. cbn.
      rewrite decide_False by (by intros []).
      destruct (target d); cbn; try done. apply IH.
Qed.

(** X9.  When the analysis goes through, it has called the service once
    for every turn on which something was said, in the order of the turns,
    and not at all for the turns on which nothing was said. *)
Theorem analysis_calls_once_per_spoken_turn (s : State) (ai : AiService) :
  isAnalyzing (analyzeAllDialog env s ai).1 = false ->
  calls (analyzeAllDialog env s ai).2
  = calls ai
    ++ ((fun d => AnalysisRequest (said d) (target d)) <$> spokenTurns (userDialog s)).
Proof.
  unfold analyzeAllDialog. cbn.
  destruct (analyzeTurns env (userDialog s) [] ai) as [[e|all] ai'] eqn:Hturns; [done|].
  intros _. by destruct (analyzeTurns_calls _ _ _ _ _ Hturns).
Qed.

Lemma phoneticBreakdowns_calls (ws : list string) (acc : list PracticeWord)
    (ai : AiService) :
  calls (phoneticBreakdowns env ws acc ai).2 = calls ai ++ (PhoneticRequest <$> ws).
Proof.
  revert acc ai. induction ws as [|w ws IH]; intros acc ai; cbn.
  - by rewrite app_nil_r.
  - unfold bind. destruct (getPhoneticBreakdown_asked w ai) as [ph ->].
    rewrite IH. cbn. by rewrite <- app_assoc.
Qed.

(** X10.  [preparePractice] calls the service once for every distinct
    non-empty word of the mistakes, in the order of the mistakes, and for
    nothing else. *)
Theorem preparePractice_calls_once_per_word (s : State) (ai : AiService) :
  calls (preparePractice env s ai).2
  = calls ai
    ++ (PhoneticRequest <$> uniqueValues (filter truthy (expected <$> mistakes s))).
Proof.
  unfold preparePractice. case_bool_decide as Hnone.
  - rewrite Hnone. cbn. by rewrite app_nil_r.
  - rewrite <- (phoneticBreakdowns_calls _ [] ai).
    by destruct (phoneticBreakdowns env _ _ ai) as [[e|data] ai'].
Qed.

Lemma analyzeTurns_rejects (dialogs : list Dialog) (acc : list string) (ai : AiService) :
  ~ Forall analysable dialogs ->
  exists e ai', analyzeTurns env dialogs acc ai = (inl e, ai').
Proof.
  revert acc ai. induction dialogs as [|d dialogs IH]; intros acc ai Hbad.
  - by destruct Hbad.
  - cbn. unfold bind. destruct (decide (analysable d)) as [Hd|Hd].
    + assert (exists ws ai1, analyzeReadingWithAI env (said d) (target d) ai = (inr ws, ai1))
        as (ws & ai1 & ->).
      { destruct (truthy (trim (said d))) eqn:Hsaid.
        - destruct (analyzeReadingWithAI_asked _ (target d) ai Hsaid) as [ws ->]. eauto.
        - destruct Hd as [Hd|Hd]; [congruence|]. destruct (target d); try done.
          apply analyzeReadingWithAI_total. }
      apply IH. intros Hrest. apply Hbad. by constructor.
    + unfold analysable in Hd.
      destruct (truthy (trim (said d))) eqn:Hsaid; [by destruct Hd; left|].
      unfold analyzeReadingWithAI. rewrite Hsaid. cbn.
      destruct (target d) eqn:Htarget; cbn; try (by eauto).
Qed.

Lemma analyzeTurns_completes (dialogs : list Dialog) (acc : list string) (ai : AiService) :
  Forall analysable dialogs ->
  exists all ai', analyzeTurns env dialogs acc ai = (inr all, ai').
Proof.
  intros Hall. revert acc ai.
  induction Hall as [|d dialogs Hd _ IH]; intros acc ai; cbn; [by eauto|].
  unfold bind.
  assert (exists ws ai1, analyzeReadingWithAI env (said d) (target d) ai = (inr ws, ai1))
    as (ws & ai1 & ->).
  { destruct (truthy (trim (said d))) eqn:Hsaid.
    - destruct (analyzeReadingWithAI_asked _ (target d) ai Hsaid) as [ws ->]. eauto.
    - destruct Hd as [Hd|Hd]; [congruence|]. destruct (target d); try done.
      apply analyzeReadingWithAI_total. }
  apply IH.
Qed.

(** X11.  The analysis goes through exactly when every turn on which
    nothing was said has a string as its target.  It then leaves the
    analysing flag cleared and moves on: to [COMPLETE] when no word was
    flagged in any turn, to [PRACTICE_PREP] otherwise.  When it does not go
    through, the flag stays set, and the step, the mistakes and the practice
    words stay as they were. *)
Theorem analysis_goes_through_or_hangs (s : State) (ai : AiService) :
  let s' := (analyzeAllDialog env s ai).1 in
  (Forall analysable (userDialog s) ->
     exists all ai',
       analyzeTurns env (userDialog s) [] ai = (inr all, ai')
       /\ isAnalyzing s' = false
       /\ step s' = (if bool_decide (all = []) then COMPLETE else PRACTICE_PREP))
  /\ (~ Forall analysable (userDialog s) ->
        isAnalyzing s' = true /\ step s' = step s /\ mistakes s' = mistakes s
        /\ practiceWords s' = practiceWords s).
Proof.
  unfold analyzeAllDialog. cbn. split.
  - intros Hall.
    destruct (analyzeTurns_completes (userDialog s) [] ai Hall) as (all & ai' & Hturns).
    exists all, ai'. rewrite Hturns. cbn. split; [done|]. split; [done|].
    destruct all as [|w all]; [done|].
    rewrite !bool_decide_eq_false_2; [done|done|].
    intros Hnil. assert (w ∈ uniqueValues (w :: all)) as Hw.
    { apply elem_of_uniqueValues. by left. }
    destruct (uniqueValues (w :: all)); [by apply elem_of_nil in Hw|done].
  - intros Hbad.
    by destruct (analyzeTurns_rejects (userDialog s) [] ai Hbad) as (e & ai' & ->).
Qed.

End Calls.

Lemma analysis_calls_once_per_spoken_turn_witness :
  calls (analyzeAllDialog demoEnv
           (setUserDialog
              [{| target := VStr "I want some apples please."; said := "I want some" |};
               {| target := VStr "Six apples please."; said := EmptyString |};
               {| target := VStr "No, thank you."; said := "No thank you" |}]
              demoAnalysing) failingService).2
  = [AnalysisRequest "I want some" (VStr "I want some apples please.");
     AnalysisRequest "No thank you" (VStr "No, thank you.")].
Proof.
  refine (analysis_calls_once_per_spoken_turn demoEnv _ failingService _). reflexivity.
Defined.

(** A script line whose [line] is a number, which the check of
    [generateScript] lets through, on a turn where nothing was said. *)
Definition silentTurnOnNumber : State :=
  setUserDialog [{| target := VNum 7; said := EmptyString |}] demoAnalysing.

Lemma analysis_goes_through_or_hangs_witness :
  (exists all ai',
     analyzeTurns demoEnv (userDialog demoTwoSilentTurns) [] failingService = (inr all, ai')
     /\ isAnalyzing (analyzeAllDialog demoEnv demoTwoSilentTurns failingService).1 = false
     /\ step (analyzeAllDialog demoEnv demoTwoSilentTurns failingService).1
        = (if bool_decide (all = []) then COMPLETE else PRACTICE_PREP))
  /\ isAnalyzing (analyzeAllDialog demoEnv silentTurnOnNumber failingService).1 = true
  /\ step (analyzeAllDialog demoEnv silentTurnOnNumber failingService).1
     = ANALYZING_PERFORMANCE.
Proof.
  split.
  - apply (analysis_goes_through_or_hangs demoEnv demoTwoSilentTurns failingService).
    repeat constructor; by right.
  - destruct (analysis_goes_through_or_hangs demoEnv silentTurnOnNumber failingService)
      as [_ Hhangs].
    destruct Hhangs as (Hflag & Hstep & _).
    + intros Hall. apply Forall_inv in Hall. destruct Hall as [Hd|Hd]; discriminate Hd.
    + split; [exact Hflag|exact Hstep].
Defined.

(** ** What a session never does *)

(** Every way a handler of an event can go, one case at a time. *)
Ltac handle_cases :=
  unfold handleCharacterSelect, generateScript, scriptFailed, handleSceneSelect,
    handleBackToScenes, aiTurnEffect, speak, utteranceStarted, speechEnded,
    handleAiTurnEnd, handleMicButtonClick, startRecognition, handleStart,
    handleResult, handleEnd, processUserTurn, handleError, analyzeAllDialog,
    preparePractice, handlePracticeMicClick, practiceResultHandler,
    practiceErrorHandler, practiceEndHandler, practiceTimerFired, practiceAdvance,
    pronounceWord, onComplete, recognitionEffect in *;
  repeat (case_match; simplify_eq/=).

Section Never.

Context (env : Env).

Lemma completions_handle (e : event) (s : State) (ai : AiService) :
  completions (handle env e s ai).1 = completions s
  \/ completions (handle env e s ai).1 = completions s ++ [true].
Proof. destruct e; cbn [handle fst]; handle_cases; auto. Qed.

(** X12.  The game never reports a failure: in every session, every call
    of [onComplete] has the argument [true]. *)
Theorem onComplete_only_with_true (es : list event) (ai : AiService) :
  Forall (fun success => success = true) (completions (run env es (mount env, ai)).1).
Proof.
  assert (forall st, Forall (fun success => success = true) (completions st.1) ->
            Forall (fun success => success = true) (completions (run env es st).1))
    as Hrun; [|by apply Hrun].
  induction es as [|e es IH]; intros st Hst; [done|].
  cbn [run fold_left]. fold (run env es (dispatch env e st)). apply IH.
  unfold dispatch. destruct (completions_handle e st.1 st.2) as [Hsame|Hmore];
    destruct (handle env e st.1 st.2) as [s' ai']; cbn [fst] in *;
    unfold recognitionEffect; destruct (_ && _); cbn; rewrite ?Hsame, ?Hmore;
    rewrite ?Forall_app; auto.
Qed.

End Never.

(** ** What holds throughout a session *)

(** The script is not there yet, or it is a well-formed script of eight
    lines. *)
Definition scriptInPlace (s : State) : Prop :=
  script s = [] \/ (length (script s) = 8%nat /\ Forall isScriptLine (script s)).

(** A recorded line of the user is the [line] of an item of the script. *)
Definition recordedFromScript (s : State) : Prop :=
  Forall (fun d => exists item, item ∈ script s /\ getProperty "line" item = Some (target d))
         (userDialog s).

(** No recognition end can record a turn: no stop was asked for, or the turn
    is already recorded. *)
Definition nothingToRecord (s : State) : Prop :=
  wasStoppedIntentionally s = false \/ hasProcessedTurn s = true.

(** The events of the game recognizer. *)
Definition fromRecognizer (e : event) : Prop :=
  match e with
  | RecognitionStart | RecognitionResult _ | RecognitionEnd | RecognitionError _ => True
  | _ => False
  end.

(** The game is stopped: a recognition error is shown, no line is being
    spoken, and no recognition end can record a turn. *)
Definition stopped (s : State) : Prop :=
  isSet (recognitionError s) = true /\ pendingTurnEnd s = [] /\ nothingToRecord s.

(** The steps before the analysis. *)
Definition beforeAnalysis (s : State) : Prop :=
  step s = SCENE \/ step s = CHARACTER \/ step s = GAME.

(** The cells of a state built by a few setters, one by one. *)
Ltac frame_cases :=
  solve [ match goal with s : State |- _ => destruct s end;
          cbn in *; rewrite ?micError_truthy; repeat split; intros;
          try congruence; auto ].

Section Throughout.

Context (env : Env).

Lemma script_handle_any (e : event) (s : State) (ai : AiService) :
  script (handle env e s ai).1 = script s
  \/ (length (script (handle env e s ai).1) = 8%nat
      /\ Forall isScriptLine (script (handle env e s ai).1)).
Proof.
  destruct e; try (left; apply script_handle; intros c; discriminate).
  cbn [handle]. repeat case_match; try (by left).
  unfold handleCharacterSelect.
  destruct (generateScript_outcomes env
              (selectedScene (setSelectedCharacter (Some character)
                                (setUserDialog [] (setMistakes [] s))))
              character
              (setSelectedCharacter (Some character)
                 (setUserDialog [] (setMistakes [] s))) ai)
    as [(_ & req & text & items & _ & _ & (_ & Hlen & Hall) & Hscript & _)
       |[(_ & Hscript & _) _]]; rewrite Hscript; auto.
Qed.

Lemma scriptInPlace_dispatch (e : event) (st : State * AiService) :
  scriptInPlace st.1 -> scriptInPlace (dispatch env e st).1.
Proof.
  intros Hst. unfold scriptInPlace, dispatch.
  pose proof (script_handle_any e st.1 st.2) as Hscript.
  destruct (handle env e st.1 st.2) as [s' ai']. cbn [fst] in *.
  rewrite (proj1 (script_recognitionEffect env _ _)).
  destruct Hscript as [->|Hchecked]; auto.
Qed.

(** X13.  Throughout a session the script is either still empty or a
    script that passed the check of [generateScript]: eight items, each an
    object with a [character] and a [line]. *)
Theorem script_is_empty_or_checked (es : list event) (ai : AiService) :
  scriptInPlace (run env es (mount env, ai)).1.
Proof.
  assert (forall st, scriptInPlace st.1 -> scriptInPlace (run env es st).1) as Hrun.
  { induction es as [|e es IH]; intros st Hst; [done|].
    cbn [run fold_left]. fold (run env es (dispatch env e st)).
    by apply IH, scriptInPlace_dispatch. }
  apply Hrun. by left.
Qed.

Lemma handleEnd_nothingToRecord (s : State) : nothingToRecord (handleEnd s).
Proof.
  unfold nothingToRecord, handleEnd, processUserTurn. cbn.
  destruct (wasStoppedIntentionally s && negb (hasProcessedTurn s)); [|by left].
  destruct (hasProcessedTurn s); cbn; [by left|].
  destruct (script s !! currentTurn s ≫= getProperty "line"); [|by right].
  destruct (beforeLast _ _); by left.
Qed.

Lemma recognitionEffect_same_step (before after : State) :
  step after = step before -> recognitionEffect env before after = after.
Proof.
  intros Hstep. unfold recognitionEffect. rewrite Hstep.
  by destruct (hasSpeechRecognition env), (bool_decide (step before = GAME)).
Qed.

Lemma recognizer_event_records_nothing (e : event) (s : State) (ai : AiService) :
  fromRecognizer e ->
  nothingToRecord s ->
  let s' := (dispatch env e (s, ai)).1 in
  nothingToRecord s' /\ userDialog s' = userDialog s
  /\ currentTurn s' = currentTurn s /\ step s' = step s.
Proof.
  intros He Hs.
  assert (let h := (handle env e s ai).1 in
          nothingToRecord h /\ userDialog h = userDialog s
          /\ currentTurn h = currentTurn s /\ step h = step s) as Hhandle.
  { unfold nothingToRecord in *.
    destruct e; try done; cbn [handle fst snd];
      (destruct (gameRecognizerListens env s); [|by repeat split]).
    - unfold handleStart. frame_cases.
    - unfold handleResult. destruct (hasProcessedTurn s) eqn:Hp; frame_cases.
    - unfold handleEnd, processUserTurn. cbn.
      assert (wasStoppedIntentionally s && negb (hasProcessedTurn s) = false) as ->.
      { destruct Hs as [Hstopped|Hprocessed]; rewrite ?Hstopped, ?Hprocessed;
          [done|by rewrite andb_false_r]. }
      frame_cases.
    - unfold handleError. repeat case_match; frame_cases. }
  cbn zeta in *. unfold dispatch. cbn [fst snd].
  destruct (handle env e s ai) as [h ai']. cbn [fst] in *.
  destruct Hhandle as (Hquiet & Hdialog & Hturn & Hstep).
  by rewrite recognitionEffect_same_step.
Qed.

(** X14.  A turn is recorded once.  After the end of a recognition, and as
    long as the user does not click, nothing the recognizer reports (starts,
    results, ends, errors) adds to the user dialog or moves the turn or the
    step. *)
Theorem turn_is_recorded_once (es : list event) (s : State) (ai : AiService) :
  Forall fromRecognizer es ->
  let ended := handleEnd s in
  let s' := (run env es (ended, ai)).1 in
  userDialog s' = userDialog ended /\ currentTurn s' = currentTurn ended
  /\ step s' = step ended.
Proof.
  intros Hes ended. pose proof (handleEnd_nothingToRecord s) as Hquiet.
  fold ended in Hquiet. clearbody ended. cbn zeta. revert ended Hquiet.
  induction Hes as [|e es He _ IH]; intros ended Hquiet; [done|].
  cbn [run fold_left]. fold (run env es (dispatch env e (ended, ai))).
  destruct (recognizer_event_records_nothing e ended ai He Hquiet)
    as (Hquiet' & Hdialog & Hturn & Hstep).
  destruct (dispatch env e (ended, ai)) as [s1 ai1] eqn:Hdispatch. cbn [fst] in *.
  assert (ai1 = ai) as ->.
  { unfold dispatch in Hdispatch. destruct e; try done; cbn in Hdispatch;
      by injection Hdispatch. }
  destruct (IH s1 Hquiet') as (-> & -> & ->). done.
Qed.


(** A game that is stopped stays stopped: no event of a stopped component
    before the analysis speaks a line, records a turn or moves the turn;
    without speech recognition the message stays, and nothing completes. *)
Lemma stopped_handle (e : event) (s : State) (ai : AiService) :
  stopped s -> beforeAnalysis s ->
  let h := (handle env e s ai).1 in
  stopped h /\ beforeAnalysis h /\ speechLog h = speechLog s
  /\ (step s = GAME ->
      step h = GAME /\ currentTurn h = currentTurn s /\ userDialog h = userDialog s)
  /\ (userDialog s = [] -> userDialog h = [])
  /\ (currentTurn s = 0%nat -> currentTurn h = 0%nat)
  /\ (hasSpeechRecognition env = false -> pendingAdvance s = [] ->
      pendingAdvance h = [] /\ completions h = completions s
      /\ recognitionError h = recognitionError s).
Proof.
  intros (Herr & Hturn & Hrec) Hstep. unfold stopped, beforeAnalysis, nothingToRecord in *.
  assert (currentLineOfGame s = None) as Hline.
  { unfold currentLineOfGame. rewrite Herr, orb_true_r. by destruct (step s). }
  assert (micButtonEnabled s = false) as Hmic.
  { unfold micButtonEnabled. rewrite Herr. cbn.
    destruct (step s), (script s !! currentTurn s ≫= getProperty "character");
      rewrite ?andb_false_r; done. }
  assert (practiceItemShown s = None) as Hshown.
  { unfold practiceItemShown. by destruct Hstep as [Hs|[Hs|Hs]]; rewrite Hs. }
  destruct e; cbn [handle fst].
  - case_bool_decide; frame_cases.
  - unfold handleSceneSelect. case_bool_decide; frame_cases.
  - destruct (step s) eqn:Hs, (selectedScene s) as [scene|]; try frame_cases.
    case_bool_decide; [|frame_cases].
    unfold handleCharacterSelect, generateScript.
    destruct (requestScript env _ character ai) as [[thrown|parsedScript] ai'];
      unfold scriptFailed; frame_cases.
  - unfold handleBackToScenes. case_bool_decide; frame_cases.
  - destruct (hasSpeechSynthesis env); frame_cases.
  - unfold aiTurnEffect. rewrite Hline. frame_cases.
  - unfold utteranceStarted. frame_cases.
  - unfold speechEnded. rewrite Hturn, lookup_nil. frame_cases.
  - rewrite Hmic. frame_cases.
  - unfold gameRecognizerListens, handleStart.
    destruct (hasSpeechRecognition env), (bool_decide (step s = GAME)); frame_cases.
  - unfold gameRecognizerListens, handleResult.
    destruct (hasSpeechRecognition env), (bool_decide (step s = GAME)),
      (hasProcessedTurn s) eqn:Hp; frame_cases.
  - unfold gameRecognizerListens, handleEnd, processUserTurn. cbn.
    assert (wasStoppedIntentionally s && negb (hasProcessedTurn s) = false) as ->.
    { destruct Hrec as [Hstopped|Hprocessed]; rewrite ?Hstopped, ?Hprocessed;
        [done|by rewrite andb_false_r]. }
    destruct (hasSpeechRecognition env), (bool_decide (step s = GAME)); frame_cases.
  - unfold gameRecognizerListens, handleError.
    destruct (hasSpeechRecognition env), (bool_decide (step s = GAME));
      repeat case_match; frame_cases.
  - case_bool_decide; [|frame_cases]. destruct Hstep as [Hs|[Hs|Hs]]; congruence.
  - case_bool_decide; [|frame_cases]. destruct Hstep as [Hs|[Hs|Hs]]; congruence.
  - rewrite Hshown. case_bool_decide as Hsome; [by destruct Hsome|frame_cases].
  - unfold practiceResultHandler. destruct (hasSpeechRecognition env);
      repeat case_match; frame_cases.
  - unfold practiceErrorHandler. destruct (hasSpeechRecognition env);
      repeat case_match; frame_cases.
  - unfold practiceEndHandler. destruct (hasSpeechRecognition env);
      repeat case_match; frame_cases.
  - unfold practiceTimerFired, practiceAdvance, onComplete.
    destruct (pendingAdvance s) eqn:Hadvance; repeat case_match; frame_cases.
  - rewrite Hshown. frame_cases.
  - destruct Hstep as [Hs|[Hs|Hs]]; rewrite Hs; frame_cases.
Qed.

Lemma stopped_dispatch (e : event) (st : State * AiService) :
  stopped st.1 -> beforeAnalysis st.1 ->
  let s := st.1 in
  let s' := (dispatch env e st).1 in
  stopped s' /\ beforeAnalysis s' /\ speechLog s' = speechLog s
  /\ (step s = GAME ->
      step s' = GAME /\ currentTurn s' = currentTurn s /\ userDialog s' = userDialog s)
  /\ (userDialog s = [] -> userDialog s' = [])
  /\ (currentTurn s = 0%nat -> currentTurn s' = 0%nat)
  /\ (hasSpeechRecognition env = false -> pendingAdvance s = [] ->
      pendingAdvance s' = [] /\ completions s' = completions s
      /\ recognitionError s' = recognitionError s).
Proof.
  intros Hstopped Hbefore.
  pose proof (stopped_handle e st.1 st.2 Hstopped Hbefore) as Hhandle.
  unfold dispatch. destruct (handle env e st.1 st.2) as [h ai']. cbn [fst] in *.
  unfold recognitionEffect. destruct (_ && _); [|exact Hhandle].
  unfold stopped, beforeAnalysis, nothingToRecord in *. destruct h. exact Hhandle.
Qed.

(** X15.  A recognition error stops the game for good.  When the game shows
    a recognition error while no line is being spoken and no stopped
    recognition waits for its end, then whatever happens next, the game
    stays on the same turn: no line is spoken, no turn is recorded, and the
    error stays on the screen. *)
Theorem recognition_error_stops_the_game (es : list event) (s : State) (ai : AiService) :
  step s = GAME ->
  stopped s ->
  let s' := (run env es (s, ai)).1 in
  step s' = GAME /\ currentTurn s' = currentTurn s /\ userDialog s' = userDialog s
  /\ speechLog s' = speechLog s /\ isSet (recognitionError s') = true.
Proof.
  intros Hgame Hstopped. cbn zeta. revert s ai Hgame Hstopped.
  induction es as [|e es IH]; intros s ai Hgame Hstopped.
  { repeat split; auto. apply Hstopped. }
  cbn [run fold_left]. fold (run env es (dispatch env e (s, ai))).
  destruct (stopped_dispatch e (s, ai) Hstopped) as (Hstopped' & _ & Hlog & Hsame & _).
  { right. by right. }
  destruct (Hsame Hgame) as (Hgame' & Hturn & Hdialog). cbn [fst] in *.
  destruct (dispatch env e (s, ai)) as [s1 ai1]. cbn [fst] in *.
  destruct (IH s1 ai1 Hgame' Hstopped') as (-> & -> & -> & -> & ->).
  by rewrite Hturn, Hdialog, Hlog.
Qed.

(** X16.  In a browser without speech recognition the game cannot be played:
    in every session the component stays before the analysis and on turn 0,
    no line is spoken, no turn is recorded, [onComplete] is not called, and
    the message of the mount stays on the screen. *)
Theorem no_recognition_no_game (es : list event) (ai : AiService) :
  hasSpeechRecognition env = false ->
  let s' := (run env es (mount env, ai)).1 in
  beforeAnalysis s' /\ currentTurn s' = 0%nat /\ userDialog s' = []
  /\ speechLog s' = [] /\ completions s' = []
  /\ recognitionError s'
     = Some "Speech recognition is not supported in this browser. Try Chrome or Edge.".
Proof.
  intros Hnone. cbn zeta.
  assert (forall st : State * AiService,
            stopped st.1 -> beforeAnalysis st.1 -> pendingAdvance st.1 = [] ->
            currentTurn st.1 = 0%nat -> userDialog st.1 = [] ->
            let s' := (run env es st).1 in
            beforeAnalysis s' /\ currentTurn s' = 0%nat /\ userDialog s' = []
            /\ speechLog s' = speechLog st.1 /\ completions s' = completions st.1
            /\ recognitionError s' = recognitionError st.1) as Hrun.
  { induction es as [|e es IH]; intros st Hstopped Hbefore Hadvance Hturn Hdialog; [done|].
    cbn [run fold_left]. fold (run env es (dispatch env e st)).
    destruct (stopped_dispatch e st Hstopped Hbefore)
      as (Hstopped' & Hbefore' & Hlog & _ & Hdialog' & Hturn' & Hquiet).
    destruct (Hquiet Hnone Hadvance) as (Hadvance' & Hcompletions & Herror).
    destruct (IH _ Hstopped' Hbefore' Hadvance' (Hturn' Hturn) (Hdialog' Hdialog))
      as (? & ? & ? & -> & -> & ->).
    by rewrite Hlog, Hcompletions, Herror. }
  assert (stopped (mount env)) as Hmount.
  { unfold stopped, nothingToRecord. cbn. rewrite Hnone. auto. }
  destruct (Hrun (mount env, ai) Hmount) as (? & ? & ? & Hlog & Hcompletions & Herror);
    [by left|done|done|done|].
  rewrite Hlog, Hcompletions, Herror. cbn. by rewrite Hnone.
Qed.

End Throughout.

(** The second turn of the demo game, the customer's; the user has stopped
    the recognition and its end has not come yet. *)
Definition demoStoppedTurn : State :=
  assignWasStoppedIntentionally true
    (assignTranscriptRef "I want some apples please"
       (setIsRecognitionActive true (setCurrentTurn 1%nat demoGame))).

Lemma turn_is_recorded_once_witness :
  let es := [RecognitionResult ["again"]; RecognitionEnd; RecognitionStart;
             RecognitionError "network"; RecognitionEnd] in
  let ended := handleEnd demoStoppedTurn in
  let s' := (run demoEnv es (ended, failingService)).1 in
  Forall fromRecognizer es
  /\ length (userDialog ended) = 1%nat
  /\ (userDialog s' = userDialog ended /\ currentTurn s' = currentTurn ended
      /\ step s' = step ended).
Proof.
  split; [by repeat constructor|]. split; [reflexivity|].
  apply (turn_is_recorded_once demoEnv). by repeat constructor.
Defined.

(** The demo game on the customer's turn after a network error of the
    recognizer. *)
Definition demoNetworkError : State :=
  (run demoEnv [MicButtonClick Started; RecognitionStart; RecognitionError "network";
                RecognitionEnd]
     (setCurrentTurn 1%nat demoGame, failingService)).1.

Lemma recognition_error_stops_the_game_witness :
  let es := [AiTurnTimeout; MicButtonClick Started; RecognitionStart;
             RecognitionResult ["I want some apples please"];
             MicButtonClick Started; RecognitionEnd; SpeechEnd 0; Finish] in
  let s' := (run demoEnv es (demoNetworkError, failingService)).1 in
  step demoNetworkError = GAME
  /\ stopped demoNetworkError
  /\ (step s' = GAME /\ currentTurn s' = currentTurn demoNetworkError
      /\ userDialog s' = userDialog demoNetworkError
      /\ speechLog s' = speechLog demoNetworkError
      /\ isSet (recognitionError s') = true).
Proof.
  assert (stopped demoNetworkError) as Hstopped.
  { split; [reflexivity|]. split; [reflexivity|]. left. reflexivity. }
  split; [reflexivity|]. split; [exact Hstopped|].
  apply (recognition_error_stops_the_game demoEnv); [reflexivity|exact Hstopped].
Defined.

(** The demo setting in a browser without speech recognition. *)
Definition deafEnv : Env :=
  {| JSON_parse := demoParse;
     typeErrorMessage := typeErrorMessage demoEnv;
     TALKERS_CAVE_SCENES := TALKERS_CAVE_SCENES demoEnv;
     grades := grades demoEnv;
     userGrade := 1;
     currentLevel := 1;
     language := "en";
     hasSpeechSynthesis := true;
     hasSpeechRecognition := false |}.

Lemma no_recognition_no_game_witness :
  let s' := (run deafEnv demoSession (mount deafEnv, demoService)).1 in
  hasSpeechRecognition deafEnv = false
  /\ (beforeAnalysis s' /\ currentTurn s' = 0%nat /\ userDialog s' = []
      /\ speechLog s' = [] /\ completions s' = []
      /\ recognitionError s'
         = Some "Speech recognition is not supported in this browser. Try Chrome or Edge.").
Proof.
  split; [reflexivity|]. apply (no_recognition_no_game deafEnv). reflexivity.
Defined.

(** ** The recorded turns *)

Section Recorded.

Context (env : Env).

(** An event empties the user dialog, or keeps the script and leaves the
    dialog as it is or adds one entry, whose target is the [line] of the
    item of the script at the current turn. *)
Lemma userDialog_handle (e : event) (s : State) (ai : AiService) :
  let h := (handle env e s ai).1 in
  userDialog h = []
  \/ (script h = script s
      /\ (userDialog h = userDialog s
          \/ exists item d,
               script s !! currentTurn s = Some item
               /\ getProperty "line" item = Some (target d)
               /\ userDialog h = userDialog s ++ [d])).
Proof.
  destruct e; cbn [handle fst].
  - case_bool_decide; frame_cases.
  - unfold handleSceneSelect. case_bool_decide; frame_cases.
  - destruct (step s) eqn:Hs, (selectedScene s) as [scene|]; try frame_cases.
    case_bool_decide; [|frame_cases].
    unfold handleCharacterSelect, generateScript.
    destruct (requestScript env _ character ai) as [[thrown|parsedScript] ai'];
      unfold scriptFailed; frame_cases.
  - unfold handleBackToScenes. case_bool_decide; frame_cases.
  - destruct (hasSpeechSynthesis env); frame_cases.
  - right. split; [apply script_aiTurnEffect|]. left.
    unfold aiTurnEffect, speak. repeat case_match; frame_cases.
  - unfold utteranceStarted. frame_cases.
  - right. split; [apply script_speechEnded|]. left.
    unfold speechEnded, handleAiTurnEnd. repeat case_match; frame_cases.
  - unfold handleMicButtonClick, startRecognition. repeat case_match; frame_cases.
  - unfold handleStart. case_match; frame_cases.
  - unfold handleResult. repeat case_match; frame_cases.
  - destruct (gameRecognizerListens env s); [|frame_cases].
    right. split; [apply script_handleEnd|].
    unfold handleEnd, processUserTurn. cbn.
    destruct (wasStoppedIntentionally s && negb (hasProcessedTurn s)); [|frame_cases].
    destruct (hasProcessedTurn s); [frame_cases|]. cbn.
    destruct (script s !! currentTurn s) as [item|] eqn:Hitem; [|frame_cases]. cbn.
    destruct (getProperty "line" item) as [line|] eqn:Hline; [|frame_cases].
    right. exists item, {| target := line; said := trim (transcriptRef s) |}.
    split; [done|]. split; [done|]. by destruct (beforeLast _ _), s.
  - unfold handleError. repeat case_match; frame_cases.
  - case_bool_decide; [|frame_cases]. right. split; [apply script_analyzeAllDialog|]. left.
    unfold analyzeAllDialog. repeat case_match; frame_cases.
  - case_bool_decide; [|frame_cases]. right. split; [apply script_preparePractice|]. left.
    unfold preparePractice. repeat case_match; frame_cases.
  - unfold handlePracticeMicClick. repeat case_match; frame_cases.
  - unfold practiceResultHandler. repeat case_match; frame_cases.
  - unfold practiceErrorHandler. repeat case_match; frame_cases.
  - unfold practiceEndHandler. repeat case_match; frame_cases.
  - unfold practiceTimerFired, practiceAdvance, onComplete. repeat case_match; frame_cases.
  - unfold pronounceWord. repeat case_match; frame_cases.
  - unfold onComplete. repeat case_match; frame_cases.
Qed.

Lemma recordedFromScript_dispatch (e : event) (st : State * AiService) :
  recordedFromScript st.1 -> recordedFromScript (dispatch env e st).1.
Proof.
  intros Hst. unfold recordedFromScript, dispatch in *.
  pose proof (userDialog_handle e st.1 st.2) as Hhandle.
  destruct (handle env e st.1 st.2) as [h ai']. cbn [fst] in *.
  assert (userDialog (recognitionEffect env st.1 h) = userDialog h
          /\ script (recognitionEffect env st.1 h) = script h) as [-> ->].
  { unfold recognitionEffect. by destruct (_ && _), h. }
  destruct Hhandle as [->|[-> [->|(item & d & Hitem & Hline & ->)]]]; [done|done|].
  apply Forall_app. split; [done|]. apply Forall_singleton.
  exists item. split; [|done]. by apply (list_elem_of_lookup_2 _ (currentTurn st.1)).
Qed.

(** X17.  Throughout a session, the target of every entry of the user
    dialog is the [line] of an item of the script. *)
Theorem recorded_lines_come_from_the_script (es : list event) (ai : AiService) :
  recordedFromScript (run env es (mount env, ai)).1.
Proof.
  assert (forall st, recordedFromScript st.1 -> recordedFromScript (run env es st).1)
    as Hrun.
  { induction es as [|e es IH]; intros st Hst; [done|].
    cbn [run fold_left]. fold (run env es (dispatch env e st)).
    by apply IH, recordedFromScript_dispatch. }
  apply Hrun. by apply Forall_nil.
Qed.

End Recorded.

(** ** What [extractJson] hands to [JSON.parse] *)

(** [p] is a contiguous part of [s]. *)
Definition isPartOf (p s : string) : Prop :=
  exists before after, s = before +:+ p +:+ after.

Lemma isPartOf_refl (s : string) : isPartOf s s.
Proof. exists EmptyString, EmptyString. by rewrite append_empty_r. Qed.

Lemma isPartOf_trans (p q s : string) : isPartOf p q -> isPartOf q s -> isPartOf p s.
Proof.
  intros (b1 & a1 & ->) (b2 & a2 & ->). exists (b2 +:+ b1), (a1 +:+ a2).
  by rewrite !append_assoc.
Qed.

Lemma isPartOf_cons (c : ascii) (p s : string) : isPartOf p s -> isPartOf p (String c s).
Proof. intros (b & a & ->). by exists (String c b), a. Qed.

Lemma trim_part (s : string) : isPartOf (trim s) s.
Proof. destruct (trim_form s) as (before & after & Hs & _). by exists before, after. Qed.

Lemma substring_prefix (m : nat) (s : string) :
  exists after, s = String.substring 0 m s +:+ after.
Proof.
  revert m. induction s as [|c r IH]; intros [|m]; cbn [String.substring];
    [by exists EmptyString|by exists EmptyString|by eexists|].
  destruct (IH m) as (after & Hr). exists after. by rewrite append_cons, <- Hr.
Qed.

Lemma substring_part (n m : nat) (s : string) : isPartOf (String.substring n m s) s.
Proof.
  revert s. induction n as [|n IH]; intros s.
  { destruct (substring_prefix m s) as (after & Hs). by exists EmptyString, after. }
  destruct s as [|c r]; [destruct m; apply isPartOf_refl|].
  cbn [String.substring]. apply isPartOf_cons, IH.
Qed.

(** The fence *)

Lemma prefix_drop (p s : string) :
  String.prefix p s = true -> s = p +:+ drop (String.length p) s.
Proof.
  revert s. induction p as [|c p IH]; intros s Hp; [done|].
  destruct s as [|d s]; [done|]. cbn [String.prefix] in Hp.
  destruct (Ascii.ascii_dec c d) as [->|]; [|done].
  cbn [String.length drop]. by rewrite append_cons, <- (IH s Hp).
Qed.

Lemma closes_form (s : string) :
  Fence.closes s = true ->
  exists ws after,
    s = ws +:+ Fence.backticks +:+ after /\ allChars isWhiteSpace ws = true.
Proof.
  induction s as [|c r IH]; cbn [Fence.closes]; intros Hs.
  - apply orb_prop in Hs as [Hs|Hs]; [|done]. apply prefix_drop in Hs.
    by exists EmptyString, (drop (String.length Fence.backticks) EmptyString).
  - apply orb_prop in Hs as [Hs|Hs].
    + apply prefix_drop in Hs.
      by exists EmptyString, (drop (String.length Fence.backticks) (String c r)).
    + apply andb_prop in Hs as [Hc Hr]. destruct (IH Hr) as (ws & after & -> & Hws).
      exists (String c ws), after. split; [done|]. cbn [allChars]. by rewrite Hc.
Qed.

Lemma capture_form (s g : string) :
  Fence.capture s = Some g -> exists rest, s = g +:+ rest /\ Fence.closes rest = true.
Proof.
  revert g. induction s as [|c r IH]; intros g; cbn [Fence.capture].
  - destruct (Fence.closes EmptyString) eqn:Hcloses; [|done].
    intros [= <-]. by exists EmptyString.
  - destruct (Fence.closes (String c r)) eqn:Hcloses.
    + intros [= <-]. by exists (String c r).
    + destruct (Fence.capture r) as [g'|]; [|done]. intros [= <-].
      destruct (IH g' eq_refl) as (rest & -> & Hrest). by exists rest.
Qed.

Lemma afterSpaces_form (s g : string) :
  Fence.afterSpaces s = Some g ->
  exists ws rest,
    s = ws +:+ g +:+ rest /\ allChars isWhiteSpace ws = true /\ Fence.closes rest = true.
Proof.
  assert (forall s, Fence.capture s = Some g ->
            exists ws rest, s = ws +:+ g +:+ rest /\ allChars isWhiteSpace ws = true
                            /\ Fence.closes rest = true) as Hcapture.
  { intros s' (rest & -> & Hrest)%capture_form. by exists EmptyString, rest. }
  induction s as [|c r IH]; cbn [Fence.afterSpaces]; [by apply Hcapture|].
  destruct (isWhiteSpace c) eqn:Hc; [|by apply Hcapture].
  destruct (Fence.afterSpaces r) as [g'|]; [|by apply Hcapture].
  intros [= ->]. destruct (IH eq_refl) as (ws & rest & -> & Hws & Hrest).
  exists (String c ws), rest. split; [done|]. cbn [allChars]. by rewrite Hc.
Qed.

Lemma matchHere_form (s g : string) :
  Fence.matchHere s = Some g ->
  exists opener ws rest,
    s = Fence.backticks +:+ opener +:+ ws +:+ g +:+ rest
    /\ (opener = EmptyString \/ opener = "json")
    /\ allChars isWhiteSpace ws = true /\ Fence.closes rest = true.
Proof.
  unfold Fence.matchHere. destruct (String.prefix Fence.backticks s) eqn:Hopen; [|done].
  apply prefix_drop in Hopen. cbn [String.length Fence.backticks] in Hopen.
  set (r := drop 3 s) in *. clearbody r. subst s.
  destruct (String.prefix "json" r) eqn:Hjson.
  - apply prefix_drop in Hjson. cbn [String.length] in Hjson.
    destruct (Fence.afterSpaces (drop 4 r)) as [g'|] eqn:Hafter.
    + intros [= ->]. apply afterSpaces_form in Hafter as (ws & rest & Hr & Hws & Hrest).
      exists "json", ws, rest. rewrite <- Hr, <- Hjson. auto.
    + intros (ws & rest & Hr & Hws & Hrest)%afterSpaces_form.
      exists EmptyString, ws, rest. rewrite <- Hr. auto.
  - intros (ws & rest & Hr & Hws & Hrest)%afterSpaces_form.
    exists EmptyString, ws, rest. rewrite <- Hr. auto.
Qed.

Lemma search_form (s g : string) :
  Fence.search s = Some g ->
  exists before matched, s = before +:+ matched /\ Fence.matchHere matched = Some g.
Proof.
  induction s as [|c r IH]; cbn [Fence.search].
  - destruct (Fence.matchHere EmptyString) eqn:Hhere; [|done].
    intros [= ->]. by exists EmptyString, EmptyString.
  - destruct (Fence.matchHere (String c r)) eqn:Hhere.
    + intros [= ->]. by exists EmptyString, (String c r).
    + intros (before & matched & -> & Hmatched)%IH. by exists (String c before), matched.
Qed.

Lemma fence_match_form (s g : string) :
  Fence.search s = Some g ->
  exists before opener ws1 ws2 after,
    s = before +:+ "```" +:+ opener +:+ ws1 +:+ g +:+ ws2 +:+ "```" +:+ after
    /\ (opener = EmptyString \/ opener = "json")
    /\ allChars isWhiteSpace ws1 = true /\ allChars isWhiteSpace ws2 = true.
Proof.
  intros (before & matched & -> & Hmatched)%search_form.
  apply matchHere_form in Hmatched as (opener & ws1 & rest & -> & Hopener & Hws1 & Hrest).
  apply closes_form in Hrest as (ws2 & after & -> & Hws2).
  by exists before, opener, ws1, ws2, after.
Qed.

Lemma search_part (s g : string) : Fence.search s = Some g -> isPartOf g s.
Proof.
  intros (before & opener & ws1 & ws2 & after & -> & _)%fence_match_form.
  exists (before +:+ "```" +:+ opener +:+ ws1), (ws2 +:+ "```" +:+ after).
  by rewrite !append_assoc.
Qed.

(** X18.  [extractJson] never makes up text: what it hands to [JSON.parse]
    is a contiguous part of the reply. *)
Theorem jsonCandidate_part (text : string) : isPartOf (jsonCandidate text) text.
Proof.
  unfold jsonCandidate. apply isPartOf_trans with (trim text); [|apply trim_part].
  destruct (Fence.search (trim text)) as [[|c g]|] eqn:Hfence.
  2: { apply isPartOf_trans with (String c g); [apply trim_part|by apply search_part]. }
  all: cbv zeta; case_match; try apply isPartOf_refl; apply substring_part.
Qed.

(** X19.  A fenced reply is unwrapped.  When the fence expression matches
    the trimmed reply with a non-empty group, [JSON.parse] gets the trimmed
    group, and the group stands in the reply between an opening fence (three
    backticks, [json] or not, white space) and a closing fence (white space,
    three backticks). *)
Theorem fenced_reply_is_unwrapped (text g : string) :
  Fence.search (trim text) = Some g ->
  truthy g = true ->
  jsonCandidate text = trim g
  /\ exists before opener ws1 ws2 after,
       trim text = before +:+ "```" +:+ opener +:+ ws1 +:+ g +:+ ws2 +:+ "```" +:+ after
       /\ (opener = EmptyString \/ opener = "json")
       /\ allChars isWhiteSpace ws1 = true /\ allChars isWhiteSpace ws2 = true.
Proof.
  intros Hfence Hg. split; [|by apply fence_match_form].
  unfold jsonCandidate. rewrite Hfence. by destruct g.
Qed.

Lemma fenced_reply_is_unwrapped_witness :
  let text := "```json" +:+ String (Ascii.ascii_of_N 10) demoScriptJson
              +:+ String (Ascii.ascii_of_N 10) "```" in
  Fence.search (trim text) = Some demoScriptJson
  /\ jsonCandidate text = trim demoScriptJson.
Proof.
  split; [by vm_compute|].
  apply (fenced_reply_is_unwrapped _ demoScriptJson); by vm_compute.
Defined.

(** The bare reply: no backtick, so no fence. *)

Definition isBacktick (c : ascii) : bool := Ascii.eqb c "`".

Lemma matchHere_backtick (c : ascii) (r : string) :
  isBacktick c = false -> Fence.matchHere (String c r) = None.
Proof.
  unfold isBacktick, Fence.matchHere, Fence.backticks. intros Hc. cbn [String.prefix].
  destruct (Ascii.ascii_dec "`"%char c) as [<-|]; [done|done].
Qed.

Lemma search_no_backtick (s : string) :
  allChars (fun c => negb (isBacktick c)) s = true -> Fence.search s = None.
Proof.
  induction s as [|c r IH]; [done|]. cbn [allChars Fence.search].
  intros [Hc Hr]%andb_prop. apply negb_true_iff in Hc.
  by rewrite matchHere_backtick, IH.
Qed.

Lemma indexOf_bounds (c : ascii) (s : string) :
  indexOf c s = -1 \/ 0 <= indexOf c s < Z.of_nat (String.length s).
Proof.
  induction s as [|d r IH]; [by left|]. cbn [indexOf String.length].
  destruct (Ascii.eqb d c); [right; lia|].
  destruct (Z.eqb_spec (indexOf c r) (-1)); [by left|right; lia].
Qed.

Lemma lastIndexOf_bounds (c : ascii) (s : string) :
  lastIndexOf c s = -1 \/ 0 <= lastIndexOf c s < Z.of_nat (String.length s).
Proof.
  induction s as [|d r IH]; [by left|]. cbn [lastIndexOf String.length].
  destruct (Z.eqb_spec (lastIndexOf c r) (-1)); [|right; lia].
  destruct (Ascii.eqb d c); [right; lia|by left].
Qed.

Lemma length_append (s1 s2 : string) :
  String.length (s1 +:+ s2) = (String.length s1 + String.length s2)%nat.
Proof. induction s1 as [|c r IH]; [done|]. rewrite append_cons. cbn. by rewrite IH. Qed.

Lemma lastIndexOf_last (c : ascii) (s : string) :
  lastIndexOf c (s +:+ String c EmptyString) = Z.of_nat (String.length s).
Proof.
  induction s as [|d r IH].
  - change (lastIndexOf c (EmptyString +:+ String c EmptyString))
      with (if Ascii.eqb c c then 0 else -1).
    by rewrite Ascii.eqb_refl.
  - rewrite append_cons. cbn [lastIndexOf String.length]. rewrite IH.
    destruct (Z.eqb_spec (Z.of_nat (String.length r)) (-1)); lia.
Qed.

Lemma substring_whole (s : string) : String.substring 0 (String.length s) s = s.
Proof. induction s as [|c r IH]; [done|]. cbn. by rewrite IH. Qed.

(** The characters [extractJson] looks for when there is no fence. *)
Definition opens (c : ascii) : Prop := c = "["%char \/ c = "{"%char.

Definition shuts (c : ascii) : Prop := c = "]"%char \/ c = "}"%char.

(** X20.  A bare reply passes whole.  When the reply has no backtick and,
    trimmed, starts with an opening bracket or brace and ends with a closing
    one, [JSON.parse] gets the trimmed reply, all of it. *)
Theorem bare_json_passes_whole (text mid : string) (o c : ascii) :
  allChars (fun c => negb (isBacktick c)) text = true ->
  opens o -> shuts c ->
  trim text = String o (mid +:+ String c EmptyString) ->
  jsonCandidate text = trim text.
Proof.
  intros Hticks Ho Hc Htext. unfold jsonCandidate.
  assert (Fence.search (trim text) = None) as ->.
  { apply search_no_backtick. destruct (trim_form text) as (before & after & Ht & _).
    rewrite Ht, !allChars_append in Hticks.
    by apply andb_prop in Hticks as [_ [Hticks _]%andb_prop]. }
  rewrite Htext. set (s := String o (mid +:+ String c EmptyString)).
  assert (String.length s = S (S (String.length mid))) as Hlen.
  { unfold s. cbn. rewrite length_append. cbn. lia. }
  assert (indexOf "[" s = 0 \/ indexOf "{" s = 0) as Hfirst.
  { unfold s. cbn [indexOf]. destruct Ho as [-> | ->]; [by left|by right]. }
  assert (lastIndexOf "]" s = Z.of_nat (String.length s) - 1
          \/ lastIndexOf "}" s = Z.of_nat (String.length s) - 1) as Hlast.
  { unfold s. cbn [lastIndexOf]. destruct Hc as [-> | ->]; [left|right];
      rewrite lastIndexOf_last; cbn [String.length]; rewrite length_append; cbn;
      destruct (Z.eqb_spec (Z.of_nat (String.length mid)) (-1)); lia. }
  pose proof (indexOf_bounds "[" s) as Hb1. pose proof (indexOf_bounds "{" s) as Hb2.
  pose proof (lastIndexOf_bounds "]" s) as Hb3.
  pose proof (lastIndexOf_bounds "}" s) as Hb4.
  clearbody s. cbv zeta.
  set (start := if negb (indexOf "[" s =? -1) && negb (indexOf "{" s =? -1)
                then Z.min (indexOf "[" s) (indexOf "{" s)
                else if negb (indexOf "[" s =? -1) then indexOf "[" s else indexOf "{" s).
  set (end_ := if negb (lastIndexOf "]" s =? -1) && negb (lastIndexOf "}" s =? -1)
               then Z.max (lastIndexOf "]" s) (lastIndexOf "}" s)
               else if negb (lastIndexOf "]" s =? -1) then lastIndexOf "]" s
                    else lastIndexOf "}" s).
  assert (start = 0) as ->.
  { unfold start. destruct (Z.eqb_spec (indexOf "[" s) (-1)), (Z.eqb_spec (indexOf "{" s) (-1));
      cbn [negb andb]; lia. }
  assert (end_ = Z.of_nat (String.length s) - 1) as ->.
  { unfold end_.
    destruct (Z.eqb_spec (lastIndexOf "]" s) (-1)), (Z.eqb_spec (lastIndexOf "}" s) (-1));
      cbn [negb andb]; lia. }
  assert ((0 <? Z.of_nat (String.length s) - 1) = true) as -> by (apply Z.ltb_lt; lia).
  cbn [negb andb Z.eqb]. unfold substring.
  replace (Z.to_nat 0) with 0%nat by done.
  replace (Z.to_nat (Z.of_nat (String.length s) - 1 + 1 - 0)) with (String.length s) by lia.
  apply substring_whole.
Qed.

Lemma bare_json_passes_whole_witness :
  let text := " " +:+ demoScriptJson +:+ String (Ascii.ascii_of_N 10) EmptyString in
  allChars (fun c => negb (isBacktick c)) text = true
  /\ trim text = demoScriptJson
  /\ jsonCandidate text = trim text.
Proof.
  split; [by vm_compute|]. split; [by vm_compute|].
  apply (bare_json_passes_whole _
           (String.substring 1 (String.length demoScriptJson - 2) demoScriptJson)
           "[" "]"); [by vm_compute|by left|by left|by vm_compute].
Defined.
